(** * The dataset browser of Veusz: grouping, filtering and previews

    A shallow embedding of [veusz/qtwidgets/datasetbrowser.py]: the
    filter predicate, the construction of the grouped dataset tree, the
    preview thumbnail, the rename entry point and the lookup of the
    dataset behind a node.

    Python values are modelled as follows.
    - [str] is [string]; [str.find] and [os.path.basename] are written out.
    - a tuple of display columns is a [list string], compared as Python
      compares tuples (lexicographically, a proper prefix first).
    - [doc.data] (a dict) is an association list in iteration order whose
      keys are pairwise distinct; [ds.tags] (a set of str) is a list
      without duplicates.  The theorems hold for every iteration order.
    - numpy's float64 is the binary64 type [float] of the kernel; numpy
      divides by zero without raising (the result is an infinity or NaN).
    - exceptions are the constructor [Raise] of [result].
    - the Qt painter is the list of the drawing commands it received. *)

From Stdlib Require Import List String Ascii ZArith Bool Lia Sorted Permutation.
From Stdlib Require Import Floats Uint63.
Import ListNotations.

Local Open Scope string_scope.
Local Open Scope list_scope.
Local Open Scope Z_scope.

(** ** Exceptions *)

Inductive exn := KeyError | ValueError | ZeroDivisionError | AssertionError | IndexError.

Inductive result (A : Type) :=
| Ok (a : A)
| Raise (e : exn).

Arguments Ok {A} a.
Arguments Raise {A} e.

Definition bind {A B} (r : result A) (k : A -> result B) : result B :=
  match r with
  | Ok a => k a
  | Raise e => Raise e
  end.

Notation "x <- r ;; k" := (bind r (fun x => k))
  (at level 61, r at next level, right associativity).

(** ** Python strings *)

(** [s.find(sub)]: the lowest index at which [sub] occurs in [s], or -1. *)
Fixpoint find_from (s sub : string) (i : Z) : Z :=
  if prefix sub s then i
  else match s with
       | EmptyString => -1
       | String _ s' => find_from s' sub (i + 1)
       end.

Definition find (s sub : string) : Z := find_from s sub 0.

(** [p.rfind("/")] scanned left to right: [last] is the best index so far. *)
Fixpoint rfind_sep (p : string) (i last : Z) : Z :=
  match p with
  | EmptyString => last
  | String c r => rfind_sep r (i + 1) (if Ascii.eqb c "/" then i else last)
  end.

(** [s[n:]] for [0 <= n]. *)
Fixpoint drop (n : nat) (s : string) : string :=
  match n, s with
  | O, _ => s
  | S _, EmptyString => EmptyString
  | S n', String _ s' => drop n' s'
  end.

(** [os.path.basename] of posixpath: [i = p.rfind('/') + 1; return p[i:]]. *)
Definition basename (p : string) : string :=
  let i := rfind_sep p 0 (-1) + 1 in
  drop (Z.to_nat i) p.

(** Python's [<] on tuples of str. *)
Fixpoint tuple_compare (a b : list string) : comparison :=
  match a, b with
  | [], [] => Eq
  | [], _ :: _ => Lt
  | _ :: _, [] => Gt
  | x :: a', y :: b' =>
      match String.compare x y with
      | Eq => tuple_compare a' b'
      | c => c
      end
  end.

Definition tuple_lt (a b : list string) : bool :=
  match tuple_compare a b with Lt => true | _ => false end.

(** [sorted] on a collection of str (insertion into an ordered list). *)
Fixpoint sorted_insert (x : string) (l : list string) : list string :=
  match l with
  | [] => [x]
  | y :: l' => if String.ltb y x then y :: sorted_insert x l' else x :: l
  end.

Definition sorted (l : list string) : list string :=
  fold_right sorted_insert [] l.

(** ** Datasets and the document *)

Module Dataset.

(** The attributes and method results of a dataset that the browser
    reads.  [userSize], [description], [userPreview] and
    [linkedInformation] are the values the methods of these names return;
    [linked] is [ds.linked.filename], absent when [ds.linked is None]. *)
Record t := mk {
  dimensions : Z;
  datatype : string;
  dstype : string;
  userSize : string;
  tags : list string;
  linked : option string;
  data : list float;
  description : option string;
  userPreview : string;
  linkedInformation : string
}.

End Dataset.

Module Document.

Record t := mk {
  data : list (string * Dataset.t)
}.

End Document.

(** [doc.data[name]] *)
Fixpoint getitem (d : list (string * Dataset.t)) (name : string) : result Dataset.t :=
  match d with
  | [] => Raise KeyError
  | (k, v) :: d' => if String.eqb k name then Ok v else getitem d' name
  end.

(** [name in doc.data] *)
Definition contains (d : list (string * Dataset.t)) (name : string) : bool :=
  existsb (fun kv => String.eqb (fst kv) name) d.

Definition datasetLinkFile (ds : Dataset.t) : string :=
  match Dataset.linked ds with
  | None => "/"
  | Some filename => filename
  end.

(** ** Tree nodes *)

(** The node classes of the module; a [DatasetNode] remembers its [cols]. *)
Inductive NodeClass :=
| TMNodeClass
| FilenameNodeClass
| DatasetNodeClass (cols : list string).

Module TMNode.

(** Modelled from the spec: the class [TMNode] of [utils/treemodel.py],
    the base of the node classes of the browser.  A node holds a tuple of
    display-column values and an ordered list of children; [cls] is the
    Python class of the object.  The parent pointer is not part of the
    value: a child is reached from its parent's [childnodes]. *)
#[warnings="-register-all"]
Inductive t := mk {
  cls : NodeClass;
  data : list string;
  childnodes : list t
}.

End TMNode.

(** [DatasetNode.__init__]: the column values of a dataset, in the order
    of [cols]; a column name outside the four known ones adds nothing. *)
Fixpoint column_values (dsname : string) (ds : Dataset.t) (cols : list string) : list string :=
  match cols with
  | [] => []
  | c :: cols' =>
      let rest := column_values dsname ds cols' in
      if String.eqb c "name" then dsname :: rest
      else if String.eqb c "size" then Dataset.userSize ds :: rest
      else if String.eqb c "type" then Dataset.dstype ds :: rest
      else if String.eqb c "linkfile" then basename (datasetLinkFile ds) :: rest
      else rest
  end.

Definition DatasetNode (doc : Document.t) (dsname : string) (cols : list string)
  : result TMNode.t :=
  ds <- getitem (Document.data doc) dsname ;;
  match cols with
  | [] => Raise IndexError
  | c0 :: _ =>
      if String.eqb c0 "name"
      then Ok (TMNode.mk (DatasetNodeClass cols) (column_values dsname ds cols) [])
      else Raise AssertionError
  end.

(** [DatasetNode.datasetName] *)
Definition datasetName (node : TMNode.t) : result string :=
  match TMNode.data node with
  | [] => Raise IndexError
  | d0 :: _ => Ok d0
  end.

(** Modelled from the spec: the list update of [TMNode.insertChildSorted]
    of [utils/treemodel.py].  The spec: child insertion uses lexicographic
    order on the child's first column value, ties broken by subsequent
    columns, and is stable.  The new child goes before the first child
    whose columns are greater, or last. *)
Fixpoint insert_sorted (newchild : TMNode.t) (children : list TMNode.t) : list TMNode.t :=
  match children with
  | [] => [newchild]
  | c :: rest =>
      if tuple_lt (TMNode.data newchild) (TMNode.data c)
      then newchild :: children
      else c :: insert_sorted newchild rest
  end.

(** Modelled from the spec: [TMNode.insertChildSorted], the node after
    the insertion of [newchild] among its children. *)
Definition insertChildSorted (self newchild : TMNode.t) : TMNode.t :=
  TMNode.mk (TMNode.cls self) (TMNode.data self)
            (insert_sorted newchild (TMNode.childnodes self)).

(** [treeFromList]: the root is a plain [TMNode]. *)
Definition treeFromList (nodelist : list TMNode.t) (rootdata : list string) : TMNode.t :=
  fold_left insertChildSorted nodelist (TMNode.mk TMNodeClass rootdata []).

(** ** The model *)

Module DatasetRelationModel.

Record t := mk {
  doc : Document.t;
  grouping : string;
  filter : string;
  readonly : bool;
  filterdims : option (list Z);
  filterdtype : option (list string)
}.

End DatasetRelationModel.

Definition in_Z (x : Z) (l : list Z) : bool := existsb (Z.eqb x) l.
Definition in_str (x : string) (l : list string) : bool := existsb (String.eqb x) l.

Definition datasetFilterOut (self : DatasetRelationModel.t)
  (ds : Dataset.t) (node : TMNode.t) : bool :=
  let filter := DatasetRelationModel.filter self in
  let filterout := false in
  let keep := true in
  let keep :=
    if negb (String.eqb filter "") then
      let keep := false in
      let keep :=
        if existsb (fun t => find t filter >=? 0) (Dataset.tags ds) then true else keep in
      let keep :=
        if existsb (fun t => find t filter >=? 0) (TMNode.data node) then true else keep in
      keep
    else keep in
  let filterout :=
    match DatasetRelationModel.filterdims self with
    | Some dims => if negb (in_Z (Dataset.dimensions ds) dims) then true else filterout
    | None => filterout
    end in
  let filterout :=
    match DatasetRelationModel.filterdtype self with
    | Some dtypes => if negb (in_str (Dataset.datatype ds) dtypes) then true else filterout
    | None => filterout
    end in
  if filterout then true else negb keep.

(** ** Building the tree *)

(** The group nodes made so far, [grpnodes]: a dict from the group key to
    its node, in order of first insertion.  The tree made of its values
    does not depend on their order. *)
Definition GrpNodes := list (string * TMNode.t).

Definition grp_in (grp : string) (grpnodes : GrpNodes) : bool :=
  existsb (fun kv => String.eqb (fst kv) grp) grpnodes.

(** [grpnodes[grp].insertChildSorted(child)] *)
Fixpoint grp_insert_child (grp : string) (child : TMNode.t) (grpnodes : GrpNodes) : GrpNodes :=
  match grpnodes with
  | [] => []
  | (k, node) :: rest =>
      if String.eqb k grp
      then (k, insertChildSorted node child) :: rest
      else (k, node) :: grp_insert_child grp child rest
  end.

(** The loop [for grp in grps] of [makeGrpTree]. *)
Fixpoint add_to_groups (GrpNodeClass : NodeClass) (grps : list string)
  (child : TMNode.t) (grpnodes : GrpNodes) : GrpNodes :=
  match grps with
  | [] => grpnodes
  | grp :: grps' =>
      let grpnodes :=
        if negb (grp_in grp grpnodes)
        then grpnodes ++ [(grp, TMNode.mk GrpNodeClass [grp] [])]
        else grpnodes in
      add_to_groups GrpNodeClass grps' child (grp_insert_child grp child grpnodes)
  end.

Section Browser.

(** [_]: the translation of a user-visible text. *)
Variable tr : string -> string.

Variable self : DatasetRelationModel.t.

(** The loop of [makeGrpTreeNone] over the items of [doc.data] still to
    visit. *)
Fixpoint makeGrpTreeNone_loop (items : list (string * Dataset.t)) (tree : TMNode.t)
  : result TMNode.t :=
  match items with
  | [] => Ok tree
  | (name, ds) :: items' =>
      child <- DatasetNode (DatasetRelationModel.doc self) name
                 ["name"; "size"; "type"; "linkfile"] ;;
      if negb (datasetFilterOut self ds child)
      then makeGrpTreeNone_loop items' (insertChildSorted tree child)
      else makeGrpTreeNone_loop items' tree
  end.

Definition makeGrpTreeNone : result TMNode.t :=
  makeGrpTreeNone_loop (Document.data (DatasetRelationModel.doc self))
    (TMNode.mk TMNodeClass [tr "Dataset"; tr "Size"; tr "Type"; tr "File"] []).

Section MakeGrpTree.

Variable coltitles : list string.
Variable colitems : list string.
Variable grouper : Dataset.t -> list string.
Variable GrpNodeClass : NodeClass.

Fixpoint makeGrpTree_loop (items : list (string * Dataset.t)) (grpnodes : GrpNodes)
  : result GrpNodes :=
  match items with
  | [] => Ok grpnodes
  | (name, ds) :: items' =>
      child <- DatasetNode (DatasetRelationModel.doc self) name colitems ;;
      if negb (datasetFilterOut self ds child)
      then makeGrpTree_loop items' (add_to_groups GrpNodeClass (grouper ds) child grpnodes)
      else makeGrpTree_loop items' grpnodes
  end.

Definition makeGrpTree : result TMNode.t :=
  grpnodes <- makeGrpTree_loop (Document.data (DatasetRelationModel.doc self)) [] ;;
  Ok (treeFromList (map snd grpnodes) coltitles).

End MakeGrpTree.

Definition makeGrpTreeFilename : result TMNode.t :=
  makeGrpTree [tr "Dataset"; tr "Size"; tr "Type"]
              ["name"; "size"; "type"]
              (fun ds => [datasetLinkFile ds])
              FilenameNodeClass.

Definition makeGrpTreeSize : result TMNode.t :=
  makeGrpTree [tr "Dataset"; tr "Type"; tr "Filename"]
              ["name"; "type"; "linkfile"]
              (fun ds => [Dataset.userSize ds])
              TMNodeClass.

Definition makeGrpTreeType : result TMNode.t :=
  makeGrpTree [tr "Dataset"; tr "Size"; tr "Filename"]
              ["name"; "size"; "linkfile"]
              (fun ds => [Dataset.dstype ds])
              TMNodeClass.

Definition getgrp (ds : Dataset.t) : list string :=
  match Dataset.tags ds with
  | [] => [tr "None"]
  | _ :: _ => sorted (Dataset.tags ds)
  end.

Definition makeGrpTreeTags : result TMNode.t :=
  makeGrpTree [tr "Dataset"; tr "Size"; tr "Type"; tr "Filename"]
              ["name"; "size"; "type"; "linkfile"]
              getgrp
              TMNodeClass.

(** The tree that [refresh] hands to [syncTree]; an unknown grouping is a
    [KeyError] of the dispatch dict. *)
Definition refresh_tree : result TMNode.t :=
  let grouping := DatasetRelationModel.grouping self in
  if String.eqb grouping "none" then makeGrpTreeNone
  else if String.eqb grouping "filename" then makeGrpTreeFilename
  else if String.eqb grouping "size" then makeGrpTreeSize
  else if String.eqb grouping "type" then makeGrpTreeType
  else if String.eqb grouping "tags" then makeGrpTreeTags
  else Raise KeyError.

End Browser.

(** ** The preview thumbnail *)

(** What was painted on the pixmap, in order. *)
Inductive DrawCmd :=
| DrawPolyline (poly : list (float * float))
| DrawLine (x1 y1 x2 y2 : float).

Definition Pixmap := list DrawCmd.

Definition len {A} (l : list A) : Z := Z.of_nat (List.length l).

(** [l[::step]] for a positive [step]: [skip] elements are passed over
    before the next one is taken. *)
Fixpoint slice_step_from {A} (step skip : nat) (l : list A) : list A :=
  match l with
  | [] => []
  | x :: l' =>
      match skip with
      | O => x :: slice_step_from step (step - 1) l'
      | S k => slice_step_from step k l'
      end
  end.

Definition slice_step {A} (l : list A) (step : Z) : list A :=
  slice_step_from (Z.to_nat step) 0 l.

(** The first step of the preview: the samples that are plotted. *)
Definition downsample {A} (data : list A) (height : Z) : list A :=
  if len data <? height then data
  else let intvl := len data / height + 1 in slice_step data intvl.

(** [N.arange(n)] *)
Definition arange (n : nat) : list Z := map Z.of_nat (seq 0 n).

(** A Python int of the sizes met here as a float64. *)
Definition float_of_Z (z : Z) : float := PrimFloat.of_uint63 (Uint63.of_Z z).

(** numpy's [fmin] and [fmax]: a NaN operand yields the other one. *)
Definition fmin (a b : float) : float :=
  if PrimFloat.leb a b || PrimFloat.is_nan b then a else b.

Definition fmax (a b : float) : float :=
  if PrimFloat.leb b a || PrimFloat.is_nan b then a else b.

(** [N.nanmin] and [N.nanmax]: the reduction by [fmin] or [fmax]; an empty
    array is a [ValueError], an array of NaN gives NaN. *)
Definition nanmin (y : list float) : result float :=
  match y with
  | [] => Raise ValueError
  | v :: y' => Ok (fold_left fmin y' v)
  end.

Definition nanmax (y : list float) : result float :=
  match y with
  | [] => Raise ValueError
  | v :: y' => Ok (fold_left fmax y' v)
  end.

(** [a[mask]] for a boolean mask of the length of [a]. *)
Fixpoint select {A} (mask : list bool) (a : list A) : list A :=
  match mask, a with
  | true :: mask', v :: a' => v :: select mask' a'
  | false :: mask', _ :: a' => select mask' a'
  | _, _ => []
  end.

(** The normalisation [(y-minval) / (maxval-minval) * size[1]]. *)
Definition normalize (minval maxval : float) (y : list float) : list float :=
  map (fun v => ((v - minval) / (maxval - minval) * 70)%float) y.

(** The body of the [try] of [getPreviewPixmap]. *)
Definition preview_body (data : list float) : result Pixmap :=
  let y := downsample data 70 in
  let x := arange (List.length y) in
  minval <- nanmin y ;;
  maxval <- nanmax y ;;
  let y := normalize minval maxval y in
  let finite := map PrimFloat.is_finite y in
  let x := select finite x in
  let y := select finite y in
  if len x =? 0 then Raise ZeroDivisionError
  else
    let scale := (1 / float_of_Z (len x))%float in
    let x := map (fun i => (float_of_Z i * scale * 140)%float) x in
    let poly := combine x (map (fun v => (70 - v)%float) y) in
    let x0 := hd 0%float x in
    let xlast := last x 0%float in
    let axis :=
      if PrimFloat.leb minval 0 && PrimFloat.ltb 0 maxval
      then
        let y0 := (70 - (0 - minval) / (maxval - minval) * 70)%float in
        DrawLine x0 y0 xlast y0
      else DrawLine x0 70 xlast 70 in
    Ok [DrawPolyline poly; axis; DrawLine x0 0 x0 70].

Definition getPreviewPixmap (ds : Dataset.t) : result (option Pixmap) :=
  if negb (Dataset.dimensions ds =? 1) || negb (String.eqb (Dataset.datatype ds) "numeric")
  then Ok None
  else
    match preview_body (Dataset.data ds) with
    | Ok pixmap => Ok (Some pixmap)
    | Raise ValueError => Ok None
    | Raise ZeroDivisionError => Ok None
    | Raise e => Raise e
    end.

(** ** The dataset behind a node *)

(** [DatasetNode.dataset]: the node reads the document as it is now. *)
Definition dataset (doc : Document.t) (self : TMNode.t) : result (option Dataset.t) :=
  name <- datasetName self ;;
  match getitem (Document.data doc) name with
  | Ok ds => Ok (Some ds)
  | Raise KeyError => Ok None
  | Raise e => Raise e
  end.

(** [l[i]] for a Python index, negative ones counting from the end. *)
Definition py_index {A} (l : list A) (i : Z) : result A :=
  let j := if i <? 0 then i + len l else i in
  if (j <? 0) || (len l <=? j) then Raise IndexError
  else match nth_error l (Z.to_nat j) with
       | Some v => Ok v
       | None => Raise IndexError
       end.

(** [text.replace("\n", "<br>")] *)
Fixpoint replace_newline (text : string) : string :=
  match text with
  | EmptyString => EmptyString
  | String c text' =>
      if Ascii.eqb c "010" then ("<br>" ++ replace_newline text')%string
      else String c (replace_newline text')
  end.

Section ToolTip.

Variable tr : string -> string.

(** [textwrap.fill(text, width)] *)
Variable textwrap_fill : string -> Z -> string.

(** [template % arg] for a translated template *)
Variable percent : string -> string -> string.

(** [utils.pixmapAsHtml] *)
Variable pixmapAsHtml : Pixmap -> string.

Definition newline : string := String "010" EmptyString.

(** [DatasetNode.toolTip]; [cols] is [self.cols]. *)
Definition toolTip (doc : Document.t) (cols : list string) (self : TMNode.t) (column : Z)
  : result (option string) :=
  name <- datasetName self ;;
  match getitem (Document.data doc) name with
  | Raise KeyError => Ok None
  | Raise e => Raise e
  | Ok ds =>
      c <- py_index cols column ;;
      if String.eqb c "name" then
        let text := match Dataset.description ds with
                    | None => EmptyString
                    | Some text => text
                    end in
        let text :=
          match Dataset.tags ds with
          | [] => text
          | _ :: _ =>
              (text ++ newline ++ newline
                    ++ percent (tr "Tags: %s") (String.concat " " (sorted (Dataset.tags ds))))%string
          end in
        Ok (Some (textwrap_fill text 40))
      else if String.eqb c "size" || (String.eqb c "type" && negb (in_str "size" cols)) then
        let text := Dataset.userPreview ds in
        pix <- getPreviewPixmap ds ;;
        match pix with
        | Some pix =>
            let text := replace_newline text in
            Ok (Some ("<html>" ++ text ++ "<br>" ++ pixmapAsHtml pix ++ "</html>")%string)
        | None => Ok (Some text)
        end
      else if String.eqb c "linkfile" || String.eqb c "type" then
        Ok (Some (textwrap_fill (Dataset.linkedInformation ds) 40))
      else Ok None
  end.

End ToolTip.

(** ** Renaming a dataset *)

Inductive Operation :=
| OperationDatasetRename (oldname newname : string).

(** What [setData] can change: the document, the operations applied to it
    and the [dataChanged] signals emitted, each with its index. *)
Record World (Index : Type) := mkWorld {
  document : Document.t;
  applied : list Operation;
  emitted : list (Index * Index)
}.

Arguments mkWorld {Index}.
Arguments document {Index}.
Arguments applied {Index}.
Arguments emitted {Index}.

Section SetData.

Variable Index : Type.

(** [utils.validateDatasetName] *)
Variable validateDatasetName : string -> bool.

(** The effect of an operation on the document ([Operation.do]). *)
Variable Operation_do : Operation -> Document.t -> Document.t.

(** [self.objFromIndex] *)
Variable objFromIndex : Index -> TMNode.t.

Definition applyOperation (op : Operation) (w : World Index) : World Index :=
  mkWorld (Operation_do op (document w)) (applied w ++ [op]) (emitted w).

Definition emit_dataChanged (idx : Index) (w : World Index) : World Index :=
  mkWorld (document w) (applied w) (emitted w ++ [(idx, idx)]).

(** [DatasetRelationModel.setData]: the result and the world after it. *)
Definition setData (w : World Index) (idx : Index) (newname : string)
  : result (bool * World Index) :=
  let dsnode := objFromIndex idx in
  if negb (validateDatasetName newname) || contains (Document.data (document w)) newname
  then Ok (false, w)
  else
    oldname <- datasetName dsnode ;;
    let w := applyOperation (OperationDatasetRename oldname newname) w in
    let w := emit_dataChanged idx w in
    Ok (true, w).

End SetData.

(** ** Synchronising the displayed tree *)

Module ViewNode.

(** Modelled from the spec: a node of the displayed tree, a tree node
    together with its display-state handle, under which the view keeps the
    expansion and selection state. *)
#[warnings="-register-all"]
Inductive t := mk {
  handle : nat;
  cls : NodeClass;
  data : list string;
  childnodes : list t
}.

End ViewNode.

(** The tree a displayed tree shows. *)
Fixpoint erase (v : ViewNode.t) : TMNode.t :=
  match v with
  | ViewNode.mk _ c d ch => TMNode.mk c d (map erase ch)
  end.

Definition tuple_eqb (a b : list string) : bool :=
  match tuple_compare a b with Eq => true | _ => false end.

Definition is_dataset_node (c : NodeClass) : bool :=
  match c with
  | DatasetNodeClass _ => true
  | _ => false
  end.

(** Modelled from the spec: the identity that pairs a node of the old tree
    with one of the new tree, the dataset name for a DatasetNode and the
    label tuple for a group node. *)
Definition identity (c : NodeClass) (d : list string) : bool * list string :=
  if is_dataset_node c then (true, firstn 1 d) else (false, d).

(** Modelled from the spec: two nodes are paired when they are of the
    same kind and have the same identity. *)
Definition same_identity (a b : ViewNode.t) : bool :=
  let ia := identity (ViewNode.cls a) (ViewNode.data a) in
  let ib := identity (ViewNode.cls b) (ViewNode.data b) in
  Bool.eqb (fst ia) (fst ib) && tuple_eqb (snd ia) (snd ib).

(** Modelled from the spec: [TreeModel.syncTree] of [utils/treemodel.py].
    The children of the old and the new root are paired by identity; a
    matched pair is synchronised recursively and keeps the old node's
    handle with the new node's data; a new child without a match is
    inserted as it is; an old child without a match is dropped; the order
    is that of the new tree. *)
Fixpoint syncTree (oldroot newroot : ViewNode.t) {struct newroot} : ViewNode.t :=
  match newroot with
  | ViewNode.mk _ c d newchildren =>
      ViewNode.mk (ViewNode.handle oldroot) c d
        (map (fun newchild =>
                match List.find (same_identity newchild) (ViewNode.childnodes oldroot) with
                | Some oldchild => syncTree oldchild newchild
                | None => newchild
                end)
             newchildren)
  end.


(** ** The tree view and the browser widget *)

(** [DatasetBrowser.grpnames]: the groupings offered by the Group menu. *)
Definition grpnames : list string := ["none"; "filename"; "type"; "size"; "tags"].

(** [DatasetsNavigatorTree.changeGrouping]: the model after the assignment
    and the tree that its [refresh] builds. *)
Definition changeGrouping (tr : string -> string) (self : DatasetRelationModel.t)
  (grouping : string) : DatasetRelationModel.t * result TMNode.t :=
  let self :=
    DatasetRelationModel.mk
      (DatasetRelationModel.doc self) grouping (DatasetRelationModel.filter self)
      (DatasetRelationModel.readonly self) (DatasetRelationModel.filterdims self)
      (DatasetRelationModel.filterdtype self) in
  (self, refresh_tree tr self).

(** [DatasetsNavigatorTree.changeFilter] *)
Definition changeFilter (tr : string -> string) (self : DatasetRelationModel.t)
  (filtertext : string) : DatasetRelationModel.t * result TMNode.t :=
  let self :=
    DatasetRelationModel.mk
      (DatasetRelationModel.doc self) (DatasetRelationModel.grouping self) filtertext
      (DatasetRelationModel.readonly self) (DatasetRelationModel.filterdims self)
      (DatasetRelationModel.filterdtype self) in
  (self, refresh_tree tr self).

(** [DatasetNode.cloneTo]: a new node of the same class for the dataset of
    the same name, made from the document as it is now; [cols] is
    [self.cols]. *)
Definition cloneTo (doc : Document.t) (cols : list string) (self : TMNode.t)
  : result TMNode.t :=
  name <- datasetName self ;;
  DatasetNode doc name cols.

(** [FilenameNode.nodeData]: the base name of the file name in column 0,
    and "/" for the group of the datasets without a file. *)
Definition FilenameNode_nodeData (self : TMNode.t) (column : Z) : result (option string) :=
  if column =? 0 then
    d0 <- py_index (TMNode.data self) 0 ;;
    if String.eqb d0 "/" then Ok (Some "/") else Ok (Some (basename d0))
  else Ok None.

(** [FilenameNode.filename] *)
Definition filename (self : TMNode.t) : result string :=
  py_index (TMNode.data self) 0.

(** [FilenameNode.toolTip]: the full file name in column 0. *)
Definition FilenameNode_toolTip (self : TMNode.t) (column : Z) : result (option string) :=
  if column =? 0 then
    d0 <- py_index (TMNode.data self) 0 ;;
    Ok (Some d0)
  else Ok None.

(** [Qt.ItemIsEditable] *)
Definition ItemIsEditable : Z := 2.

(** [DatasetRelationModel.flags]: [base] is what [TreeModel.flags] gives
    for the index, [valid] is [idx.isValid()], [obj] the node of the index
    and [column] its column. *)
Definition flags (self : DatasetRelationModel.t) (base : Z) (valid : bool)
  (obj : TMNode.t) (column : Z) : Z :=
  let f := base in
  if valid && is_dataset_node (TMNode.cls obj)
     && negb (DatasetRelationModel.readonly self) && (column =? 0)
  then Z.lor f ItemIsEditable
  else f.

(** [DatasetsNavigatorTree.getSelectedDatasets] over the nodes of the
    selected rows.  A node that is not a DatasetNode has no [datasetName]:
    the [AttributeError] is caught and the node is passed over. *)
Fixpoint getSelectedDatasets (doc : Document.t) (selected : list TMNode.t)
  : result (list string) :=
  match selected with
  | [] => Ok []
  | node :: rest =>
      if is_dataset_node (TMNode.cls node) then
        name <- datasetName node ;;
        datasets <- getSelectedDatasets doc rest ;;
        Ok (if contains (Document.data doc) name then name :: datasets else datasets)
      else getSelectedDatasets doc rest
  end.

(** ** Context menus *)

(** The operations that the context menus apply to the document. *)
#[warnings="-register-all"]
Inductive MenuOperation :=
| OperationDatasetDelete (name : string)
| OperationDatasetUnlinkFile (name : string)
| OperationDatasetUnlinkRelation (name : string)
| OperationDatasetUnlinkByFile (filename : string)
| OperationDatasetDeleteByFile (filename : string)
| OperationDataTag (tag : string) (names : list string)
| OperationDataUntag (tag : string) (names : list string)
| OperationSettingSet (path : string) (value : string)
| OperationMultiple (ops : list MenuOperation) (descr : string).

(** What a menu entry does when it is triggered. *)
Inductive Action :=
| ApplyOperation (op : MenuOperation)
| Recreate (names : list string)
| EditData (names : list string)
| CopyDatasets (names : list string)
| AddTag (names : list string)
| Reload (filenames : list string)
| Paste.

(** A menu: its actions, each with its label and, when checkable, its
    state, and its submenus. *)
#[warnings="-register-all"]
Inductive MenuEntry :=
| MenuAction (label : string) (checked : option bool) (action : Action)
| SubMenu (label : string) (entries : list MenuEntry).

(** A setting met by [doc.walkNodes]: a dataset setting with its
    dimensions and datatype, or any other setting. *)
Inductive Setting :=
| DatasetSetting (dimensions : Z) (datatype : string)
| OtherSetting.

(** The classes of the nodes of the tree, as [type(n)] gives them. *)
Inductive NodeType := TMNodeType | FilenameNodeType | DatasetNodeType.

Definition NodeType_eqb (a b : NodeType) : bool :=
  match a, b with
  | TMNodeType, TMNodeType => true
  | FilenameNodeType, FilenameNodeType => true
  | DatasetNodeType, DatasetNodeType => true
  | _, _ => false
  end.

(** [x in types] *)
Definition in_type (x : NodeType) (types : list NodeType) : bool :=
  existsb (NodeType_eqb x) types.

(** The result of code that can also fail with an [AttributeError]. *)
Inductive outcome (A : Type) :=
| Returns (a : A)
| Raises (e : exn)
| RaisesAttributeError.

Arguments Returns {A} a.
Arguments Raises {A} e.
Arguments RaisesAttributeError {A}.

(** [[f(x) for x in l]] *)
Fixpoint mapM {A B} (f : A -> result B) (l : list A) : result (list B) :=
  match l with
  | [] => Ok []
  | x :: l' => y <- f x ;; ys <- mapM f l' ;; Ok (y :: ys)
  end.

(** The datasets of a list that holds no [None]. *)
Fixpoint all_present (datasets : list (option Dataset.t)) : option (list Dataset.t) :=
  match datasets with
  | [] => Some []
  | None :: _ => None
  | Some d :: rest =>
      match all_present rest with
      | Some ds => Some (d :: ds)
      | None => None
      end
  end.

Definition is_linked (d : Dataset.t) : bool :=
  match Dataset.linked d with
  | Some _ => true
  | None => false
  end.

(** [tag.replace(' ', '')] *)
Fixpoint remove_spaces (s : string) : string :=
  match s with
  | EmptyString => EmptyString
  | String c s' => if Ascii.eqb c " " then remove_spaces s' else String c (remove_spaces s')
  end.

(** [[x for x, keep in zip(l, flags) if keep]] *)
Fixpoint compress {A} (l : list A) (keep : list bool) : list A :=
  match l, keep with
  | x :: l', true :: keep' => x :: compress l' keep'
  | _ :: l', false :: keep' => compress l' keep'
  | _, _ => []
  end.

Section ContextMenu.

Variable tr : string -> string.

(** [type(dataset) in dataeditdialog.recreate_register] *)
Variable recreatable : Dataset.t -> bool.

(** [dataset.canUnlink()] *)
Variable canUnlink : Dataset.t -> bool.

(** [doc.datasetTags()] *)
Variable datasetTags : Document.t -> list string.

(** [doc.datasetName(dataset)] *)
Variable doc_datasetName : Document.t -> Dataset.t -> string.

(** The paths and settings that [doc.walkNodes] visits, in order. *)
Variable walkNodes : Document.t -> list (string * Setting).

(** [str.strip] *)
Variable strip : string -> string.

(** [getMenuUseAs]: one action for each dataset setting of the dimensions
    and datatype of the dataset, outside the style sheet. *)
Definition getMenuUseAs (doc : Document.t) (dataset : Dataset.t) : list MenuEntry :=
  flat_map
    (fun ps : string * Setting =>
       let (path, setn) := ps in
       match setn with
       | DatasetSetting dimensions datatype =>
           if (dimensions =? Dataset.dimensions dataset)
              && String.eqb datatype (Dataset.datatype dataset)
              && negb (String.eqb (substring 0 12 path) "/StyleSheet/")
           then [MenuAction path None
                   (ApplyOperation (OperationSettingSet path (doc_datasetName doc dataset)))]
           else []
       | OtherSetting => []
       end)
    (walkNodes doc).

(** The function [addtag] of [datasetContextMenu], for the text and the
    answer of the input dialog: the operation it applies, if any. *)
Definition addtag (dsnames : list string) (text : string) (ok : bool)
  : option MenuOperation :=
  if ok then
    let tag := remove_spaces (strip text) in
    if negb (String.eqb tag EmptyString) then Some (OperationDataTag tag dsnames) else None
  else None.

(** The entries of the tagging submenu: one checkable action for each tag
    of the document, then "Add...". *)
Definition tag_entries (doc : Document.t) (datasets : list Dataset.t)
  (dsnames : list string) : list MenuEntry :=
  map (fun tag =>
         let state := map (fun d => in_str tag (Dataset.tags d)) datasets in
         let op := if forallb (fun b => b) state
                   then OperationDataUntag tag dsnames
                   else OperationDataTag tag dsnames in
         MenuAction tag (Some (forallb (fun b => b) state)) (ApplyOperation op))
      (datasetTags doc)
  ++ [MenuAction (tr "Add...") None (AddTag dsnames)].

(** [datasetContextMenu]: the entries added to the menu for the selected
    dataset nodes.  A method call on the [None] that [dataset] returns for
    a vanished dataset is an [AttributeError]. *)
Definition datasetContextMenu (doc : Document.t) (dsnodes : list TMNode.t)
  : outcome (list MenuEntry) :=
  match mapM (dataset doc) dsnodes with
  | Raise e => Raises e
  | Ok datasets =>
      match mapM datasetName dsnodes with
      | Raise e => Raises e
      | Ok dsnames =>
          let recreate :=
            map (fun d => match d with Some d => recreatable d | None => false end)
                datasets in
          let edit :=
            if existsb (fun b => b) recreate
            then [MenuAction (tr "Edit") None (Recreate (compress dsnames recreate))]
            else [] in
          let edit_data :=
            if negb (forallb (fun b => b) recreate)
            then [MenuAction (tr "Edit data") None
                    (EditData (compress dsnames (map negb recreate)))]
            else [] in
          let delete :=
            [MenuAction (tr "Delete") None
               (ApplyOperation
                  (OperationMultiple (map OperationDatasetDelete dsnames)
                                     (tr "delete dataset(s)")))] in
          match all_present datasets with
          | None => RaisesAttributeError
          | Some present =>
              let unlink_file := map (fun d => canUnlink d && is_linked d) present in
              let unlink_file_entry :=
                if existsb (fun b => b) unlink_file
                then [MenuAction (tr "Unlink file") None
                        (ApplyOperation
                           (OperationMultiple
                              (map OperationDatasetUnlinkFile (compress dsnames unlink_file))
                              (tr "unlink dataset(s)")))]
                else [] in
              let unlink_relation :=
                map (fun d => canUnlink d && negb (is_linked d)) present in
              let unlink_relation_entry :=
                if existsb (fun b => b) unlink_relation
                then [MenuAction (tr "Unlink relation") None
                        (ApplyOperation
                           (OperationMultiple
                              (map OperationDatasetUnlinkRelation
                                   (compress dsnames unlink_relation))
                              (tr "unlink dataset(s)")))]
                else [] in
              let tagmenu := [SubMenu (tr "Tags") (tag_entries doc present dsnames)] in
              let copy := [MenuAction (tr "Copy") None (CopyDatasets dsnames)] in
              let useas :=
                match present with
                | [d] => [SubMenu (tr "Use as") (getMenuUseAs doc d)]
                | _ => []
                end in
              Returns (edit ++ edit_data ++ delete ++ unlink_file_entry
                       ++ unlink_relation_entry ++ tagmenu ++ copy ++ useas)
          end
      end
  end.

(** [filenameContextMenu]: the entries added to the menu for the selected
    file nodes. *)
Definition filenameContextMenu (nodes : list TMNode.t) : result (list MenuEntry) :=
  all <- mapM filename nodes ;;
  let filenames := List.filter (fun f => negb (String.eqb f "/")) all in
  match filenames with
  | [] => Ok []
  | _ :: _ =>
      Ok [MenuAction (tr "Reload") None (Reload filenames);
          MenuAction (tr "Unlink all") None
            (ApplyOperation
               (OperationMultiple (map OperationDatasetUnlinkByFile filenames)
                                  (tr "unlink by file")));
          MenuAction (tr "Delete all") None
            (ApplyOperation
               (OperationMultiple (map OperationDatasetDeleteByFile filenames)
                                  (tr "delete by file")))]
  end.

(** [type(n)] for a node of the tree *)
Definition type (n : TMNode.t) : NodeType :=
  match TMNode.cls n with
  | TMNodeClass => TMNodeType
  | FilenameNodeClass => FilenameNodeType
  | DatasetNodeClass _ => DatasetNodeType
  end.

Definition is_filename_node (c : NodeClass) : bool :=
  match c with
  | FilenameNodeClass => true
  | _ => false
  end.

(** [utils.unique] *)
Variable unique : list NodeType -> list NodeType.

(** [showContextMenu] for the selected nodes of column 0: the menu that
    is shown, or [None] when it has no action and is not shown.
    [isClipboardDataMime] tells whether the clipboard holds datasets. *)
Definition showContextMenu (doc : Document.t) (isClipboardDataMime : bool)
  (nodes : list TMNode.t) : outcome (option (list MenuEntry)) :=
  let types := unique (map type nodes) in
  let context :=
    if in_type DatasetNodeType types then
      match datasetContextMenu doc
              (List.filter (fun n => is_dataset_node (TMNode.cls n)) nodes) with
      | Returns entries =>
          Returns (if 1 <? len types then [SubMenu (tr "Datasets") entries] else entries)
      | Raises e => Raises e
      | RaisesAttributeError => RaisesAttributeError
      end
    else if in_type FilenameNodeType types then
      match filenameContextMenu
              (List.filter (fun n => is_filename_node (TMNode.cls n)) nodes) with
      | Ok entries =>
          Returns (if 1 <? len types then [SubMenu (tr "Files") entries] else entries)
      | Raise e => Raises e
      end
    else Returns [] in
  match context with
  | Returns entries =>
      let menu :=
        entries ++ (if isClipboardDataMime then [MenuAction (tr "Paste") None Paste] else []) in
      Returns (match menu with [] => None | _ :: _ => Some menu end)
  | Raises e => Raises e
  | RaisesAttributeError => RaisesAttributeError
  end.

End ContextMenu.
(** * Specification predicates *)

(** [sub] occurs in [s], character for character. *)
Definition is_substring (sub s : string) : Prop :=
  exists pre post, s = (pre ++ sub ++ post)%string.

(** The dimension filter is unset or holds the dimensions of [ds]. *)
Definition passes_dims (self : DatasetRelationModel.t) (ds : Dataset.t) : Prop :=
  match DatasetRelationModel.filterdims self with
  | None => True
  | Some dims => In (Dataset.dimensions ds) dims
  end.

(** The datatype filter is unset or holds the datatype of [ds]. *)
Definition passes_dtype (self : DatasetRelationModel.t) (ds : Dataset.t) : Prop :=
  match DatasetRelationModel.filterdtype self with
  | None => True
  | Some dtypes => In (Dataset.datatype ds) dtypes
  end.

(** The free text is empty, or occurs in a tag or in a column of the node. *)
Definition text_matches (self : DatasetRelationModel.t) (ds : Dataset.t) (node : TMNode.t)
  : Prop :=
  DatasetRelationModel.filter self = EmptyString \/
  exists t, (In t (Dataset.tags ds) \/ In t (TMNode.data node)) /\
            is_substring (DatasetRelationModel.filter self) t.

(** Lexicographic comparison of two sequences, a proper prefix first. *)
Fixpoint lex {A} (cmp : A -> A -> comparison) (a b : list A) : comparison :=
  match a, b with
  | [], [] => Eq
  | [], _ :: _ => Lt
  | _ :: _, [] => Gt
  | x :: a', y :: b' =>
      match cmp x y with
      | Eq => lex cmp a' b'
      | c => c
      end
  end.

(** [a <= b] for tuples of str. *)
Definition tuple_le (a b : list string) : Prop := tuple_compare a b <> Gt.

(** The order in which [insertChildSorted] keeps the children. *)
Definition node_le (a b : TMNode.t) : Prop := tuple_le (TMNode.data a) (TMNode.data b).

(** [a] comes strictly before [b] by the first column, the dataset name. *)
Definition name_lt (a b : TMNode.t) : Prop :=
  exists na nb, datasetName a = Ok na /\ datasetName b = Ok nb /\
                String.compare na nb = Lt.

(** The keys of [doc.data] are pairwise distinct, as in any dict. *)
Definition unique_names (doc : Document.t) : Prop :=
  NoDup (map fst (Document.data doc)).

(** The tags of every dataset are pairwise distinct, as in any set. *)
Definition tags_are_sets (doc : Document.t) : Prop :=
  Forall (fun kv => NoDup (Dataset.tags (snd kv))) (Document.data doc).

(** The node [DatasetNode(doc, name, cols, None)] of an item of [doc.data]. *)
Definition dsnode (cols : list string) (kv : string * Dataset.t) : TMNode.t :=
  TMNode.mk (DatasetNodeClass cols) (column_values (fst kv) (snd kv) cols) [].

(** The item passes the filter, tested on its node with columns [cols]. *)
Definition kept (self : DatasetRelationModel.t) (cols : list string)
  (kv : string * Dataset.t) : bool :=
  negb (datasetFilterOut self (snd kv) (dsnode cols kv)).

(** The children after inserting the nodes of [l], in turn, into [acc]. *)
Definition insert_all (l acc : list TMNode.t) : list TMNode.t :=
  fold_left (fun acc c => insert_sorted c acc) l acc.

(** One step of grouping: [child] goes under the group [grp], whose node
    is made first when [grp] is new. *)
Definition grp_step (GrpNodeClass : NodeClass) (grpnodes : GrpNodes)
  (kc : string * TMNode.t) : GrpNodes :=
  grp_insert_child (fst kc) (snd kc)
    (if negb (grp_in (fst kc) grpnodes)
     then grpnodes ++ [(fst kc, TMNode.mk GrpNodeClass [fst kc] [])]
     else grpnodes).

(** The steps an item of [doc.data] causes: one per group key, when the
    item passes the filter. *)
Definition item_ops (self : DatasetRelationModel.t) (colitems : list string)
  (grouper : Dataset.t -> list string) (kv : string * Dataset.t)
  : list (string * TMNode.t) :=
  if kept self colitems kv
  then map (fun grp => (grp, dsnode colitems kv)) (grouper (snd kv))
  else [].

Definition grp_ops (self : DatasetRelationModel.t) (colitems : list string)
  (grouper : Dataset.t -> list string) (items : list (string * Dataset.t))
  : list (string * TMNode.t) :=
  flat_map (item_ops self colitems grouper) items.

(** The children that the steps [ops] put under the group [grp]. *)
Definition children_of (grp : string) (ops : list (string * TMNode.t)) : list TMNode.t :=
  map snd (List.filter (fun kc => String.eqb (fst kc) grp) ops).

(** The items that pass the filter and have [grp] among their group keys. *)
Definition members (self : DatasetRelationModel.t) (colitems : list string)
  (grouper : Dataset.t -> list string) (grp : string)
  (items : list (string * Dataset.t)) : list (string * Dataset.t) :=
  List.filter (fun kv => kept self colitems kv && in_str grp (grouper (snd kv))) items.

(** The node [c] of the dataset [name] is a child of [g], and no other
    child of [g] carries that name. *)
Definition appears_once_in (name : string) (c g : TMNode.t) : Prop :=
  exists l1 l2, TMNode.childnodes g = l1 ++ c :: l2 /\
                forall c', In c' (l1 ++ l2) -> datasetName c' <> Ok name.

(** The identity of a tree node among its siblings. *)
Definition node_identity (n : TMNode.t) : bool * list string :=
  identity (TMNode.cls n) (TMNode.data n).

(** No two children of a node share an identity, at every level. *)
Fixpoint ids_unique (t : TMNode.t) : Prop :=
  match t with
  | TMNode.mk _ _ children =>
      NoDup (map node_identity children) /\
      (fix all (l : list TMNode.t) : Prop :=
         match l with
         | [] => True
         | c :: l' => ids_unique c /\ all l'
         end) children
  end.

(** ** Floats *)

(** NaN or an infinity, on the specification side of a float. *)
Definition sf_nonfinite (s : spec_float) : bool :=
  match s with
  | S754_nan | S754_infinity _ => true
  | _ => false
  end.

(** A zero or NaN: what [maxval - minval] is when the two are equal. *)
Definition sf_zero_or_nan (s : spec_float) : bool :=
  match s with
  | S754_nan | S754_zero _ => true
  | _ => false
  end.

Definition sf_is_nan (s : spec_float) : bool :=
  match s with
  | S754_nan => true
  | _ => false
  end.

(** A key whose lexicographic order is the order of the floats that are
    not NaN (the two zeros share a key). *)
Definition sf_key (s : spec_float) : list Z :=
  match s with
  | S754_nan => []
  | S754_infinity true => [-2; 0; 0]
  | S754_infinity false => [2; 0; 0]
  | S754_zero _ => [0; 0; 0]
  | S754_finite true m e => [-1; - e; Zneg m]
  | S754_finite false m e => [1; e; Zpos m]
  end.

(** The choice made by [fmin] and [fmax], for an order [R]. *)
Definition pick (R : float -> float -> bool) (a b : float) : float :=
  if R a b || PrimFloat.is_nan b then a else b.

Definition geb (a b : float) : bool := PrimFloat.leb b a.

(** The values of a sample that are not NaN. *)
Definition not_nan_values (y : list float) : list float :=
  List.filter (fun v => negb (PrimFloat.is_nan v)) y.

(** The values of a sample that are finite. *)
Definition finite_values (y : list float) : list float :=
  List.filter PrimFloat.is_finite y.

(** The minimum and the maximum in the words of the spec: computed over
    the sample ignoring all non-finite values. *)
Definition spec_minmax (y : list float) : result float * result float :=
  (nanmin (finite_values y), nanmax (finite_values y)).

(** The minimum and the maximum that [getPreviewPixmap] normalises with. *)
Definition preview_minmax (data : list float) : result float * result float :=
  let y := downsample data 70 in (nanmin y, nanmax y).

(** The steps of [getPreviewPixmap] that follow the computation of
    [minval] and [maxval]: normalising, dropping what is not finite, and
    drawing. *)
Definition preview_draw (minval maxval : float) (y : list float) : result Pixmap :=
  let x := arange (List.length y) in
  let y := normalize minval maxval y in
  let finite := map PrimFloat.is_finite y in
  let x := select finite x in
  let y := select finite y in
  if len x =? 0 then Raise ZeroDivisionError
  else
    let scale := (1 / float_of_Z (len x))%float in
    let x := map (fun i => (float_of_Z i * scale * 140)%float) x in
    let poly := combine x (map (fun v => (70 - v)%float) y) in
    let x0 := hd 0%float x in
    let xlast := last x 0%float in
    let axis :=
      if PrimFloat.leb minval 0 && PrimFloat.ltb 0 maxval
      then
        let y0 := (70 - (0 - minval) / (maxval - minval) * 70)%float in
        DrawLine x0 y0 xlast y0
      else DrawLine x0 70 xlast 70 in
    Ok [DrawPolyline poly; axis; DrawLine x0 0 x0 70].

(** A dataset the preview applies to. *)
Definition previewable (ds : Dataset.t) : Prop :=
  Dataset.dimensions ds = 1 /\ Dataset.datatype ds = "numeric".

(** ** Further specification predicates *)

(** The dataset nodes of a tree, at any depth, from left to right. *)
Fixpoint dataset_nodes (t : TMNode.t) : list TMNode.t :=
  match t with
  | TMNode.mk c d children =>
      (if is_dataset_node c then [TMNode.mk c d children] else [])
      ++ flat_map dataset_nodes children
  end.

(** The columns of the dataset nodes in each grouping mode. *)
Definition cols_of (grouping : string) : list string :=
  if String.eqb grouping "filename" then ["name"; "size"; "type"]
  else if String.eqb grouping "size" then ["name"; "type"; "linkfile"]
  else if String.eqb grouping "type" then ["name"; "size"; "linkfile"]
  else ["name"; "size"; "type"; "linkfile"].

(** The dataset [name] has a node in the tree. *)
Definition shown (tree : TMNode.t) (name : string) : Prop :=
  exists c, In c (dataset_nodes tree) /\ datasetName c = Ok name.

(** The normalised sample values that are finite: the y values of the
    points that [getPreviewPixmap] plots. *)
Definition plotted (data : list float) : list float :=
  let y := downsample data 70 in
  match nanmin y, nanmax y with
  | Ok minval, Ok maxval => List.filter PrimFloat.is_finite (normalize minval maxval y)
  | _, _ => []
  end.

(** The four column names that [DatasetNode] knows. *)
Definition known_column (c : string) : bool :=
  String.eqb c "name" || String.eqb c "size" || String.eqb c "type"
  || String.eqb c "linkfile".

(** What a dataset shows in the column named [c]. *)
Definition column_value (kv : string * Dataset.t) (c : string) : string :=
  if String.eqb c "name" then fst kv
  else if String.eqb c "size" then Dataset.userSize (snd kv)
  else if String.eqb c "type" then Dataset.dstype (snd kv)
  else basename (datasetLinkFile (snd kv)).

(** The string has no "/". *)
Fixpoint slash_free (s : string) : bool :=
  match s with
  | EmptyString => true
  | String c r => negb (Ascii.eqb c "/") && slash_free r
  end.

(** ** What a menu can do *)

(** The actions of a menu entry, those of its submenus included. *)
Fixpoint entry_actions (e : MenuEntry) : list Action :=
  match e with
  | MenuAction _ _ a => [a]
  | SubMenu _ entries => flat_map entry_actions entries
  end.

Definition menu_actions (entries : list MenuEntry) : list Action :=
  flat_map entry_actions entries.

(** The checkable actions of a menu: label, state and action. *)
Fixpoint entry_checkable (e : MenuEntry) : list (string * bool * Action) :=
  match e with
  | MenuAction label (Some state) a => [(label, state, a)]
  | MenuAction _ None _ => []
  | SubMenu _ entries => flat_map entry_checkable entries
  end.

Definition menu_checkable (entries : list MenuEntry) : list (string * bool * Action) :=
  flat_map entry_checkable entries.

(** The single operations that an operation is made of. *)
Fixpoint leaf_operations (op : MenuOperation) : list MenuOperation :=
  match op with
  | OperationMultiple ops _ => flat_map leaf_operations ops
  | _ => [op]
  end.

Definition action_operations (a : Action) : list MenuOperation :=
  match a with
  | ApplyOperation op => leaf_operations op
  | _ => []
  end.

(** Every single operation that some action of the menu applies. *)
Definition menu_operations (entries : list MenuEntry) : list MenuOperation :=
  flat_map action_operations (menu_actions entries).

(** The operation or action is one on files. *)
Definition file_operation (op : MenuOperation) : bool :=
  match op with
  | OperationDatasetUnlinkByFile _ | OperationDatasetDeleteByFile _ => true
  | _ => false
  end.

Definition file_action (a : Action) : bool :=
  match a with
  | Reload _ => true
  | ApplyOperation op => existsb file_operation (leaf_operations op)
  | _ => false
  end.

(** The action is one on the selected datasets. *)
Definition dataset_action (a : Action) : bool :=
  match a with
  | Reload _ | Paste => false
  | ApplyOperation op => negb (existsb file_operation (leaf_operations op))
  | _ => true
  end.

(** The files that an action names. *)
Definition action_files (a : Action) : list string :=
  match a with
  | Reload filenames => filenames
  | ApplyOperation op =>
      flat_map (fun o => match o with
                         | OperationDatasetUnlinkByFile f
                         | OperationDatasetDeleteByFile f => [f]
                         | _ => []
                         end) (leaf_operations op)
  | _ => []
  end.

(** [utils.unique] keeps the members of a list, each once. *)
Definition keeps_members (unique : list NodeType -> list NodeType) : Prop :=
  forall l, NoDup (unique l) /\ forall x, In x (unique l) <-> In x l.

(** The characters of a string. *)
Fixpoint chars (s : string) : list ascii :=
  match s with
  | EmptyString => []
  | String c r => c :: chars r
  end.

(** The dataset can be used for the setting at the path: a dataset setting
    of its dimensions and datatype that is not below "/StyleSheet/". *)
Definition usable_for (dataset : Dataset.t) (ps : string * Setting) : bool :=
  match snd ps with
  | DatasetSetting dimensions datatype =>
      (dimensions =? Dataset.dimensions dataset)
      && String.eqb datatype (Dataset.datatype dataset)
      && negb (prefix "/StyleSheet/" (fst ps))
  | OtherSetting => false
  end.

(** The operation of the checkable action of a tag. *)
Definition toggle_operation (tag : string) (datasets : list Dataset.t)
  (dsnames : list string) : MenuOperation :=
  if forallb (fun d => in_str tag (Dataset.tags d)) datasets
  then OperationDataUntag tag dsnames
  else OperationDataTag tag dsnames.

(** A [utils.unique]: the first of equal members is kept. *)
Fixpoint first_occurrences (l : list NodeType) : list NodeType :=
  match l with
  | [] => []
  | x :: l' => x :: List.filter (fun y => negb (NodeType_eqb x y)) (first_occurrences l')
  end.
(** * Properties *)

(** ** Strings *)


Lemma prefix_append (sub s : string) :
  prefix sub s = true <-> exists post, s = (sub ++ post)%string.
Proof.
  revert s; induction sub as [|a sub IH]; intros s; simpl.
  - split; [intros _; exists s; reflexivity | intros _; destruct s; reflexivity].
  - destruct s as [|b s]; simpl.
    + split; [discriminate | intros [post H]; discriminate].
    + destruct (ascii_dec a b) as [->|Hab].
      * rewrite IH. split; intros [post H]; exists post.
        -- now rewrite H.
        -- now inversion H.
      * split; [discriminate | intros [post H]; inversion H; subst; contradiction].
Qed.

Lemma is_substring_cons (sub : string) (c : ascii) (s : string) :
  is_substring sub (String c s) <->
  prefix sub (String c s) = true \/ is_substring sub s.
Proof.
  split.
  - intros [pre [post H]]. destruct pre as [|c' pre]; simpl in H.
    + left. apply prefix_append. now exists post.
    + right. inversion H. now exists pre, post.
  - intros [H|[pre [post H]]].
    + apply prefix_append in H as [post H]. now exists EmptyString, post.
    + exists (String c pre), post. simpl. now rewrite H.
Qed.

Lemma find_from_spec (s sub : string) (i : Z) :
  0 <= i -> (0 <= find_from s sub i <-> is_substring sub s).
Proof.
  revert i; induction s as [|c s IH]; intros i Hi.
  - simpl. destruct sub as [|a sub]; simpl.
    + split; [intros _; now exists EmptyString, EmptyString | lia].
    + split; [lia|]. intros [pre [post H]].
      destruct pre; simpl in H; discriminate.
  - rewrite is_substring_cons.
    change (find_from (String c s) sub i)
      with (if prefix sub (String c s) then i else find_from s sub (i + 1)).
    destruct (prefix sub (String c s)).
    + split; [now left | lia].
    + rewrite (IH (i + 1)) by lia. split; [now right | now intros [?|?]].
Qed.

Lemma find_spec (s sub : string) : (find s sub >=? 0) = true <-> is_substring sub s.
Proof.
  unfold find. rewrite <- (find_from_spec s sub 0) by lia.
  rewrite Z.geb_le. reflexivity.
Qed.

Lemma is_substring_refl (s : string) : is_substring s s.
Proof.
  exists EmptyString, EmptyString. simpl.
  induction s as [|c s IH]; simpl; [reflexivity | now rewrite <- IH].
Qed.

Lemma in_Z_In (x : Z) (l : list Z) : in_Z x l = true <-> In x l.
Proof.
  unfold in_Z. rewrite existsb_exists. split.
  - intros [y [H1 H2]]. apply Z.eqb_eq in H2. now subst.
  - intros H. exists x. split; [assumption | apply Z.eqb_refl].
Qed.

Lemma in_str_In (x : string) (l : list string) : in_str x l = true <-> In x l.
Proof.
  unfold in_str. rewrite existsb_exists. split.
  - intros [y [H1 H2]]. apply String.eqb_eq in H2. now subst.
  - intros H. exists x. split; [assumption | apply String.eqb_refl].
Qed.

Lemma exists_find (flt : string) (l : list string) :
  existsb (fun t => find t flt >=? 0) l = true <->
  exists t, In t l /\ is_substring flt t.
Proof.
  rewrite existsb_exists. split; intros [t [H1 H2]]; exists t; split; auto;
    now apply find_spec.
Qed.

(** ** Orders *)

Section Lex.

Variable A : Type.
Variable cmp : A -> A -> comparison.

Hypothesis cmp_eq : forall a b, cmp a b = Eq <-> a = b.
Hypothesis cmp_antisym : forall a b, cmp a b = CompOpp (cmp b a).
Hypothesis cmp_trans : forall a b c, cmp a b = Lt -> cmp b c = Lt -> cmp a c = Lt.

Lemma lex_eq (a b : list A) : lex cmp a b = Eq <-> a = b.
Proof.
  revert b; induction a as [|x a IH]; intros [|y b]; simpl;
    try (split; [reflexivity || discriminate | reflexivity || discriminate]).
  destruct (cmp x y) eqn:E.
  - apply cmp_eq in E. subst. rewrite IH. split; [now intros -> | now inversion 1].
  - split; [discriminate|]. inversion 1; subst.
    assert (X : cmp y y = Eq) by now apply cmp_eq. congruence.
  - split; [discriminate|]. inversion 1; subst.
    assert (X : cmp y y = Eq) by now apply cmp_eq. congruence.
Qed.

Lemma lex_antisym (a b : list A) : lex cmp a b = CompOpp (lex cmp b a).
Proof.
  revert b; induction a as [|x a IH]; intros [|y b]; simpl; try reflexivity.
  rewrite (cmp_antisym x y). destruct (cmp y x); simpl; auto.
Qed.

Lemma lex_trans (a b c : list A) :
  lex cmp a b = Lt -> lex cmp b c = Lt -> lex cmp a c = Lt.
Proof.
  revert b c; induction a as [|x a IH]; intros [|y b] [|z c]; simpl;
    try discriminate; try reflexivity.
  destruct (cmp x y) eqn:E1; destruct (cmp y z) eqn:E2; try discriminate.
  - apply cmp_eq in E1, E2. subst.
    assert (X : cmp z z = Eq) by now apply cmp_eq. rewrite X. apply IH.
  - apply cmp_eq in E1. subst. now rewrite E2.
  - apply cmp_eq in E2. subst. now rewrite E1.
  - now rewrite (cmp_trans _ _ _ E1 E2).
Qed.

Lemma lex_le_trans (a b c : list A) :
  lex cmp a b <> Gt -> lex cmp b c <> Gt -> lex cmp a c <> Gt.
Proof.
  intros H1 H2.
  destruct (lex cmp a b) eqn:E1; [| |congruence].
  - apply lex_eq in E1. now subst.
  - destruct (lex cmp b c) eqn:E2; [| |congruence].
    + apply lex_eq in E2. subst. congruence.
    + rewrite (lex_trans _ _ _ E1 E2). discriminate.
Qed.

End Lex.

Lemma ascii_compare_eq (a b : ascii) : Ascii.compare a b = Eq <-> a = b.
Proof.
  split; [apply Ascii.compare_eq_iff|]. intros ->. apply N.compare_refl.
Qed.

Lemma ascii_compare_trans (a b c : ascii) :
  Ascii.compare a b = Lt -> Ascii.compare b c = Lt -> Ascii.compare a c = Lt.
Proof.
  unfold Ascii.compare. rewrite !N.compare_lt_iff. apply N.lt_trans.
Qed.

Lemma string_compare_lex (s t : string) :
  String.compare s t = lex Ascii.compare (list_ascii_of_string s) (list_ascii_of_string t).
Proof.
  revert t; induction s as [|c s IH]; intros [|d t]; simpl; try reflexivity.
  now rewrite IH.
Qed.

Lemma string_compare_eq (s t : string) : String.compare s t = Eq <-> s = t.
Proof.
  split; [apply String.compare_eq_iff|]. intros ->.
  rewrite string_compare_lex. apply lex_eq; [apply ascii_compare_eq | reflexivity].
Qed.

Lemma string_compare_trans (a b c : string) :
  String.compare a b = Lt -> String.compare b c = Lt -> String.compare a c = Lt.
Proof.
  rewrite !string_compare_lex.
  apply lex_trans; [apply ascii_compare_eq | apply ascii_compare_trans].
Qed.

Lemma string_le_trans (a b c : string) :
  String.compare a b <> Gt -> String.compare b c <> Gt -> String.compare a c <> Gt.
Proof.
  rewrite !string_compare_lex.
  apply lex_le_trans; [apply ascii_compare_eq | apply ascii_compare_trans].
Qed.

Lemma tuple_compare_lex (a b : list string) : tuple_compare a b = lex String.compare a b.
Proof.
  revert b; induction a as [|x a IH]; intros [|y b]; simpl; try reflexivity.
  now rewrite IH.
Qed.

Lemma tuple_compare_eq (a b : list string) : tuple_compare a b = Eq <-> a = b.
Proof.
  rewrite tuple_compare_lex. apply lex_eq. apply string_compare_eq.
Qed.

Lemma tuple_compare_antisym (a b : list string) :
  tuple_compare a b = CompOpp (tuple_compare b a).
Proof.
  rewrite !tuple_compare_lex. apply lex_antisym. apply String.compare_antisym.
Qed.

Lemma tuple_le_trans (a b c : list string) :
  tuple_le a b -> tuple_le b c -> tuple_le a c.
Proof.
  unfold tuple_le. rewrite !tuple_compare_lex.
  apply lex_le_trans; [apply string_compare_eq | apply string_compare_trans].
Qed.

Lemma tuple_lt_le (a b : list string) : tuple_lt a b = true -> tuple_le a b.
Proof.
  unfold tuple_lt, tuple_le. destruct (tuple_compare a b); congruence.
Qed.

Lemma tuple_not_lt_le (a b : list string) : tuple_lt a b = false -> tuple_le b a.
Proof.
  unfold tuple_lt, tuple_le. rewrite (tuple_compare_antisym b a).
  destruct (tuple_compare a b); simpl; congruence.
Qed.

Lemma tuple_eqb_eq (a b : list string) : tuple_eqb a b = true <-> a = b.
Proof.
  unfold tuple_eqb. rewrite <- tuple_compare_eq.
  destruct (tuple_compare a b); split; congruence.
Qed.

(** Closes the side conditions on a concrete document: distinct names and
    duplicate-free tags. *)
Ltac distinct :=
  unfold unique_names, tags_are_sets; simpl;
  repeat constructor; simpl; intuition discriminate.

(** ** The filter *)


Lemma datasetFilterOut_false_iff self ds node :
  datasetFilterOut self ds node = false <->
  passes_dims self ds /\ passes_dtype self ds /\ text_matches self ds node.
Proof.
  unfold datasetFilterOut, passes_dims, passes_dtype, text_matches.
  destruct self as [d g flt ro fdims fdtype]; simpl.
  assert (Hd : forall dims, negb (in_Z (Dataset.dimensions ds) dims) = false <->
                            In (Dataset.dimensions ds) dims).
  { intros dims. rewrite negb_false_iff. apply in_Z_In. }
  assert (Ht : forall dts, negb (in_str (Dataset.datatype ds) dts) = false <->
                           In (Dataset.datatype ds) dts).
  { intros dts. rewrite negb_false_iff. apply in_str_In. }
  assert (Hk : negb (if negb (String.eqb flt "")
                     then if existsb (fun t => find t flt >=? 0) (TMNode.data node)
                          then true
                          else if existsb (fun t => find t flt >=? 0) (Dataset.tags ds)
                               then true else false
                     else true) = false <->
               (flt = EmptyString \/
                exists t, (In t (Dataset.tags ds) \/ In t (TMNode.data node)) /\
                          is_substring flt t)).
  { destruct (String.eqb_spec flt "") as [->|Hne]; simpl.
    - split; auto.
    - destruct (existsb _ (TMNode.data node)) eqn:E1; simpl.
      + apply exists_find in E1 as [t [H1 H2]].
        split; auto. intros _. right. exists t. auto.
      + destruct (existsb _ (Dataset.tags ds)) eqn:E2; simpl.
        * apply exists_find in E2 as [t [H1 H2]].
          split; auto. intros _. right. exists t. auto.
        * split; [discriminate|]. intros [?|[t [[H1|H1] H2]]]; [contradiction| |].
          -- assert (X : existsb (fun t => find t flt >=? 0) (Dataset.tags ds) = true)
               by (apply exists_find; eauto). congruence.
          -- assert (X : existsb (fun t => find t flt >=? 0) (TMNode.data node) = true)
               by (apply exists_find; eauto). congruence. }
  destruct fdims as [dims|]; destruct fdtype as [dts|]; simpl;
    repeat match goal with
    | |- context [negb (in_Z ?x ?l)] =>
        let E := fresh in destruct (negb (in_Z x l)) eqn:E;
        [ assert (~ In x l) by (rewrite <- Hd; congruence)
        | apply Hd in E ]
    | |- context [negb (in_str ?x ?l)] =>
        let E := fresh in destruct (negb (in_str x l)) eqn:E;
        [ assert (~ In x l) by (rewrite <- Ht; congruence)
        | apply Ht in E ]
    end; try (split; [discriminate | tauto]);
    rewrite Hk; tauto.
Qed.

(** C1.  [datasetFilterOut] keeps a dataset (returns [false]) exactly when
    its dimensions are in the dimension filter (when set), its datatype is
    in the datatype filter (when set), and the free text is empty or is a
    case-sensitive substring of one of its tags or of one of the display
    columns of its node.  In particular, with an empty text every dataset
    passing the dimension and datatype constraints is kept, and with a text
    equal to a tag every dataset carrying that tag (and passing those
    constraints) is kept, whatever its name. *)
Theorem datasetFilterOut_keeps_iff
  (self : DatasetRelationModel.t) (ds : Dataset.t) (node : TMNode.t) :
  (datasetFilterOut self ds node = false <->
   passes_dims self ds /\ passes_dtype self ds /\ text_matches self ds node) /\
  (DatasetRelationModel.filter self = EmptyString ->
   passes_dims self ds -> passes_dtype self ds ->
   datasetFilterOut self ds node = false) /\
  (forall tag, In tag (Dataset.tags ds) ->
   DatasetRelationModel.filter self = tag ->
   passes_dims self ds -> passes_dtype self ds ->
   datasetFilterOut self ds node = false).
Proof.
  split; [apply datasetFilterOut_false_iff|split].
  - intros Hf Hd Ht. apply datasetFilterOut_false_iff.
    repeat split; auto. now left.
  - intros tag Hin Hf Hd Ht. apply datasetFilterOut_false_iff.
    repeat split; auto. right. exists tag. split; [now left|].
    rewrite Hf. apply is_substring_refl.
Qed.

Lemma datasetFilterOut_keeps_iff_witness :
  datasetFilterOut
    (DatasetRelationModel.mk (Document.mk []) "none" "red" false (Some [1; 2]) None)
    (Dataset.mk 1 "numeric" "1D" "3" ["blue"; "red"] None [] None "" "")
    (TMNode.mk (DatasetNodeClass ["name"]) ["x"] []) = false.
Proof.
  apply (proj2 (proj2 (datasetFilterOut_keeps_iff
    (DatasetRelationModel.mk (Document.mk []) "none" "red" false (Some [1; 2]) None)
    (Dataset.mk 1 "numeric" "1D" "3" ["blue"; "red"] None [] None "" "")
    (TMNode.mk (DatasetNodeClass ["name"]) ["x"] []))) "red").
  - simpl. right. left. reflexivity.
  - reflexivity.
  - simpl. left. reflexivity.
  - exact I.
Defined.

(** ** Sorted insertion *)

Lemma insert_sorted_perm (x : TMNode.t) (l : list TMNode.t) :
  Permutation (insert_sorted x l) (x :: l).
Proof.
  induction l as [|c l IH]; simpl; [reflexivity|].
  destruct (tuple_lt (TMNode.data x) (TMNode.data c)); [reflexivity|].
  rewrite IH. apply perm_swap.
Qed.

Lemma insert_sorted_sorted (x : TMNode.t) (l : list TMNode.t) :
  StronglySorted node_le l -> StronglySorted node_le (insert_sorted x l).
Proof.
  induction 1 as [|c l Hs IH Hc]; simpl.
  - repeat constructor.
  - destruct (tuple_lt (TMNode.data x) (TMNode.data c)) eqn:E.
    + constructor; [now constructor|].
      apply tuple_lt_le in E. constructor; [exact E|].
      eapply Forall_impl; [|exact Hc]. intros b Hb.
      unfold node_le in *. eapply tuple_le_trans; eauto.
    + constructor; [exact IH|].
      apply tuple_not_lt_le in E.
      eapply Permutation_Forall; [symmetry; apply insert_sorted_perm|].
      constructor; assumption.
Qed.

Lemma insert_all_perm (l acc : list TMNode.t) :
  Permutation (insert_all l acc) (acc ++ l).
Proof.
  unfold insert_all. revert acc; induction l as [|x l IH]; intros acc; simpl.
  - now rewrite app_nil_r.
  - rewrite IH, insert_sorted_perm. apply Permutation_middle.
Qed.

Lemma insert_all_sorted (l acc : list TMNode.t) :
  StronglySorted node_le acc -> StronglySorted node_le (insert_all l acc).
Proof.
  unfold insert_all. revert acc; induction l as [|x l IH]; intros acc H; simpl; auto.
  apply IH. now apply insert_sorted_sorted.
Qed.

Lemma fold_insertChildSorted (l : list TMNode.t) (t : TMNode.t) :
  fold_left insertChildSorted l t =
  TMNode.mk (TMNode.cls t) (TMNode.data t) (insert_all l (TMNode.childnodes t)).
Proof.
  unfold insert_all. revert t; induction l as [|x l IH]; intros t; simpl.
  - now destruct t.
  - rewrite IH. reflexivity.
Qed.

(** Two sorted lists of the same nodes, no two of them with the same
    columns, are equal: the order of the insertions does not matter. *)
Lemma sorted_nodes_unique (a b : list TMNode.t) :
  StronglySorted node_le a -> StronglySorted node_le b ->
  Permutation a b -> NoDup (map TMNode.data a) -> a = b.
Proof.
  revert b. induction a as [|x a IH]; intros b Ha Hb Hp Hnd.
  - apply Permutation_nil in Hp. now subst.
  - destruct b as [|y b]; [apply Permutation_sym, Permutation_nil in Hp; discriminate|].
    inversion Ha as [|? ? Ha' Hx]; subst. inversion Hb as [|? ? Hb' Hy]; subst.
    inversion Hnd as [|? ? Hxd Hnd']; subst.
    rewrite Forall_forall in Hx, Hy.
    assert (E : x = y).
    { assert (Hxin : In x (y :: b)) by (apply (Permutation_in _ Hp); now left).
      assert (Hyin : In y (x :: a))
        by (apply (Permutation_in _ (Permutation_sym Hp)); now left).
      destruct Hxin as [->|Hxin]; [reflexivity|].
      destruct Hyin as [->|Hyin]; [reflexivity|].
      exfalso. apply Hxd.
      assert (Hd : TMNode.data x = TMNode.data y).
      { apply tuple_compare_eq. pose proof (Hx y Hyin) as H1.
        pose proof (Hy x Hxin) as H2. unfold node_le, tuple_le in H1, H2.
        rewrite (tuple_compare_antisym (TMNode.data y)) in H2.
        destruct (tuple_compare (TMNode.data x) (TMNode.data y)); simpl in *; congruence. }
      rewrite Hd. now apply in_map. }
    subst y. f_equal. apply IH; auto. now apply Permutation_cons_inv in Hp.
Qed.

Lemma treeFromList_order (l l' : list TMNode.t) (rootdata : list string) :
  Permutation l l' -> NoDup (map TMNode.data l) ->
  treeFromList l rootdata = treeFromList l' rootdata.
Proof.
  intros Hp Hnd. unfold treeFromList. rewrite !fold_insertChildSorted. f_equal.
  cbn [TMNode.childnodes].
  pose proof (insert_all_perm l []) as H1. pose proof (insert_all_perm l' []) as H2.
  simpl in H1, H2.
  apply sorted_nodes_unique.
  - apply insert_all_sorted. constructor.
  - apply insert_all_sorted. constructor.
  - now rewrite H1, H2.
  - eapply Permutation_NoDup; [apply Permutation_map; symmetry; exact H1 | exact Hnd].
Qed.

(** ** Items of the document and their nodes *)

Lemma getitem_in (d : list (string * Dataset.t)) (name : string) (ds : Dataset.t) :
  NoDup (map fst d) -> In (name, ds) d -> getitem d name = Ok ds.
Proof.
  induction d as [|[k v] d IH]; simpl; [contradiction|].
  intros Hnd [H|H]; inversion Hnd as [|? ? Hk Hd]; subst.
  - inversion H; subst. now rewrite String.eqb_refl.
  - destruct (String.eqb_spec k name) as [->|Hne]; [|now apply IH].
    exfalso. apply Hk. change name with (fst (name, ds)). now apply in_map.
Qed.

Lemma getitem_not_in (d : list (string * Dataset.t)) (name : string) :
  contains d name = false -> getitem d name = Raise KeyError.
Proof.
  unfold contains. induction d as [|[k v] d IH]; simpl; [reflexivity|].
  destruct (String.eqb k name); simpl; [discriminate | exact IH].
Qed.

Lemma DatasetNode_item (doc : Document.t) (kv : string * Dataset.t) (cols : list string) :
  unique_names doc -> In kv (Document.data doc) ->
  DatasetNode doc (fst kv) ("name" :: cols) = Ok (dsnode ("name" :: cols) kv).
Proof.
  intros Hu Hin. unfold DatasetNode. destruct kv as [name ds]. cbn [fst].
  rewrite (getitem_in _ name ds Hu Hin). reflexivity.
Qed.

Lemma dsnode_name (cols : list string) (kv : string * Dataset.t) :
  datasetName (dsnode ("name" :: cols) kv) = Ok (fst kv).
Proof. reflexivity. Qed.

Lemma dsnode_inj (cols : list string) (d : list (string * Dataset.t))
  (kv kv' : string * Dataset.t) :
  NoDup (map fst d) -> In kv d -> In kv' d ->
  datasetName (dsnode ("name" :: cols) kv) = datasetName (dsnode ("name" :: cols) kv') ->
  kv = kv'.
Proof.
  intros Hnd H1 H2 H. rewrite !dsnode_name in H. inversion H as [Hfst].
  destruct kv as [n ds], kv' as [n' ds']; simpl in *; subst.
  pose proof (getitem_in _ _ _ Hnd H1). pose proof (getitem_in _ _ _ Hnd H2).
  congruence.
Qed.

(** ** The flat tree *)

Lemma makeGrpTreeNone_loop_ok (self : DatasetRelationModel.t)
  (items : list (string * Dataset.t)) (tree : TMNode.t) :
  unique_names (DatasetRelationModel.doc self) ->
  incl items (Document.data (DatasetRelationModel.doc self)) ->
  makeGrpTreeNone_loop self items tree =
  Ok (fold_left insertChildSorted
        (map (dsnode ["name"; "size"; "type"; "linkfile"])
             (List.filter (kept self ["name"; "size"; "type"; "linkfile"]) items))
        tree).
Proof.
  intros Hu. revert tree; induction items as [|[name ds] items IH]; intros tree Hin.
  - reflexivity.
  - cbn [makeGrpTreeNone_loop].
    pose proof (DatasetNode_item _ (name, ds) ["size"; "type"; "linkfile"] Hu
                  (Hin _ (or_introl eq_refl))) as Hn.
    cbn [fst] in Hn. rewrite Hn.
    cbn [bind List.filter]. unfold kept at 1. cbn [snd].
    destruct (negb (datasetFilterOut self ds _)); cbn [map fold_left];
      apply IH; intros x Hx; apply Hin; now right.
Qed.

Lemma NoDup_map_filter {A B} (f : A -> B) (p : A -> bool) (l : list A) :
  NoDup (map f l) -> NoDup (map f (List.filter p l)).
Proof.
  induction l as [|x l IH]; simpl; [auto|].
  intros H. inversion H as [|? ? Hx Hl]; subst.
  destruct (p x); simpl; [constructor|]; auto.
  intros Hin. apply Hx. apply in_map_iff in Hin as [y [Hy Hin]].
  apply filter_In in Hin as [Hin _]. rewrite <- Hy. now apply in_map.
Qed.

Lemma NoDup_map_injective {A B} (f : A -> B) (l : list A) :
  (forall a b, f a = f b -> a = b) -> NoDup l -> NoDup (map f l).
Proof.
  intros Hf. induction 1 as [|x l Hx Hl IH]; simpl; constructor; auto.
  intros Hin. apply in_map_iff in Hin as [y [Hy Hin]].
  apply Hf in Hy. now subst.
Qed.

Lemma names_of_dsnodes (cols : list string) (l : list (string * Dataset.t)) :
  map datasetName (map (dsnode ("name" :: cols)) l) = map (fun kv => Ok (fst kv)) l.
Proof. rewrite map_map. reflexivity. Qed.

Lemma NoDup_names_of_dsnodes (cols : list string) (l : list (string * Dataset.t)) :
  NoDup (map fst l) -> NoDup (map datasetName (map (dsnode ("name" :: cols)) l)).
Proof.
  rewrite names_of_dsnodes. rewrite <- (map_map fst (@Ok string)).
  apply NoDup_map_injective. intros a b H. now inversion H.
Qed.

Lemma node_le_name_lt (a b : TMNode.t) (na nb : string) :
  datasetName a = Ok na -> datasetName b = Ok nb -> na <> nb ->
  node_le a b -> name_lt a b.
Proof.
  intros Ha Hb Hne Hle. exists na, nb. repeat split; auto.
  unfold datasetName in Ha, Hb. unfold node_le, tuple_le in Hle.
  destruct (TMNode.data a) as [|xa ra]; [discriminate|].
  destruct (TMNode.data b) as [|xb rb]; [discriminate|].
  inversion Ha; inversion Hb; subst. simpl in Hle.
  destruct (String.compare na nb) eqn:E; auto.
  - apply string_compare_eq in E. contradiction.
  - congruence.
Qed.

Lemma sorted_names_strict (l : list TMNode.t) :
  StronglySorted node_le l ->
  Forall (fun c => exists n, datasetName c = Ok n) l ->
  NoDup (map datasetName l) ->
  StronglySorted name_lt l.
Proof.
  induction 1 as [|a l Hs IH Ha]; intros Hn Hnd; [constructor|].
  inversion Hn as [|? ? [na Hna] Hn']; subst.
  simpl in Hnd. inversion Hnd as [|? ? Hnotin Hnd']; subst.
  constructor; [now apply IH|].
  rewrite Forall_forall in *. intros b Hb.
  destruct (Hn' b Hb) as [nb Hnb].
  apply (node_le_name_lt a b na nb); auto.
  intros ->. apply Hnotin. rewrite Hna, <- Hnb. now apply in_map.
Qed.

(** C3.  With no grouping the tree is a root whose children are exactly
    the nodes of the datasets that pass the filter, one node per dataset:
    every child is a DatasetNode without children of its own (no group
    node, no deeper level), and the children are in strictly ascending
    order of the dataset name, their first column. *)
Theorem makeGrpTreeNone_flat_sorted (tr : string -> string) (self : DatasetRelationModel.t) :
  unique_names (DatasetRelationModel.doc self) ->
  exists children,
    makeGrpTreeNone tr self =
      Ok (TMNode.mk TMNodeClass [tr "Dataset"; tr "Size"; tr "Type"; tr "File"] children) /\
    Permutation children
      (map (dsnode ["name"; "size"; "type"; "linkfile"])
           (List.filter (kept self ["name"; "size"; "type"; "linkfile"])
                        (Document.data (DatasetRelationModel.doc self)))) /\
    Forall (fun c => is_dataset_node (TMNode.cls c) = true /\ TMNode.childnodes c = [])
           children /\
    StronglySorted name_lt children.
Proof.
  intros Hu. unfold makeGrpTreeNone.
  rewrite makeGrpTreeNone_loop_ok by (auto using incl_refl).
  rewrite fold_insertChildSorted. cbn [TMNode.cls TMNode.data TMNode.childnodes].
  set (nodes := map _ (List.filter _ _)).
  assert (Hp : Permutation (insert_all nodes []) nodes) by apply insert_all_perm.
  assert (Hd : Forall (fun c => is_dataset_node (TMNode.cls c) = true /\
                                TMNode.childnodes c = []) nodes).
  { apply Forall_forall. intros c Hc. apply in_map_iff in Hc as [kv [<- _]]. now split. }
  exists (insert_all nodes []). repeat split; auto.
  - eapply Permutation_Forall; [symmetry; exact Hp | exact Hd].
  - apply sorted_names_strict.
    + apply insert_all_sorted. constructor.
    + eapply Permutation_Forall; [symmetry; exact Hp|].
      apply Forall_forall. intros c Hc. apply in_map_iff in Hc as [kv [<- _]].
      now exists (fst kv).
    + eapply Permutation_NoDup; [apply Permutation_map; symmetry; exact Hp|].
      apply NoDup_names_of_dsnodes. apply NoDup_map_filter. exact Hu.
Qed.

Lemma makeGrpTreeNone_flat_sorted_witness :
  exists children,
    makeGrpTreeNone (fun s => s)
      (DatasetRelationModel.mk
         (Document.mk [("b", Dataset.mk 1 "numeric" "1D" "3" [] None [] None "" "");
                       ("a", Dataset.mk 2 "numeric" "2D" "3x3" [] None [] None "" "")])
         "none" "" false None None) =
      Ok (TMNode.mk TMNodeClass ["Dataset"; "Size"; "Type"; "File"] children) /\
    StronglySorted name_lt children.
Proof.
  destruct (makeGrpTreeNone_flat_sorted (fun s => s)
    (DatasetRelationModel.mk
       (Document.mk [("b", Dataset.mk 1 "numeric" "1D" "3" [] None [] None "" "");
                     ("a", Dataset.mk 2 "numeric" "2D" "3x3" [] None [] None "" "")])
       "none" "" false None None)) as [children [H1 [_ [_ H2]]]].
  - distinct.
  - exists children. split; assumption.
Defined.

(** ** The grouped tree *)

Lemma add_to_groups_fold (cls : NodeClass) (grps : list string) (child : TMNode.t)
  (grpnodes : GrpNodes) :
  add_to_groups cls grps child grpnodes =
  fold_left (grp_step cls) (map (fun grp => (grp, child)) grps) grpnodes.
Proof.
  revert grpnodes; induction grps as [|grp grps IH]; intros grpnodes; simpl;
    [reflexivity | apply IH].
Qed.

Lemma makeGrpTree_loop_ok (self : DatasetRelationModel.t) (cols : list string)
  (grouper : Dataset.t -> list string) (cls : NodeClass)
  (items : list (string * Dataset.t)) (grpnodes : GrpNodes) :
  unique_names (DatasetRelationModel.doc self) ->
  incl items (Document.data (DatasetRelationModel.doc self)) ->
  makeGrpTree_loop self ("name" :: cols) grouper cls items grpnodes =
  Ok (fold_left (grp_step cls) (grp_ops self ("name" :: cols) grouper items) grpnodes).
Proof.
  intros Hu. revert grpnodes; induction items as [|[name ds] items IH];
    intros grpnodes Hin.
  - reflexivity.
  - cbn [makeGrpTree_loop].
    pose proof (DatasetNode_item _ (name, ds) cols Hu (Hin _ (or_introl eq_refl))) as Hn.
    cbn [fst] in Hn. rewrite Hn. cbn [bind].
    unfold grp_ops. cbn [flat_map]. rewrite fold_left_app.
    unfold item_ops at 2. unfold kept. cbn [snd].
    destruct (negb (datasetFilterOut self ds _)); cbn [fold_left].
    + rewrite add_to_groups_fold. apply IH. intros x Hx; apply Hin; now right.
    + apply IH. intros x Hx; apply Hin; now right.
Qed.

Lemma grp_in_In (grp : string) (g : GrpNodes) :
  grp_in grp g = true <-> In grp (map fst g).
Proof.
  unfold grp_in. rewrite existsb_exists. split.
  - intros [[k n] [H1 H2]]. apply String.eqb_eq in H2. simpl in H2. subst.
    change grp with (fst (grp, n)). now apply in_map.
  - intros H. apply in_map_iff in H as [[k n] [H1 H2]]. simpl in H1. subst.
    exists (grp, n). split; [assumption | apply String.eqb_refl].
Qed.

Lemma grp_insert_child_keys (grp : string) (c : TMNode.t) (g : GrpNodes) :
  map fst (grp_insert_child grp c g) = map fst g.
Proof.
  induction g as [|[k n] g IH]; simpl; [reflexivity|].
  destruct (String.eqb k grp); simpl; [reflexivity | now rewrite IH].
Qed.

Lemma grp_insert_child_In (grp : string) (c : TMNode.t) (g : GrpNodes)
  (k : string) (n' : TMNode.t) :
  NoDup (map fst g) ->
  In (k, n') (grp_insert_child grp c g) ->
  (k <> grp /\ In (k, n') g) \/
  (k = grp /\ exists n, In (grp, n) g /\ n' = insertChildSorted n c).
Proof.
  induction g as [|[k0 n0] g IH]; simpl; [contradiction|].
  intros Hnd. inversion Hnd as [|? ? Hk Hg]; subst.
  destruct (String.eqb_spec k0 grp) as [->|Hne]; simpl.
  - intros [H|H].
    + inversion H; subst. right. split; auto. exists n0. auto.
    + left. split; auto. intros ->. apply Hk.
      change grp with (fst (grp, n')). now apply in_map.
  - intros [H|H].
    + inversion H; subst. left. auto.
    + destruct (IH Hg H) as [[H1 H2]|[H1 [n [H2 H3]]]]; [left|right]; auto.
      split; auto. exists n. auto.
Qed.

Lemma children_of_app (grp : string) (a b : list (string * TMNode.t)) :
  children_of grp (a ++ b) = children_of grp a ++ children_of grp b.
Proof. unfold children_of. now rewrite filter_app, map_app. Qed.

Lemma children_of_absent (grp : string) (ops : list (string * TMNode.t)) :
  ~ In grp (map fst ops) -> children_of grp ops = [].
Proof.
  unfold children_of. induction ops as [|[k c] ops IH]; simpl; [reflexivity|].
  intros H. destruct (String.eqb_spec k grp) as [->|Hne]; [tauto|].
  apply IH. tauto.
Qed.

Lemma insert_all_snoc (l : list TMNode.t) (c : TMNode.t) :
  insert_all (l ++ [c]) [] = insert_sorted c (insert_all l []).
Proof. unfold insert_all. now rewrite fold_left_app. Qed.

(** The group nodes after the steps [ops]: one per key met, labelled by
    the key and holding the children put under it, in sorted order. *)
Lemma grp_run_spec (cls : NodeClass) (ops : list (string * TMNode.t)) :
  let g := fold_left (grp_step cls) ops [] in
  NoDup (map fst g) /\
  (forall k, In k (map fst g) <-> In k (map fst ops)) /\
  (forall k node, In (k, node) g ->
     node = TMNode.mk cls [k] (insert_all (children_of k ops) [])).
Proof.
  induction ops as [|[grp c] ops IH] using rev_ind; cbn zeta.
  - simpl. repeat split; try constructor; try tauto; contradiction.
  - rewrite fold_left_app. cbn [fold_left].
    set (g := fold_left (grp_step cls) ops []) in *.
    destruct IH as [Hnd [Hkeys Hnodes]].
    unfold grp_step. cbn [fst snd].
    set (g1 := if negb (grp_in grp g)
               then g ++ [(grp, TMNode.mk cls [grp] [])] else g).
    assert (Hnd1 : NoDup (map fst g1)).
    { unfold g1. destruct (grp_in grp g) eqn:E; simpl; auto.
      rewrite map_app. simpl.
      apply NoDup_app; [exact Hnd | repeat constructor; simpl; tauto |].
      intros k Hk [ <- | [] ]. apply grp_in_In in Hk. congruence. }
    assert (Hkeys1 : forall k, In k (map fst g1) <-> In k (map fst ops) \/ k = grp).
    { intros k. unfold g1. destruct (grp_in grp g) eqn:E; simpl.
      - rewrite Hkeys. split; auto. intros [H| -> ]; auto.
        apply Hkeys. now apply grp_in_In.
      - rewrite map_app, in_app_iff, Hkeys. simpl. intuition. }
    assert (Hnodes1 : forall k node, In (k, node) g1 ->
               node = TMNode.mk cls [k] (insert_all (children_of k ops) [])).
    { intros k node. unfold g1. destruct (grp_in grp g) eqn:E; simpl; auto.
      rewrite in_app_iff. intros [H|[H|[]]]; auto.
      inversion H; subst. rewrite children_of_absent; [reflexivity|].
      rewrite <- Hkeys, <- grp_in_In. congruence. }
    split; [|split]; fold g1.
    + now rewrite grp_insert_child_keys.
    + intros k. rewrite grp_insert_child_keys.
      change (In k (map fst g1) <-> In k (map fst (ops ++ [(grp, c)]))).
      rewrite Hkeys1, map_app, in_app_iff. simpl. intuition.
    + intros k node Hin. rewrite children_of_app.
      apply grp_insert_child_In in Hin; auto.
      destruct Hin as [[Hne Hin]|[-> [n [Hin ->]]]].
      * unfold children_of at 2. simpl.
        destruct (String.eqb_spec grp k) as [->|_]; [tauto|].
        simpl. rewrite app_nil_r. now apply Hnodes1.
      * unfold children_of at 2. simpl. rewrite String.eqb_refl. simpl.
        rewrite insert_all_snoc. rewrite (Hnodes1 _ _ Hin). reflexivity.
Qed.

Lemma children_of_singletons (grp : string) (c : TMNode.t) (l : list string) :
  NoDup l ->
  children_of grp (map (fun g => (g, c)) l) = if in_str grp l then [c] else [].
Proof.
  unfold children_of, in_str. induction 1 as [|g l Hg Hl IH]; simpl; [reflexivity|].
  rewrite (String.eqb_sym grp g).
  destruct (String.eqb_spec g grp) as [->|Hne]; simpl; [|exact IH].
  rewrite IH. destruct (existsb (String.eqb grp) l) eqn:E; [|reflexivity].
  exfalso. apply Hg. now apply in_str_In.
Qed.

Lemma children_of_grp_ops (self : DatasetRelationModel.t) (cols : list string)
  (grouper : Dataset.t -> list string) (grp : string)
  (items : list (string * Dataset.t)) :
  Forall (fun kv => NoDup (grouper (snd kv))) items ->
  children_of grp (grp_ops self cols grouper items) =
  map (dsnode cols) (members self cols grouper grp items).
Proof.
  unfold grp_ops, members. induction 1 as [|kv items Hkv Hitems IH]; [reflexivity|].
  cbn [flat_map List.filter]. rewrite children_of_app, IH.
  unfold item_ops. destruct (kept self cols kv); cbn [andb].
  - rewrite children_of_singletons by exact Hkv.
    destruct (in_str grp (grouper (snd kv))); reflexivity.
  - reflexivity.
Qed.

Lemma keys_of_grp_ops (self : DatasetRelationModel.t) (cols : list string)
  (grouper : Dataset.t -> list string) (grp : string)
  (items : list (string * Dataset.t)) :
  In grp (map fst (grp_ops self cols grouper items)) <->
  exists kv, In kv items /\ kept self cols kv = true /\ In grp (grouper (snd kv)).
Proof.
  unfold grp_ops. rewrite in_map_iff. split.
  - intros [[k c] [Hk Hin]]. simpl in Hk. subst k.
    apply in_flat_map in Hin as [kv [Hkv Hin]]. exists kv. unfold item_ops in Hin.
    destruct (kept self cols kv); [|contradiction].
    apply in_map_iff in Hin as [g [Hg Hin]]. inversion Hg; subst. auto.
  - intros [kv [Hkv [Hk Hin]]]. exists (grp, dsnode cols kv). split; [reflexivity|].
    apply in_flat_map. exists kv. split; [assumption|]. unfold item_ops. rewrite Hk.
    apply in_map_iff. exists grp. auto.
Qed.

Lemma members_In (self : DatasetRelationModel.t) (cols : list string)
  (grouper : Dataset.t -> list string) (grp : string)
  (items : list (string * Dataset.t)) (kv : string * Dataset.t) :
  In kv (members self cols grouper grp items) <->
  In kv items /\ kept self cols kv = true /\ In grp (grouper (snd kv)).
Proof.
  unfold members. rewrite filter_In, andb_true_iff, in_str_In. tauto.
Qed.

(** What [makeGrpTree] builds: a root with one group node per group key
    met among the items that pass the filter; the group node of a key is
    labelled by it and holds the nodes of the items with that key. *)
Lemma makeGrpTree_spec (self : DatasetRelationModel.t) (coltitles cols : list string)
  (grouper : Dataset.t -> list string) (cls : NodeClass) :
  let items := Document.data (DatasetRelationModel.doc self) in
  unique_names (DatasetRelationModel.doc self) ->
  Forall (fun kv => NoDup (grouper (snd kv))) items ->
  exists groups : GrpNodes,
    makeGrpTree self coltitles ("name" :: cols) grouper cls =
      Ok (TMNode.mk TMNodeClass coltitles (insert_all (map snd groups) [])) /\
    NoDup (map fst groups) /\
    (forall grp, In grp (map fst groups) <->
       exists kv, In kv items /\ kept self ("name" :: cols) kv = true /\
                  In grp (grouper (snd kv))) /\
    (forall grp node, In (grp, node) groups ->
       node = TMNode.mk cls [grp]
                (insert_all (map (dsnode ("name" :: cols))
                                 (members self ("name" :: cols) grouper grp items)) [])).
Proof.
  intros items Hu Hg.
  exists (fold_left (grp_step cls) (grp_ops self ("name" :: cols) grouper items) []).
  destruct (grp_run_spec cls (grp_ops self ("name" :: cols) grouper items))
    as [Hnd [Hkeys Hnodes]].
  split; [|split; [exact Hnd|split]].
  - unfold makeGrpTree. fold items.
    rewrite makeGrpTree_loop_ok by (auto using incl_refl).
    cbn [bind]. unfold treeFromList. now rewrite fold_insertChildSorted.
  - intros grp. rewrite Hkeys. apply keys_of_grp_ops.
  - intros grp node Hin. rewrite (Hnodes _ _ Hin).
    now rewrite children_of_grp_ops.
Qed.

(** The tree does not depend on the order in which [grpnodes.values()]
    lists the group nodes. *)
Lemma makeGrpTree_values_order (self : DatasetRelationModel.t)
  (coltitles cols : list string) (grouper : Dataset.t -> list string) (cls : NodeClass) :
  let items := Document.data (DatasetRelationModel.doc self) in
  unique_names (DatasetRelationModel.doc self) ->
  exists groups : GrpNodes,
    makeGrpTree_loop self ("name" :: cols) grouper cls items [] = Ok groups /\
    forall values, Permutation values (map snd groups) ->
      makeGrpTree self coltitles ("name" :: cols) grouper cls =
        Ok (treeFromList values coltitles).
Proof.
  intros items Hu.
  exists (fold_left (grp_step cls) (grp_ops self ("name" :: cols) grouper items) []).
  destruct (grp_run_spec cls (grp_ops self ("name" :: cols) grouper items))
    as [Hnd [_ Hnodes]].
  assert (Hloop : makeGrpTree_loop self ("name" :: cols) grouper cls items [] =
                  Ok (fold_left (grp_step cls)
                        (grp_ops self ("name" :: cols) grouper items) []))
    by (apply makeGrpTree_loop_ok; auto using incl_refl).
  split; [exact Hloop|].
  intros values Hp. unfold makeGrpTree. fold items. rewrite Hloop. cbn [bind].
  f_equal. apply treeFromList_order; [now symmetry|].
  set (groups := fold_left _ _ _) in *.
  rewrite map_map.
  rewrite (map_ext_in _ (fun kn => [fst kn])).
  - rewrite <- (map_map fst (fun k => [k])).
    apply NoDup_map_injective; [|exact Hnd]. intros a b H. now inversion H.
  - intros [grp node] Hin. now rewrite (Hnodes _ _ Hin).
Qed.

(** The children of a group node: the node of each member once, and no two
    children with the same name. *)
Lemma group_children (self : DatasetRelationModel.t) (cols : list string)
  (grouper : Dataset.t -> list string) (grp : string) :
  let items := Document.data (DatasetRelationModel.doc self) in
  let children :=
    insert_all (map (dsnode ("name" :: cols))
                    (members self ("name" :: cols) grouper grp items)) [] in
  unique_names (DatasetRelationModel.doc self) ->
  NoDup (map datasetName children) /\
  (forall c, In c children <->
     exists kv, c = dsnode ("name" :: cols) kv /\
                In kv items /\ kept self ("name" :: cols) kv = true /\
                In grp (grouper (snd kv))).
Proof.
  intros items children Hu.
  assert (Hp : Permutation children
                 (map (dsnode ("name" :: cols))
                      (members self ("name" :: cols) grouper grp items)))
    by apply insert_all_perm.
  split.
  - eapply Permutation_NoDup; [apply Permutation_map; symmetry; exact Hp|].
    apply NoDup_names_of_dsnodes. unfold members. apply NoDup_map_filter. exact Hu.
  - intros c. split.
    + intros Hc. apply (Permutation_in _ Hp) in Hc.
      apply in_map_iff in Hc as [kv [<- Hkv]]. exists kv.
      split; [reflexivity | now apply members_In].
    + intros [kv [-> Hkv]]. apply (Permutation_in _ (Permutation_sym Hp)).
      apply in_map. now apply members_In.
Qed.

Lemma appears_once (name : string) (c g : TMNode.t) :
  NoDup (map datasetName (TMNode.childnodes g)) ->
  In c (TMNode.childnodes g) -> datasetName c = Ok name ->
  appears_once_in name c g.
Proof.
  intros Hnd Hin Hname. apply in_split in Hin as [l1 [l2 Heq]].
  exists l1, l2. split; [exact Heq|].
  rewrite Heq, map_app in Hnd. simpl in Hnd. apply NoDup_remove_2 in Hnd.
  intros c' Hc' Hn. apply Hnd. rewrite <- map_app, Hname, <- Hn. now apply in_map.
Qed.

(** ** Grouping by tags *)

Lemma sorted_insert_perm (x : string) (l : list string) :
  Permutation (sorted_insert x l) (x :: l).
Proof.
  induction l as [|y l IH]; simpl; [reflexivity|].
  destruct (String.ltb y x); [|reflexivity].
  rewrite IH. apply perm_swap.
Qed.

Lemma sorted_perm (l : list string) : Permutation (sorted l) l.
Proof.
  unfold sorted. induction l as [|x l IH]; simpl; [reflexivity|].
  rewrite sorted_insert_perm. now constructor.
Qed.

Lemma sorted_insert_sorted (x : string) (l : list string) :
  StronglySorted (fun a b => String.compare a b <> Gt) l ->
  StronglySorted (fun a b => String.compare a b <> Gt) (sorted_insert x l).
Proof.
  induction 1 as [|y l Hs IH Hy]; simpl; [repeat constructor|].
  unfold String.ltb. destruct (String.compare y x) eqn:E.
  - apply String.compare_eq_iff in E. subst y.
    constructor; [now constructor|]. constructor; [|exact Hy].
    rewrite (proj2 (string_compare_eq x x) eq_refl). discriminate.
  - constructor; [exact IH|].
    eapply Permutation_Forall; [symmetry; apply sorted_insert_perm|].
    constructor; [congruence | exact Hy].
  - assert (Hxy : String.compare x y <> Gt)
      by (rewrite String.compare_antisym, E; discriminate).
    constructor; [now constructor|]. constructor; [exact Hxy|].
    eapply Forall_impl; [|exact Hy]. intros z Hz.
    eapply string_le_trans; eauto.
Qed.

(** [sorted] returns its elements in ascending order. *)
Lemma sorted_is_sorted (l : list string) :
  StronglySorted (fun a b => String.compare a b <> Gt) (sorted l) /\
  Permutation (sorted l) l.
Proof.
  split; [|apply sorted_perm].
  unfold sorted. induction l as [|x l IH]; simpl; [constructor|].
  now apply sorted_insert_sorted.
Qed.

Lemma getgrp_tagged (tr : string -> string) (ds : Dataset.t) (t : string) :
  In t (Dataset.tags ds) -> In t (getgrp tr ds).
Proof.
  unfold getgrp. destruct (Dataset.tags ds) as [|t0 l] eqn:E; [contradiction|].
  intros H. apply (Permutation_in _ (Permutation_sym (sorted_perm _))). exact H.
Qed.

Lemma getgrp_untagged (tr : string -> string) (ds : Dataset.t) :
  Dataset.tags ds = [] -> getgrp tr ds = [tr "None"].
Proof. unfold getgrp. now intros ->. Qed.

Lemma getgrp_NoDup (tr : string -> string) (ds : Dataset.t) :
  NoDup (Dataset.tags ds) -> NoDup (getgrp tr ds).
Proof.
  unfold getgrp. destruct (Dataset.tags ds) as [|t0 l] eqn:E.
  - intros _. repeat constructor. simpl. tauto.
  - apply Permutation_NoDup. symmetry. apply sorted_perm.
Qed.

Lemma getgrp_all_NoDup (tr : string -> string) (doc : Document.t) :
  tags_are_sets doc ->
  Forall (fun kv => NoDup (getgrp tr (snd kv))) (Document.data doc).
Proof.
  unfold tags_are_sets. apply Forall_impl. intros kv. apply getgrp_NoDup.
Qed.

Lemma group_node_in_tree (groups : GrpNodes) (grp : string) (node : TMNode.t) :
  In (grp, node) groups -> In node (insert_all (map snd groups) []).
Proof.
  intros H. apply (Permutation_in _ (Permutation_sym (insert_all_perm _ _))).
  simpl. change node with (snd (grp, node)). now apply in_map.
Qed.

Lemma tree_node_in_groups (groups : GrpNodes) (node : TMNode.t) :
  In node (insert_all (map snd groups) []) -> exists grp, In (grp, node) groups.
Proof.
  intros H. apply (Permutation_in _ (insert_all_perm _ _)) in H. simpl in H.
  apply in_map_iff in H as [[grp n] [Hn Hin]]. simpl in Hn. subst. now exists grp.
Qed.

Lemma key_has_node (groups : GrpNodes) (grp : string) :
  In grp (map fst groups) -> exists node, In (grp, node) groups.
Proof.
  intros H. apply in_map_iff in H as [[k n] [Hk Hin]]. simpl in Hk. subst.
  now exists n.
Qed.

(** C2, as amended.  In grouping mode "tags", a dataset that passes the
    filter is a child of the group node of each of its tags, once in each
    (so a dataset tagged a and b is under both the group "a" and the
    group "b"); a dataset that passes the filter and has no tag is a child,
    once, of the group labelled with the translation of "None", there is
    only one group with that label, and no other group holds a node of that
    dataset. *)
Theorem makeGrpTreeTags_membership (tr : string -> string) (self : DatasetRelationModel.t) :
  unique_names (DatasetRelationModel.doc self) ->
  tags_are_sets (DatasetRelationModel.doc self) ->
  exists tree,
    makeGrpTreeTags tr self = Ok tree /\
    forall name ds,
      In (name, ds) (Document.data (DatasetRelationModel.doc self)) ->
      datasetFilterOut self ds
        (dsnode ["name"; "size"; "type"; "linkfile"] (name, ds)) = false ->
      (forall t, In t (Dataset.tags ds) ->
         exists g, In g (TMNode.childnodes tree) /\
                   TMNode.cls g = TMNodeClass /\ TMNode.data g = [t] /\
                   appears_once_in name
                     (dsnode ["name"; "size"; "type"; "linkfile"] (name, ds)) g) /\
      (Dataset.tags ds = [] ->
         exists g, In g (TMNode.childnodes tree) /\
                   TMNode.cls g = TMNodeClass /\ TMNode.data g = [tr "None"] /\
                   appears_once_in name
                     (dsnode ["name"; "size"; "type"; "linkfile"] (name, ds)) g /\
                   (forall g', In g' (TMNode.childnodes tree) ->
                               TMNode.data g' = [tr "None"] -> g' = g) /\
                   (forall g' c, In g' (TMNode.childnodes tree) ->
                                 In c (TMNode.childnodes g') ->
                                 datasetName c = Ok name -> g' = g)).
Proof.
  intros Hu Hts.
  destruct (makeGrpTree_spec self
              [tr "Dataset"; tr "Size"; tr "Type"; tr "Filename"]
              ["size"; "type"; "linkfile"] (getgrp tr) TMNodeClass Hu
              (getgrp_all_NoDup tr _ Hts))
    as [groups [Htree [Hnd [Hkeys Hnodes]]]].
  eexists. split; [exact Htree|]. cbn [TMNode.childnodes].
  intros name ds Hin Hkeep.
  assert (Hk : kept self ["name"; "size"; "type"; "linkfile"] (name, ds) = true).
  { unfold kept. cbn [snd]. now rewrite Hkeep. }
  assert (Hgrp : forall grp, In grp (getgrp tr ds) ->
            exists g, In (grp, g) groups /\
                      In g (insert_all (map snd groups) []) /\
                      TMNode.cls g = TMNodeClass /\ TMNode.data g = [grp] /\
                      appears_once_in name
                        (dsnode ["name"; "size"; "type"; "linkfile"] (name, ds)) g).
  { intros grp Hg.
    destruct (key_has_node groups grp) as [g Hgin].
    { apply Hkeys. exists (name, ds). auto. }
    exists g. split; [exact Hgin|]. split; [eapply group_node_in_tree; eauto|].
    rewrite (Hnodes _ _ Hgin). cbn [TMNode.cls TMNode.data].
    split; [reflexivity|split; [reflexivity|]].
    destruct (group_children self ["size"; "type"; "linkfile"] (getgrp tr) grp Hu)
      as [Hnames Hmem].
    apply appears_once; cbn [TMNode.childnodes]; auto.
    apply Hmem. exists (name, ds). auto. }
  split.
  - intros t Ht. destruct (Hgrp t (getgrp_tagged tr ds t Ht)) as [g [_ H]].
    exists g. exact H.
  - intros Hnotags.
    destruct (Hgrp (tr "None")) as [g [Hgin [H1 [H2 [H3 H4]]]]].
    { rewrite getgrp_untagged by assumption. now left. }
    assert (Hsame : forall grp' g', In (grp', g') groups -> grp' = tr "None" -> g' = g).
    { intros grp' g' Hg' ->. rewrite (Hnodes _ _ Hg'), (Hnodes _ _ Hgin). reflexivity. }
    exists g. repeat split; auto.
    + intros g' Hg' Hlabel. apply tree_node_in_groups in Hg' as [grp' Hg'].
      apply (Hsame grp' g' Hg'). rewrite (Hnodes _ _ Hg') in Hlabel.
      cbn [TMNode.data] in Hlabel. now inversion Hlabel.
    + intros g' c Hg' Hc Hname. apply tree_node_in_groups in Hg' as [grp' Hg'].
      apply (Hsame grp' g' Hg').
      rewrite (Hnodes _ _ Hg') in Hc. cbn [TMNode.childnodes] in Hc.
      destruct (group_children self ["size"; "type"; "linkfile"] (getgrp tr) grp' Hu)
        as [_ Hmem].
      apply Hmem in Hc as [kv [-> [Hkv [_ Hgrp']]]].
      rewrite dsnode_name in Hname. inversion Hname as [Hfst].
      destruct kv as [n ds']. cbn [fst snd] in *. subst n.
      assert (ds' = ds).
      { pose proof (getitem_in _ _ _ Hu Hkv). pose proof (getitem_in _ _ _ Hu Hin).
        congruence. }
      subst ds'. rewrite getgrp_untagged in Hgrp' by assumption.
      destruct Hgrp' as [H|[]]. now symmetry.
Qed.

Lemma makeGrpTreeTags_membership_witness :
  exists tree,
    makeGrpTreeTags (fun s => s)
      (DatasetRelationModel.mk
         (Document.mk
            [("x", Dataset.mk 1 "numeric" "1D" "3" ["b"; "a"] None [] None "" "");
             ("y", Dataset.mk 1 "numeric" "1D" "3" [] None [] None "" "")])
         "tags" "" false None None) = Ok tree /\
    (exists g, In g (TMNode.childnodes tree) /\ TMNode.data g = ["a"] /\
               appears_once_in "x"
                 (dsnode ["name"; "size"; "type"; "linkfile"]
                    ("x", Dataset.mk 1 "numeric" "1D" "3" ["b"; "a"] None [] None "" "")) g).
Proof.
  destruct (makeGrpTreeTags_membership (fun s => s)
    (DatasetRelationModel.mk
       (Document.mk
          [("x", Dataset.mk 1 "numeric" "1D" "3" ["b"; "a"] None [] None "" "");
           ("y", Dataset.mk 1 "numeric" "1D" "3" [] None [] None "" "")])
       "tags" "" false None None)) as [tree [Htree H]].
  - distinct.
  - distinct.
  - exists tree. split; [exact Htree|].
    destruct (H "x" (Dataset.mk 1 "numeric" "1D" "3" ["b"; "a"] None [] None "" ""))
      as [Htags _].
    + simpl. left. reflexivity.
    + reflexivity.
    + destruct (Htags "a") as [g [H1 [_ [H2 H3]]]].
      * simpl. right. left. reflexivity.
      * exists g. auto.
Defined.

(** C2 as stated fails: with a filter text that the dataset does not match,
    a dataset tagged a and b is in [doc.data] and the tree in grouping mode
    "tags" has no group at all. *)
Lemma makeGrpTreeTags_filtered_counterexample :
  let ds := Dataset.mk 1 "numeric" "1D" "3" ["a"; "b"] None [] None "" "" in
  let self := DatasetRelationModel.mk (Document.mk [("x", ds)])
                "tags" "zzz" false None None in
  In ("x", ds) (Document.data (DatasetRelationModel.doc self)) /\
  makeGrpTreeTags (fun s => s) self =
    Ok (TMNode.mk TMNodeClass ["Dataset"; "Size"; "Type"; "Filename"] []) /\
  ~ (exists tree g, makeGrpTreeTags (fun s => s) self = Ok tree /\
                    In g (TMNode.childnodes tree) /\ TMNode.data g = ["a"]).
Proof.
  cbv zeta. split; [now left|]. split; [reflexivity|].
  intros [tree [g [Htree [Hg _]]]].
  vm_compute in Htree. inversion Htree; subst. exact Hg.
Qed.

Lemma makeGrpTree_nodes (self : DatasetRelationModel.t) (coltitles cols : list string)
  (grouper : Dataset.t -> list string) (cls : NodeClass) :
  let items := Document.data (DatasetRelationModel.doc self) in
  unique_names (DatasetRelationModel.doc self) ->
  Forall (fun kv => NoDup (grouper (snd kv))) items ->
  exists tree,
    makeGrpTree self coltitles ("name" :: cols) grouper cls = Ok tree /\
    (forall kv grp, In kv items -> kept self ("name" :: cols) kv = true ->
       In grp (grouper (snd kv)) ->
       exists g, In g (TMNode.childnodes tree) /\ TMNode.cls g = cls /\
                 TMNode.data g = [grp] /\
                 In (dsnode ("name" :: cols) kv) (TMNode.childnodes g)) /\
    (forall g c, In g (TMNode.childnodes tree) -> In c (TMNode.childnodes g) ->
       exists kv grp, c = dsnode ("name" :: cols) kv /\ In kv items /\
                      kept self ("name" :: cols) kv = true /\
                      In grp (grouper (snd kv)) /\ TMNode.data g = [grp]).
Proof.
  intros items Hu Hg.
  destruct (makeGrpTree_spec self coltitles cols grouper cls Hu Hg)
    as [groups [Htree [Hnd [Hkeys Hnodes]]]].
  eexists. split; [exact Htree|]. cbn [TMNode.childnodes]. split.
  - intros kv grp Hin Hk Hgrp.
    destruct (key_has_node groups grp) as [g Hgin].
    { apply Hkeys. exists kv. auto. }
    exists g. split; [eapply group_node_in_tree; eauto|].
    rewrite (Hnodes _ _ Hgin). cbn [TMNode.cls TMNode.data TMNode.childnodes].
    repeat split.
    apply (group_children self cols grouper grp Hu). exists kv. auto.
  - intros g c Hgin Hc. apply tree_node_in_groups in Hgin as [grp Hgin].
    rewrite (Hnodes _ _ Hgin) in Hc |- *. cbn [TMNode.childnodes TMNode.data] in *.
    apply (group_children self cols grouper grp Hu) in Hc as [kv [-> [H1 [H2 H3]]]].
    exists kv, grp. auto.
Qed.

(** ** The filter and the columns of a grouping mode *)

Lemma is_substring_empty (s : string) : is_substring EmptyString s.
Proof. now exists EmptyString, s. Qed.

Lemma not_is_substring (sub s : string) : (find s sub >=? 0) = false -> ~ is_substring sub s.
Proof. intros H Hs. apply find_spec in Hs. congruence. Qed.

(** C10, as amended.  The free text is tested against the display columns
    of the grouping mode.  In grouping mode "filename" these are name, size
    and type: a dataset whose name, size, type and tags do not contain the
    text has no node in the tree, whatever its linked file.  In grouping
    mode "tags" the base name of the linked file is a column: the same
    dataset, when that base name contains the text and the dimension and
    datatype constraints hold, is under the group of each of its keys. *)
Theorem filter_columns_depend_on_grouping
  (tr : string -> string) (self : DatasetRelationModel.t)
  (name : string) (ds : Dataset.t) :
  let flt := DatasetRelationModel.filter self in
  unique_names (DatasetRelationModel.doc self) ->
  In (name, ds) (Document.data (DatasetRelationModel.doc self)) ->
  ~ is_substring flt name ->
  ~ is_substring flt (Dataset.userSize ds) ->
  ~ is_substring flt (Dataset.dstype ds) ->
  (forall t, In t (Dataset.tags ds) -> ~ is_substring flt t) ->
  (exists tree,
     makeGrpTreeFilename tr self = Ok tree /\
     forall g c, In g (TMNode.childnodes tree) -> In c (TMNode.childnodes g) ->
                 datasetName c <> Ok name) /\
  (tags_are_sets (DatasetRelationModel.doc self) ->
   passes_dims self ds -> passes_dtype self ds ->
   is_substring flt (basename (datasetLinkFile ds)) ->
   exists tree,
     makeGrpTreeTags tr self = Ok tree /\
     forall grp, In grp (getgrp tr ds) ->
       exists g, In g (TMNode.childnodes tree) /\ TMNode.data g = [grp] /\
                 In (dsnode ["name"; "size"; "type"; "linkfile"] (name, ds))
                    (TMNode.childnodes g)).
Proof.
  intros flt Hu Hin Hname Hsize Htype Htags. split.
  - destruct (makeGrpTree_nodes self [tr "Dataset"; tr "Size"; tr "Type"]
                ["size"; "type"] (fun ds => [datasetLinkFile ds]) FilenameNodeClass Hu)
      as [tree [Htree [_ Hall]]].
    { apply Forall_forall. intros kv _. repeat constructor. simpl. tauto. }
    exists tree. split; [exact Htree|].
    intros g c Hg Hc Hn.
    destruct (Hall g c Hg Hc) as [[n ds'] [grp [-> [Hkv [Hk _]]]]].
    rewrite dsnode_name in Hn. inversion Hn as [Hfst]. cbn [fst] in Hfst. subst n.
    assert (ds' = ds).
    { pose proof (getitem_in _ _ _ Hu Hkv). pose proof (getitem_in _ _ _ Hu Hin).
      congruence. }
    subst ds'. unfold kept in Hk. apply negb_true_iff in Hk. cbn [snd] in Hk.
    apply datasetFilterOut_false_iff in Hk as [_ [_ [Hempty|[t [[Ht|Ht] Hsub]]]]].
    + apply Hname. fold flt in Hempty. rewrite Hempty. apply is_substring_empty.
    + exact (Htags t Ht Hsub).
    + simpl in Ht. destruct Ht as [<-|[<-|[<-|[]]]]; auto.
  - intros Hts Hd Ht Hbase.
    destruct (makeGrpTree_nodes self [tr "Dataset"; tr "Size"; tr "Type"; tr "Filename"]
                ["size"; "type"; "linkfile"] (getgrp tr) TMNodeClass Hu
                (getgrp_all_NoDup tr _ Hts))
      as [tree [Htree [Hmem _]]].
    exists tree. split; [exact Htree|].
    intros grp Hgrp. destruct (Hmem (name, ds) grp Hin) as [g [H1 [_ [H2 H3]]]]; auto.
    + unfold kept. apply negb_true_iff. apply datasetFilterOut_false_iff.
      repeat split; auto. right. exists (basename (datasetLinkFile ds)).
      split; [|exact Hbase]. right. simpl. tauto.
    + exists g. auto.
Qed.

Lemma filter_columns_depend_on_grouping_witness :
  (exists tree,
     makeGrpTreeFilename (fun s => s)
       (DatasetRelationModel.mk
          (Document.mk
             [("x", Dataset.mk 1 "numeric" "1D" "3" [] (Some "/data/run.csv") []
                      None "" "")])
          "filename" "run" false None None) = Ok tree /\
     forall g c, In g (TMNode.childnodes tree) -> In c (TMNode.childnodes g) ->
                 datasetName c <> Ok "x") /\
  (exists tree,
     makeGrpTreeTags (fun s => s)
       (DatasetRelationModel.mk
          (Document.mk
             [("x", Dataset.mk 1 "numeric" "1D" "3" [] (Some "/data/run.csv") []
                      None "" "")])
          "filename" "run" false None None) = Ok tree /\
     exists g, In g (TMNode.childnodes tree) /\ TMNode.data g = ["None"] /\
               In (dsnode ["name"; "size"; "type"; "linkfile"]
                     ("x", Dataset.mk 1 "numeric" "1D" "3" [] (Some "/data/run.csv") []
                             None "" ""))
                  (TMNode.childnodes g)).
Proof.
  destruct (filter_columns_depend_on_grouping (fun s => s)
    (DatasetRelationModel.mk
       (Document.mk
          [("x", Dataset.mk 1 "numeric" "1D" "3" [] (Some "/data/run.csv") []
                   None "" "")])
       "filename" "run" false None None)
    "x" (Dataset.mk 1 "numeric" "1D" "3" [] (Some "/data/run.csv") [] None "" ""))
    as [H1 H2].
  - distinct.
  - simpl. left. reflexivity.
  - apply not_is_substring. reflexivity.
  - apply not_is_substring. reflexivity.
  - apply not_is_substring. reflexivity.
  - simpl. contradiction.
  - split; [exact H1|].
    destruct H2 as [tree [Htree Hgrp]].
    + distinct.
    + exact I.
    + exact I.
    + apply find_spec. reflexivity.
    + exists tree. split; [exact Htree|]. apply (Hgrp "None"). simpl. left. reflexivity.
Defined.

(** C10 as stated fails: the file path of the dataset contains the text,
    its name, size, type and tags do not, and yet grouping mode "tags"
    leaves it out, because the column holds the base name of the path. *)
Lemma filter_linkfile_directory_counterexample :
  let ds := Dataset.mk 1 "numeric" "1D" "3" [] (Some "/data/run.csv") [] None "" "" in
  let self := DatasetRelationModel.mk (Document.mk [("x", ds)])
                "tags" "data" false None None in
  is_substring (DatasetRelationModel.filter self) (datasetLinkFile ds) /\
  ~ is_substring (DatasetRelationModel.filter self) "x" /\
  ~ is_substring (DatasetRelationModel.filter self) (Dataset.userSize ds) /\
  ~ is_substring (DatasetRelationModel.filter self) (Dataset.dstype ds) /\
  Dataset.tags ds = [] /\
  makeGrpTreeTags (fun s => s) self =
    Ok (TMNode.mk TMNodeClass ["Dataset"; "Size"; "Type"; "Filename"] []) /\
  ~ (exists tree g c, makeGrpTreeTags (fun s => s) self = Ok tree /\
                      In g (TMNode.childnodes tree) /\ In c (TMNode.childnodes g) /\
                      datasetName c = Ok "x").
Proof.
  cbv zeta. repeat split; try (apply not_is_substring; reflexivity).
  - apply find_spec. reflexivity.
  - intros [tree [g [c [Htree [Hg _]]]]].
    vm_compute in Htree. inversion Htree; subst. exact Hg.
Qed.

(** ** Synchronising a tree with itself *)

Lemma ViewNode_induction (P : ViewNode.t -> Prop) :
  (forall h c d children, Forall P children -> P (ViewNode.mk h c d children)) ->
  forall t, P t.
Proof.
  intros H. fix IH 1. intros [h c d children]. apply H.
  induction children as [|x l IHl]; constructor; [apply IH | exact IHl].
Qed.

Lemma ids_unique_iff (c : NodeClass) (d : list string) (children : list TMNode.t) :
  ids_unique (TMNode.mk c d children) <->
  NoDup (map node_identity children) /\ Forall ids_unique children.
Proof.
  cbn [ids_unique].
  assert (H : forall l,
             (fix all (l : list TMNode.t) : Prop :=
                match l with
                | [] => True
                | c :: l' => ids_unique c /\ all l'
                end) l <-> Forall ids_unique l).
  { induction l as [|x l IH]; [split; auto|].
    rewrite IH. split; [intros [? ?]; now constructor | now inversion 1]. }
  rewrite H. reflexivity.
Qed.

Lemma same_identity_iff (a b : ViewNode.t) :
  same_identity a b = true <->
  identity (ViewNode.cls a) (ViewNode.data a) = identity (ViewNode.cls b) (ViewNode.data b).
Proof.
  unfold same_identity.
  destruct (identity (ViewNode.cls a) (ViewNode.data a)) as [ka ia].
  destruct (identity (ViewNode.cls b) (ViewNode.data b)) as [kb ib].
  cbn [fst snd]. rewrite andb_true_iff, Bool.eqb_true_iff, tuple_eqb_eq.
  split; [intros [-> ->]; reflexivity | now inversion 1].
Qed.

Lemma node_identity_erase (v : ViewNode.t) :
  node_identity (erase v) = identity (ViewNode.cls v) (ViewNode.data v).
Proof. now destruct v. Qed.

Lemma find_by_identity (x o : ViewNode.t) (l : list ViewNode.t) :
  NoDup (map (fun v => identity (ViewNode.cls v) (ViewNode.data v)) l) ->
  In o l ->
  identity (ViewNode.cls x) (ViewNode.data x) = identity (ViewNode.cls o) (ViewNode.data o) ->
  List.find (same_identity x) l = Some o.
Proof.
  induction l as [|y l IH]; simpl; [contradiction|].
  intros Hnd. inversion Hnd as [|? ? Hy Hl]; subst. intros [->|Hin] Hid.
  - apply same_identity_iff in Hid. now rewrite Hid.
  - destruct (same_identity x y) eqn:E; [|now apply IH].
    exfalso. apply same_identity_iff in E. apply Hy. rewrite <- E, Hid.
    apply in_map_iff. now exists o.
Qed.

(** Synchronising a displayed tree with a new tree that shows the same
    nodes gives back the displayed tree, handles included, whatever the
    handles of the new tree. *)
Lemma syncTree_same_shape (t' t : ViewNode.t) :
  erase t = erase t' -> ids_unique (erase t) -> syncTree t t' = t.
Proof.
  revert t. induction t' as [h' c' d' children' IH] using ViewNode_induction.
  intros [h c d children] Heq. cbn [erase] in Heq. inversion Heq as [[Hc Hd Hch]].
  cbn [erase]. rewrite ids_unique_iff. intros [Hnd Hall].
  cbn [syncTree ViewNode.handle ViewNode.childnodes]. f_equal.
  rewrite map_map in Hnd. rewrite (map_ext _ _ node_identity_erase) in Hnd.
  rewrite Forall_forall in IH, Hall.
  assert (Hsub : forall sub sub',
            map erase sub = map erase sub' ->
            incl sub children -> incl sub' children' ->
            map (fun newchild =>
                   match List.find (same_identity newchild) children with
                   | Some oldchild => syncTree oldchild newchild
                   | None => newchild
                   end) sub' = sub).
  { induction sub as [|o sub IHsub]; intros [|n sub'] Hmap Hi Hi';
      try discriminate; [reflexivity|].
    simpl in Hmap. inversion Hmap as [[Ho Hrest]]. cbn [map].
    assert (Hoin : In o children) by (apply Hi; now left).
    assert (Hnin : In n children') by (apply Hi'; now left).
    rewrite (find_by_identity n o children Hnd Hoin)
      by (rewrite <- !node_identity_erase; now rewrite Ho).
    f_equal.
    - apply IH; [exact Hnin | exact Ho |]. apply Hall. now apply in_map.
    - apply IHsub; [exact Hrest | |]; intros z Hz; [apply Hi | apply Hi']; now right. }
  apply Hsub; [exact Hch | apply incl_refl | apply incl_refl].
Qed.

Lemma syncTree_self (t : ViewNode.t) : ids_unique (erase t) -> syncTree t t = t.
Proof. now apply syncTree_same_shape. Qed.

Lemma dsnode_identity (cols : list string) (kv : string * Dataset.t) :
  node_identity (dsnode ("name" :: cols) kv) = (true, [fst kv]).
Proof. reflexivity. Qed.

Lemma dsnode_ids_unique (cols : list string) (kv : string * Dataset.t) :
  ids_unique (dsnode cols kv).
Proof. apply ids_unique_iff. split; constructor. Qed.

(** The nodes of items with distinct names, inserted in sorted order, have
    distinct identities and no children. *)
Lemma dsnodes_ids_unique (c : NodeClass) (d cols : list string)
  (items : list (string * Dataset.t)) :
  NoDup (map fst items) ->
  ids_unique (TMNode.mk c d (insert_all (map (dsnode ("name" :: cols)) items) [])).
Proof.
  intros Hnd. apply ids_unique_iff.
  pose proof (insert_all_perm (map (dsnode ("name" :: cols)) items) []) as Hp.
  simpl in Hp. split.
  - eapply Permutation_NoDup; [apply Permutation_map; symmetry; exact Hp|].
    rewrite map_map. rewrite (map_ext _ _ (dsnode_identity cols)).
    rewrite <- (map_map fst (fun n => (true, [n]))).
    apply NoDup_map_injective; [|exact Hnd]. intros a b H. now inversion H.
  - eapply Permutation_Forall; [symmetry; exact Hp|].
    apply Forall_forall. intros x Hx. apply in_map_iff in Hx as [kv [<- _]].
    apply dsnode_ids_unique.
Qed.

Lemma makeGrpTreeNone_ids_unique (tr : string -> string) (self : DatasetRelationModel.t)
  (tree : TMNode.t) :
  unique_names (DatasetRelationModel.doc self) ->
  makeGrpTreeNone tr self = Ok tree -> ids_unique tree.
Proof.
  intros Hu. unfold makeGrpTreeNone.
  rewrite makeGrpTreeNone_loop_ok by (auto using incl_refl).
  rewrite fold_insertChildSorted. cbn [TMNode.cls TMNode.data TMNode.childnodes].
  intros H. inversion H. apply dsnodes_ids_unique. apply NoDup_map_filter. exact Hu.
Qed.

Lemma makeGrpTree_ids_unique (self : DatasetRelationModel.t) (coltitles cols : list string)
  (grouper : Dataset.t -> list string) (cls : NodeClass) (tree : TMNode.t) :
  unique_names (DatasetRelationModel.doc self) ->
  Forall (fun kv => NoDup (grouper (snd kv)))
         (Document.data (DatasetRelationModel.doc self)) ->
  is_dataset_node cls = false ->
  makeGrpTree self coltitles ("name" :: cols) grouper cls = Ok tree ->
  ids_unique tree.
Proof.
  intros Hu Hg Hcls Htree.
  destruct (makeGrpTree_spec self coltitles cols grouper cls Hu Hg)
    as [groups [Heq [Hnd [_ Hnodes]]]].
  rewrite Heq in Htree. inversion Htree. apply ids_unique_iff.
  pose proof (insert_all_perm (map snd groups) []) as Hp. simpl in Hp.
  assert (Hid : forall kn, In kn groups -> node_identity (snd kn) = (false, [fst kn])).
  { intros [grp node] Hin. rewrite (Hnodes _ _ Hin). unfold node_identity, identity.
    cbn [TMNode.cls TMNode.data fst snd]. now rewrite Hcls. }
  split.
  - eapply Permutation_NoDup; [apply Permutation_map; symmetry; exact Hp|].
    rewrite map_map. rewrite (map_ext_in _ (fun kn => (false, [fst kn])) _ Hid).
    rewrite <- (map_map fst (fun n => (false, [n]))).
    apply NoDup_map_injective; [|exact Hnd]. intros a b H. now inversion H.
  - eapply Permutation_Forall; [symmetry; exact Hp|].
    apply Forall_forall. intros x Hx. apply in_map_iff in Hx as [[grp node] [<- Hin]].
    cbn [snd]. rewrite (Hnodes _ _ Hin). apply dsnodes_ids_unique.
    unfold members. apply NoDup_map_filter. exact Hu.
Qed.

Lemma singleton_groups (f : Dataset.t -> string) (items : list (string * Dataset.t)) :
  Forall (fun kv => NoDup [f (snd kv)]) items.
Proof. apply Forall_forall. intros kv _. repeat constructor. simpl. tauto. Qed.

Lemma refresh_tree_ids_unique (tr : string -> string) (self : DatasetRelationModel.t)
  (tree : TMNode.t) :
  unique_names (DatasetRelationModel.doc self) ->
  tags_are_sets (DatasetRelationModel.doc self) ->
  refresh_tree tr self = Ok tree -> ids_unique tree.
Proof.
  intros Hu Hts. unfold refresh_tree.
  destruct (String.eqb _ "none"); [now apply makeGrpTreeNone_ids_unique|].
  destruct (String.eqb _ "filename").
  { apply makeGrpTree_ids_unique; auto.
    apply (singleton_groups datasetLinkFile). }
  destruct (String.eqb _ "size").
  { apply makeGrpTree_ids_unique; auto.
    apply (singleton_groups Dataset.userSize). }
  destruct (String.eqb _ "type").
  { apply makeGrpTree_ids_unique; auto.
    apply (singleton_groups Dataset.dstype). }
  destruct (String.eqb _ "tags"); [|discriminate].
  apply makeGrpTree_ids_unique; auto. now apply getgrp_all_NoDup.
Qed.

(** C9.  A displayed tree that shows a tree built by [refresh], whatever
    the handles of its nodes, is left as it is when synchronised with
    itself: every node keeps its handle, and the labels, the children and
    their order are unchanged.  The same holds when it is synchronised with
    any other copy of that tree, as [refresh] does when the document has
    not changed. *)
Theorem syncTree_same_tree (tr : string -> string) (self : DatasetRelationModel.t)
  (tree : TMNode.t) (t : ViewNode.t) :
  unique_names (DatasetRelationModel.doc self) ->
  tags_are_sets (DatasetRelationModel.doc self) ->
  refresh_tree tr self = Ok tree ->
  erase t = tree ->
  syncTree t t = t /\
  forall t', erase t' = tree -> syncTree t t' = t.
Proof.
  intros Hu Hts Htree Ht.
  assert (Hid : ids_unique (erase t))
    by (rewrite Ht; eapply refresh_tree_ids_unique; eauto).
  split; [now apply syncTree_self|].
  intros t' Ht'. apply syncTree_same_shape; [congruence | exact Hid].
Qed.

Lemma syncTree_same_tree_witness :
  let t :=
    ViewNode.mk 1 TMNodeClass ["Dataset"; "Size"; "Type"; "Filename"]
      [ViewNode.mk 2 TMNodeClass ["a"]
         [ViewNode.mk 3 (DatasetNodeClass ["name"; "size"; "type"; "linkfile"])
            ["x"; "3"; "1D"; ""] []];
       ViewNode.mk 4 TMNodeClass ["b"]
         [ViewNode.mk 3 (DatasetNodeClass ["name"; "size"; "type"; "linkfile"])
            ["x"; "3"; "1D"; ""] []]] in
  syncTree t t = t.
Proof.
  intros t.
  apply (fun H1 H2 H3 H4 => proj1 (syncTree_same_tree (fun s => s)
    (DatasetRelationModel.mk
       (Document.mk [("x", Dataset.mk 1 "numeric" "1D" "3" ["b"; "a"] None [] None "" "")])
       "tags" "" false None None)
    (erase t) t H1 H2 H3 H4)).
  - distinct.
  - distinct.
  - reflexivity.
  - reflexivity.
Defined.

(** ** Renaming *)

(** C7.  [setData] with a new name that fails validation or is already a
    key of [doc.data] changes nothing (no operation applied, no signal) and
    returns [False]; with a valid name that is not yet a key it applies
    the rename operation from the name of the node to the new name, emits
    [dataChanged] and returns [True]. *)
Theorem setData_rejects_or_renames
  (Index : Type) (validateDatasetName : string -> bool)
  (Operation_do : Operation -> Document.t -> Document.t)
  (objFromIndex : Index -> TMNode.t)
  (w : World Index) (idx : Index) (newname : string) :
  (validateDatasetName newname = false \/
   contains (Document.data (document w)) newname = true ->
   setData Index validateDatasetName Operation_do objFromIndex w idx newname =
     Ok (false, w)) /\
  (validateDatasetName newname = true ->
   contains (Document.data (document w)) newname = false ->
   forall oldname, datasetName (objFromIndex idx) = Ok oldname ->
   setData Index validateDatasetName Operation_do objFromIndex w idx newname =
     Ok (true,
         mkWorld (Operation_do (OperationDatasetRename oldname newname) (document w))
                 (applied w ++ [OperationDatasetRename oldname newname])
                 (emitted w ++ [(idx, idx)]))).
Proof.
  unfold setData. split.
  - intros [H|H]; rewrite H; [reflexivity | now rewrite orb_true_r].
  - intros Hv Hc oldname Hold. rewrite Hv, Hc, Hold. reflexivity.
Qed.

Lemma setData_rejects_or_renames_witness :
  setData nat (fun s => negb (String.eqb s "")) (fun _ d => d)
    (fun _ => TMNode.mk (DatasetNodeClass ["name"]) ["a"] [])
    (mkWorld (Document.mk [("a", Dataset.mk 1 "numeric" "1D" "3" [] None [] None "" "");
                           ("b", Dataset.mk 1 "numeric" "1D" "3" [] None [] None "" "")])
             [] [])
    0%nat "b" =
  Ok (false,
      mkWorld (Document.mk [("a", Dataset.mk 1 "numeric" "1D" "3" [] None [] None "" "");
                            ("b", Dataset.mk 1 "numeric" "1D" "3" [] None [] None "" "")])
              [] []).
Proof.
  apply (proj1 (setData_rejects_or_renames nat (fun s => negb (String.eqb s ""))
    (fun _ d => d) (fun _ => TMNode.mk (DatasetNodeClass ["name"]) ["a"] [])
    (mkWorld (Document.mk [("a", Dataset.mk 1 "numeric" "1D" "3" [] None [] None "" "");
                           ("b", Dataset.mk 1 "numeric" "1D" "3" [] None [] None "" "")])
             [] [])
    0%nat "b")).
  right. reflexivity.
Defined.

(** ** A node whose dataset is gone *)

(** C8.  For a DatasetNode whose dataset name is not a key of [doc.data],
    [dataset] and [toolTip] return [None]; neither raises. *)
Theorem missing_dataset_is_None
  (tr : string -> string) (textwrap_fill : string -> Z -> string)
  (percent : string -> string -> string) (pixmapAsHtml : Pixmap -> string)
  (doc : Document.t) (cols : list string) (self : TMNode.t) (column : Z)
  (name : string) :
  datasetName self = Ok name ->
  contains (Document.data doc) name = false ->
  dataset doc self = Ok None /\
  toolTip tr textwrap_fill percent pixmapAsHtml doc cols self column = Ok None.
Proof.
  intros Hname Hc. unfold dataset, toolTip. rewrite Hname. cbn [bind].
  rewrite (getitem_not_in _ _ Hc). split; reflexivity.
Qed.

Lemma missing_dataset_is_None_witness :
  dataset (Document.mk [("b", Dataset.mk 1 "numeric" "1D" "3" [] None [] None "" "")])
          (TMNode.mk (DatasetNodeClass ["name"; "size"]) ["a"; "3"] []) = Ok None /\
  toolTip (fun s => s) (fun s _ => s) (fun s _ => s) (fun _ => "")
          (Document.mk [("b", Dataset.mk 1 "numeric" "1D" "3" [] None [] None "" "")])
          ["name"; "size"]
          (TMNode.mk (DatasetNodeClass ["name"; "size"]) ["a"; "3"] []) 1 = Ok None.
Proof.
  apply (missing_dataset_is_None (fun s => s) (fun s _ => s) (fun s _ => s) (fun _ => "")
    (Document.mk [("b", Dataset.mk 1 "numeric" "1D" "3" [] None [] None "" "")])
    ["name"; "size"]
    (TMNode.mk (DatasetNodeClass ["name"; "size"]) ["a"; "3"] []) 1 "a").
  - reflexivity.
  - reflexivity.
Defined.

(** ** Downsampling *)

Lemma slice_step_from_nth {A} (step skip : nat) (l : list A) (i : nat) :
  (1 <= step)%nat ->
  nth_error (slice_step_from step skip l) i = nth_error l (skip + i * step).
Proof.
  intros Hs. revert skip i; induction l as [|x l IH]; intros skip i; simpl.
  - now rewrite !nth_error_nil.
  - destruct skip as [|k].
    + destruct i as [|i]; simpl; [reflexivity|].
      rewrite IH. replace (step + i * step)%nat with (S (step - 1 + i * step)) by lia.
      reflexivity.
    + rewrite IH. reflexivity.
Qed.

(** C6.  With fewer samples than the height the preview uses them all;
    otherwise it takes the samples at the indices 0, stride, 2 stride, ...
    with stride = floor(n / height) + 1.  The preview is drawn with
    height 70. *)
Theorem downsample_stride {A} (data : list A) (height : Z) :
  0 < height ->
  (len data < height -> downsample data height = data) /\
  (height <= len data ->
   let stride := len data / height + 1 in
   downsample data height = slice_step data stride /\
   forall i : nat,
     nth_error (downsample data height) i = nth_error data (i * Z.to_nat stride)).
Proof.
  intros Hh. unfold downsample. split.
  - intros H. apply Z.ltb_lt in H. now rewrite H.
  - intros H. cbv zeta.
    assert (E : (len data <? height) = false) by (apply Z.ltb_ge; lia).
    rewrite E. split; [reflexivity|].
    intros i. unfold slice_step. rewrite slice_step_from_nth; [reflexivity|].
    assert (0 <= len data / height) by (apply Z.div_pos; unfold len; lia).
    lia.
Qed.

Lemma downsample_stride_witness :
  downsample (seq 0 200) 70 = slice_step (seq 0 200) 3 /\
  nth_error (downsample (seq 0 200) 70) 5 = Some 15%nat.
Proof.
  destruct (downsample_stride (seq 0 200) 70) as [_ H]; [lia|].
  destruct H as [H1 H2]; [vm_compute; discriminate|].
  split; [exact H1|]. rewrite H2. reflexivity.
Defined.

(** ** Floats *)

Lemma is_finite_sf (x : float) :
  PrimFloat.is_finite x = negb (sf_nonfinite (Prim2SF x)).
Proof.
  unfold PrimFloat.is_finite, PrimFloat.is_nan, PrimFloat.is_infinity.
  rewrite !FloatAxioms.eqb_spec, FloatAxioms.abs_spec.
  change (Prim2SF infinity) with (S754_infinity false). unfold SFeqb.
  destruct (Prim2SF x) as [s|s| |s m e]; try reflexivity; try (destruct s; reflexivity).
  simpl. destruct s; rewrite Z.compare_refl, Pos.compare_cont_refl; reflexivity.
Qed.

Lemma is_nan_sf (x : float) : PrimFloat.is_nan x = sf_is_nan (Prim2SF x).
Proof.
  unfold PrimFloat.is_nan. rewrite FloatAxioms.eqb_spec. unfold SFeqb.
  destruct (Prim2SF x) as [s|s| |s m e]; try reflexivity; try (destruct s; reflexivity).
  simpl. destruct s; rewrite Z.compare_refl, Pos.compare_cont_refl; reflexivity.
Qed.

Lemma sub_nonfinite (a b : spec_float) :
  sf_nonfinite a = true -> sf_nonfinite b = true -> sf_nonfinite (SF64sub a b) = true.
Proof.
  destruct a as [sa|sa| |sa ma ea]; destruct b as [sb|sb| |sb mb eb];
    try discriminate; intros _ _; try reflexivity.
  destruct sa, sb; reflexivity.
Qed.

Lemma div_nonfinite (a b : spec_float) :
  sf_nonfinite a = true -> sf_nonfinite b = true -> SF64div a b = S754_nan.
Proof.
  destruct a as [sa|sa| |sa ma ea]; destruct b as [sb|sb| |sb mb eb];
    try discriminate; reflexivity.
Qed.

Lemma div_by_zero_or_nan (a d : spec_float) :
  sf_zero_or_nan d = true -> sf_nonfinite (SF64div a d) = true.
Proof.
  destruct a as [sa|sa| |sa ma ea]; destruct d as [sd|sd| |sd md ed];
    try discriminate; reflexivity.
Qed.

Lemma mul_70_nonfinite (a : spec_float) :
  sf_nonfinite a = true -> sf_nonfinite (SF64mul a (Prim2SF 70)) = true.
Proof.
  change (Prim2SF 70) with (S754_finite false 4925812092436480 (-46)).
  destruct a as [sa|sa| |sa ma ea]; try discriminate; reflexivity.
Qed.

Lemma sub_of_equal (a b : spec_float) :
  SFeqb a b = true -> sf_zero_or_nan (SF64sub b a) = true.
Proof.
  unfold SFeqb.
  destruct a as [sa|sa| |sa ma ea]; destruct b as [sb|sb| |sb mb eb];
    try discriminate;
    try (destruct sa; discriminate); try (destruct sb; discriminate).
  - intros _. destruct sa, sb; reflexivity.
  - destruct sa, sb; try discriminate; reflexivity.
  - intros H.
    assert (E : sa = sb /\ ea = eb /\ ma = mb).
    { simpl in H. destruct sa, sb; try discriminate;
        destruct (Z.compare ea eb) eqn:Ee; try discriminate;
        apply Z.compare_eq in Ee;
        destruct (Pos.compare_cont Eq ma mb) eqn:Em; try discriminate;
        apply Pos.compare_eq in Em; auto. }
    destruct E as [-> [-> ->]]. unfold SF64sub, SFsub. rewrite Z.sub_diag. reflexivity.
Qed.

(** Whatever the sample value, normalising with a minimum equal to the
    maximum gives a value that is not finite. *)
Lemma normalize_equal_minmax (v minval maxval : float) :
  PrimFloat.eqb minval maxval = true ->
  PrimFloat.is_finite ((v - minval) / (maxval - minval) * 70) = false.
Proof.
  intros H. rewrite FloatAxioms.eqb_spec in H.
  rewrite is_finite_sf, FloatAxioms.mul_spec, FloatAxioms.div_spec.
  rewrite (FloatAxioms.sub_spec maxval minval).
  rewrite mul_70_nonfinite; [reflexivity|].
  apply div_by_zero_or_nan. now apply sub_of_equal.
Qed.

(** A sample value, a minimum and a maximum that are all not finite
    normalise to NaN. *)
Lemma normalize_nonfinite (v minval maxval : float) :
  PrimFloat.is_finite v = false ->
  PrimFloat.is_finite minval = false ->
  PrimFloat.is_finite maxval = false ->
  PrimFloat.is_finite ((v - minval) / (maxval - minval) * 70) = false.
Proof.
  rewrite !is_finite_sf, !negb_false_iff. intros Hv Hm HM.
  rewrite FloatAxioms.mul_spec, FloatAxioms.div_spec, !FloatAxioms.sub_spec.
  rewrite div_nonfinite; [reflexivity| |]; now apply sub_nonfinite.
Qed.

Lemma SFcompare_key (a b : spec_float) :
  SFcompare a b =
  if sf_is_nan a || sf_is_nan b then None
  else Some (lex Z.compare (sf_key a) (sf_key b)).
Proof.
  destruct a as [sa|sa| |sa ma ea]; destruct b as [sb|sb| |sb mb eb];
    try reflexivity;
    try (destruct sa; reflexivity); try (destruct sb; reflexivity);
    try (destruct sa, sb; reflexivity).
  destruct sa, sb; try reflexivity; simpl.
  - rewrite Z.compare_opp, (Z.compare_antisym ea eb).
    destruct (Z.compare ea eb); simpl; try reflexivity.
    destruct (Pos.compare_cont Eq ma mb) eqn:E; unfold Pos.compare; rewrite E; reflexivity.
  - destruct (Z.compare ea eb); simpl; try reflexivity.
    destruct (Pos.compare_cont Eq ma mb) eqn:E; unfold Pos.compare; rewrite E; reflexivity.
Qed.

Lemma Z_compare_trans (a b c : Z) :
  Z.compare a b = Lt -> Z.compare b c = Lt -> Z.compare a c = Lt.
Proof. rewrite !Z.compare_lt_iff. apply Z.lt_trans. Qed.

Lemma leb_key (a b : float) :
  PrimFloat.leb a b =
  negb (PrimFloat.is_nan a || PrimFloat.is_nan b) &&
  match lex Z.compare (sf_key (Prim2SF a)) (sf_key (Prim2SF b)) with
  | Gt => false
  | _ => true
  end.
Proof.
  rewrite FloatAxioms.leb_spec, !is_nan_sf. unfold SFleb. rewrite SFcompare_key.
  destruct (sf_is_nan (Prim2SF a) || sf_is_nan (Prim2SF b)); [reflexivity|].
  destruct (lex Z.compare _ _); reflexivity.
Qed.

Lemma leb_nan_l (a b : float) : PrimFloat.is_nan a = true -> PrimFloat.leb a b = false.
Proof. intros H. rewrite leb_key, H. reflexivity. Qed.

Lemma leb_nan_r (a b : float) : PrimFloat.is_nan b = true -> PrimFloat.leb a b = false.
Proof. intros H. rewrite leb_key, H, orb_true_r. reflexivity. Qed.

Lemma leb_refl (a : float) : PrimFloat.is_nan a = false -> PrimFloat.leb a a = true.
Proof.
  intros H. rewrite leb_key, H.
  assert (E : lex Z.compare (sf_key (Prim2SF a)) (sf_key (Prim2SF a)) = Eq)
    by (apply lex_eq; [apply Z.compare_eq_iff | reflexivity]).
  now rewrite E.
Qed.

Lemma leb_total (a b : float) :
  PrimFloat.is_nan a = false -> PrimFloat.is_nan b = false ->
  PrimFloat.leb a b = true \/ PrimFloat.leb b a = true.
Proof.
  intros Ha Hb. rewrite !leb_key, Ha, Hb.
  rewrite (lex_antisym Z Z.compare (fun x y => Z.compare_antisym y x)
             (sf_key (Prim2SF b))).
  destruct (lex Z.compare (sf_key (Prim2SF a)) (sf_key (Prim2SF b))); simpl; auto.
Qed.

Lemma leb_trans (a b c : float) :
  PrimFloat.leb a b = true -> PrimFloat.leb b c = true -> PrimFloat.leb a c = true.
Proof.
  rewrite !leb_key, !andb_true_iff, !negb_true_iff, !orb_false_iff.
  intros [[Ha Hb] H1] [[_ Hc] H2]. repeat split; auto.
  pose proof (lex_le_trans Z Z.compare Z.compare_eq_iff Z_compare_trans
                (sf_key (Prim2SF a)) (sf_key (Prim2SF b)) (sf_key (Prim2SF c))) as Ht.
  destruct (lex Z.compare (sf_key (Prim2SF a)) (sf_key (Prim2SF c))); auto.
  exfalso. apply Ht; auto.
  - destruct (lex Z.compare (sf_key (Prim2SF a)) (sf_key (Prim2SF b))); congruence.
  - destruct (lex Z.compare (sf_key (Prim2SF b)) (sf_key (Prim2SF c))); congruence.
Qed.

Section Pick.

Variable R : float -> float -> bool.

Hypothesis R_nan_l : forall a b, PrimFloat.is_nan a = true -> R a b = false.
Hypothesis R_refl : forall a, PrimFloat.is_nan a = false -> R a a = true.
Hypothesis R_total : forall a b,
  PrimFloat.is_nan a = false -> PrimFloat.is_nan b = false ->
  R a b = true \/ R b a = true.
Hypothesis R_trans : forall a b c, R a b = true -> R b c = true -> R a c = true.

Lemma pick_nan_r (a b : float) : PrimFloat.is_nan b = true -> pick R a b = a.
Proof. unfold pick. intros ->. now rewrite orb_true_r. Qed.

Lemma pick_nan_l (a b : float) :
  PrimFloat.is_nan a = true -> PrimFloat.is_nan b = false -> pick R a b = b.
Proof. unfold pick. intros Ha Hb. now rewrite (R_nan_l a b Ha), Hb. Qed.

Lemma pick_cases (a b : float) : pick R a b = a \/ pick R a b = b.
Proof. unfold pick. destruct (R a b || PrimFloat.is_nan b); auto. Qed.

Lemma fold_pick_in (l : list float) (v : float) : In (fold_left (pick R) l v) (v :: l).
Proof.
  revert v; induction l as [|b l IH]; intros v; simpl; [now left|].
  destruct (IH (pick R v b)) as [H|H]; [|right; right; exact H].
  destruct (pick_cases v b) as [E|E]; [left|right; left]; rewrite <- H; now symmetry.
Qed.

Lemma fold_pick_skip_nan (l : list float) (v : float) :
  fold_left (pick R) l v = fold_left (pick R) (not_nan_values l) v.
Proof.
  revert v; induction l as [|b l IH]; intros v; simpl; [reflexivity|].
  destruct (PrimFloat.is_nan b) eqn:E; simpl.
  - rewrite pick_nan_r by assumption. apply IH.
  - apply IH.
Qed.

Lemma fold_pick_nan_head (l : list float) (v : float) :
  PrimFloat.is_nan v = true ->
  fold_left (pick R) l v =
  match not_nan_values l with
  | [] => v
  | w :: l' => fold_left (pick R) l' w
  end.
Proof.
  intros Hv. induction l as [|b l IH]; simpl; [reflexivity|].
  destruct (PrimFloat.is_nan b) eqn:E; simpl.
  - rewrite pick_nan_r by assumption. apply IH.
  - rewrite pick_nan_l by assumption. apply fold_pick_skip_nan.
Qed.

(** The fold ignores the NaN of the sample. *)
Lemma fold_pick_ignores_nan (y : list float) :
  not_nan_values y <> [] ->
  match y with [] => Raise ValueError | v :: l => Ok (fold_left (pick R) l v) end =
  match not_nan_values y with
  | [] => Raise ValueError
  | v :: l => Ok (fold_left (pick R) l v)
  end.
Proof.
  destruct y as [|v l]; [reflexivity|]. simpl.
  destruct (PrimFloat.is_nan v) eqn:E; simpl.
  - intros Hne. rewrite (fold_pick_nan_head l v E).
    destruct (not_nan_values l); [contradiction | reflexivity].
  - intros _. now rewrite fold_pick_skip_nan.
Qed.

(** On a sample without NaN the fold is a bound of the sample. *)
Lemma fold_pick_bound (l : list float) (v : float) :
  Forall (fun w => PrimFloat.is_nan w = false) (v :: l) ->
  forall w, In w (v :: l) -> R (fold_left (pick R) l v) w = true.
Proof.
  revert v. induction l as [|b l IH]; intros v Hn w Hw.
  - destruct Hw as [<-|[]]. inversion Hn; subst. now apply R_refl.
  - inversion Hn as [|? ? Hv Hn']; subst. inversion Hn' as [|? ? Hb Hl]; subst.
    cbn [fold_left].
    assert (Hp : PrimFloat.is_nan (pick R v b) = false)
      by (destruct (pick_cases v b) as [E|E]; now rewrite E).
    assert (Hpv : R (pick R v b) v = true).
    { unfold pick. rewrite Hb, orb_false_r. destruct (R v b) eqn:E; [now apply R_refl|].
      destruct (R_total v b Hv Hb); congruence. }
    assert (Hpb : R (pick R v b) b = true).
    { unfold pick. rewrite Hb, orb_false_r. destruct (R v b) eqn:E; [exact E|].
      now apply R_refl. }
    assert (Hbound : forall u, In u (pick R v b :: l) ->
                               R (fold_left (pick R) l (pick R v b)) u = true)
      by (apply IH; now constructor).
    destruct Hw as [<-|[<-|Hw]].
    + eapply R_trans; [apply Hbound; now left | exact Hpv].
    + eapply R_trans; [apply Hbound; now left | exact Hpb].
    + apply Hbound. now right.
Qed.

End Pick.

Lemma fmin_pick : fmin = pick PrimFloat.leb.
Proof. reflexivity. Qed.

Lemma fmax_pick : fmax = pick geb.
Proof. reflexivity. Qed.

Lemma geb_nan_l (a b : float) : PrimFloat.is_nan a = true -> geb a b = false.
Proof. unfold geb. apply leb_nan_r. Qed.

Lemma geb_total (a b : float) :
  PrimFloat.is_nan a = false -> PrimFloat.is_nan b = false ->
  geb a b = true \/ geb b a = true.
Proof. unfold geb. intros Ha Hb. destruct (leb_total a b Ha Hb); auto. Qed.

Lemma geb_trans (a b c : float) : geb a b = true -> geb b c = true -> geb a c = true.
Proof. unfold geb. intros H1 H2. eapply leb_trans; eauto. Qed.

(** [nanmin] and [nanmax] are unchanged when the NaN are removed from a
    sample that has another value. *)
Lemma nanmin_ignores_nan (y : list float) :
  not_nan_values y <> [] -> nanmin y = nanmin (not_nan_values y).
Proof. unfold nanmin. rewrite fmin_pick. apply fold_pick_ignores_nan, leb_nan_l. Qed.

Lemma nanmax_ignores_nan (y : list float) :
  not_nan_values y <> [] -> nanmax y = nanmax (not_nan_values y).
Proof. unfold nanmax. rewrite fmax_pick. apply fold_pick_ignores_nan, geb_nan_l. Qed.

(** On a sample without NaN, [nanmin] is a value of the sample below all
    the others, and [nanmax] one above all the others. *)
Lemma nanmin_least (y : list float) (m : float) :
  Forall (fun w => PrimFloat.is_nan w = false) y -> nanmin y = Ok m ->
  In m y /\ forall w, In w y -> PrimFloat.leb m w = true.
Proof.
  destruct y as [|v l]; [discriminate|]. intros Hn H. inversion H; subst.
  rewrite fmin_pick. split; [apply fold_pick_in|].
  exact (fold_pick_bound PrimFloat.leb leb_refl leb_total leb_trans l v Hn).
Qed.

Lemma nanmax_greatest (y : list float) (m : float) :
  Forall (fun w => PrimFloat.is_nan w = false) y -> nanmax y = Ok m ->
  In m y /\ forall w, In w y -> PrimFloat.leb w m = true.
Proof.
  destruct y as [|v l]; [discriminate|]. intros Hn H. inversion H; subst.
  rewrite fmax_pick. split; [apply fold_pick_in|].
  exact (fold_pick_bound geb (fun a Ha => leb_refl a Ha) geb_total geb_trans l v Hn).
Qed.

Lemma nanmin_in (y : list float) (m : float) : nanmin y = Ok m -> In m y.
Proof.
  destruct y as [|v l]; [discriminate|]. intros H. inversion H.
  rewrite fmin_pick. apply fold_pick_in.
Qed.

Lemma nanmax_in (y : list float) (m : float) : nanmax y = Ok m -> In m y.
Proof.
  destruct y as [|v l]; [discriminate|]. intros H. inversion H.
  rewrite fmax_pick. apply fold_pick_in.
Qed.

(** ** The preview *)

Lemma slice_step_from_incl {A} (step skip : nat) (l : list A) (v : A) :
  In v (slice_step_from step skip l) -> In v l.
Proof.
  revert skip; induction l as [|x l IH]; intros skip; simpl; [auto|].
  destruct skip; simpl; intros H.
  - destruct H as [H|H]; [now left | right; eapply IH; eauto].
  - right. eapply IH; eauto.
Qed.

Lemma downsample_incl {A} (data : list A) (height : Z) (v : A) :
  In v (downsample data height) -> In v data.
Proof.
  unfold downsample. destruct (len data <? height); [auto|].
  apply slice_step_from_incl.
Qed.


Lemma select_none {A} (mask : list bool) (a : list A) :
  Forall (fun b => b = false) mask -> select mask a = [].
Proof.
  intros H. revert a; induction H as [|b mask -> _ IH]; intros a; simpl.
  - reflexivity.
  - destruct a; [reflexivity | apply IH].
Qed.

(** When no normalised value is finite, the body of the [try] raises one
    of the two exceptions that [getPreviewPixmap] catches. *)
Lemma preview_body_no_finite (data : list float) :
  (forall minval maxval v,
     nanmin (downsample data 70) = Ok minval ->
     nanmax (downsample data 70) = Ok maxval ->
     In v (downsample data 70) ->
     PrimFloat.is_finite ((v - minval) / (maxval - minval) * 70) = false) ->
  preview_body data = Raise ValueError \/ preview_body data = Raise ZeroDivisionError.
Proof.
  intros H. unfold preview_body.
  destruct (downsample data 70) as [|v0 l] eqn:E; [now left|].
  right. cbn [nanmin nanmax bind].
  set (minval := fold_left fmin l v0) in *. set (maxval := fold_left fmax l v0) in *.
  assert (Hmask : Forall (fun b => b = false)
                    (map PrimFloat.is_finite (normalize minval maxval (v0 :: l)))).
  { unfold normalize. rewrite map_map. apply Forall_forall. intros b Hb.
    apply in_map_iff in Hb as [v [<- Hv]]. now apply H. }
  rewrite (select_none _ _ Hmask). reflexivity.
Qed.

Lemma getPreviewPixmap_no_finite (ds : Dataset.t) :
  previewable ds ->
  (forall minval maxval v,
     nanmin (downsample (Dataset.data ds) 70) = Ok minval ->
     nanmax (downsample (Dataset.data ds) 70) = Ok maxval ->
     In v (downsample (Dataset.data ds) 70) ->
     PrimFloat.is_finite ((v - minval) / (maxval - minval) * 70) = false) ->
  getPreviewPixmap ds = Ok None.
Proof.
  intros [Hd Ht] H. unfold getPreviewPixmap. rewrite Hd, Ht.
  cbn [Z.eqb negb orb]. rewrite String.eqb_refl. cbn [negb].
  destruct (preview_body_no_finite _ H) as [-> | ->]; reflexivity.
Qed.

(** Equal minimum and maximum: no preview. *)
Lemma getPreviewPixmap_equal_minmax (ds : Dataset.t) (minval maxval : float) :
  previewable ds ->
  nanmin (downsample (Dataset.data ds) 70) = Ok minval ->
  nanmax (downsample (Dataset.data ds) 70) = Ok maxval ->
  PrimFloat.eqb minval maxval = true ->
  getPreviewPixmap ds = Ok None.
Proof.
  intros Hp Hmin Hmax Heq. apply getPreviewPixmap_no_finite; [exact Hp|].
  intros m M v Hm HM _. rewrite Hmin in Hm. rewrite Hmax in HM.
  inversion Hm; inversion HM; subst. now apply normalize_equal_minmax.
Qed.

(** No finite value in the sample: no preview. *)
Lemma getPreviewPixmap_nonfinite_sample (ds : Dataset.t) :
  previewable ds ->
  (forall v, In v (downsample (Dataset.data ds) 70) -> PrimFloat.is_finite v = false) ->
  getPreviewPixmap ds = Ok None.
Proof.
  intros Hp Hall. apply getPreviewPixmap_no_finite; [exact Hp|].
  intros m M v Hm HM Hv. apply normalize_nonfinite; auto.
  - apply Hall. now apply nanmin_in.
  - apply Hall. now apply nanmax_in.
Qed.

Lemma is_finite_eqb_refl (c : float) :
  PrimFloat.is_finite c = true -> PrimFloat.eqb c c = true.
Proof.
  unfold PrimFloat.is_finite, PrimFloat.is_nan.
  destruct (PrimFloat.eqb c c); [reflexivity | discriminate].
Qed.

(** C4.  [getPreviewPixmap] returns [None], without raising, for a dataset
    that is not 1-D or not numeric, and for a 1-D numeric dataset whose data
    are empty, all equal, or all non-finite; for the 1-D numeric dataset
    with the data 1, 2, ..., 200 it returns a pixmap. *)
Theorem getPreviewPixmap_absent_or_pixmap (ds : Dataset.t) :
  (Dataset.dimensions ds <> 1 \/ Dataset.datatype ds <> "numeric" ->
   getPreviewPixmap ds = Ok None) /\
  (previewable ds ->
   Dataset.data ds = [] \/
   (exists c, forall v, In v (Dataset.data ds) -> v = c) \/
   (forall v, In v (Dataset.data ds) -> PrimFloat.is_finite v = false) ->
   getPreviewPixmap ds = Ok None) /\
  (previewable ds ->
   Dataset.data ds = map float_of_Z (map Z.of_nat (seq 1 200)) ->
   exists pixmap, getPreviewPixmap ds = Ok (Some pixmap)).
Proof.
  split; [|split].
  - intros H. unfold getPreviewPixmap.
    destruct (Z.eqb_spec (Dataset.dimensions ds) 1) as [Hd|Hd]; [|reflexivity].
    destruct (String.eqb_spec (Dataset.datatype ds) "numeric") as [Ht|Ht]; [|reflexivity].
    tauto.
  - intros Hp [Hempty|[[c Hc]|Hnf]].
    + apply getPreviewPixmap_nonfinite_sample; [exact Hp|].
      intros v Hv. apply downsample_incl in Hv. rewrite Hempty in Hv. contradiction.
    + apply getPreviewPixmap_no_finite; [exact Hp|].
      intros m M v Hm HM Hv.
      apply nanmin_in, downsample_incl, Hc in Hm.
      apply nanmax_in, downsample_incl, Hc in HM.
      apply downsample_incl, Hc in Hv. subst.
      destruct (PrimFloat.is_finite c) eqn:E.
      * apply normalize_equal_minmax. now apply is_finite_eqb_refl.
      * now apply normalize_nonfinite.
    + apply getPreviewPixmap_nonfinite_sample; [exact Hp|].
      intros v Hv. apply Hnf. now apply downsample_incl in Hv.
  - intros [Hd Ht] Hdata. unfold getPreviewPixmap. rewrite Hd, Ht, Hdata.
    vm_compute. eexists. reflexivity.
Qed.

Lemma getPreviewPixmap_absent_or_pixmap_witness :
  getPreviewPixmap (Dataset.mk 1 "numeric" "1D" "4" [] None [5; 5; 5; 5]%float None "" "")
  = Ok None.
Proof.
  apply (proj1 (proj2 (getPreviewPixmap_absent_or_pixmap
    (Dataset.mk 1 "numeric" "1D" "4" [] None [5; 5; 5; 5]%float None "" "")))).
  - split; reflexivity.
  - right. left. exists 5%float. simpl. intuition.
Defined.

Lemma finite_values_nil (y : list float) :
  finite_values y = [] -> forall v, In v y -> PrimFloat.is_finite v = false.
Proof.
  unfold finite_values. intros H v Hv.
  destruct (PrimFloat.is_finite v) eqn:E; [|reflexivity].
  assert (X : In v (List.filter PrimFloat.is_finite y)) by (apply filter_In; auto).
  rewrite H in X. contradiction.
Qed.

Lemma not_nan_values_In (y : list float) (v : float) :
  In v (not_nan_values y) <-> In v y /\ PrimFloat.is_nan v = false.
Proof. unfold not_nan_values. rewrite filter_In, negb_true_iff. reflexivity. Qed.

(** The body of the [try] normalises and draws with [preview_minmax]. *)
Lemma preview_body_minmax (data : list float) :
  preview_body data =
  (minval <- fst (preview_minmax data) ;;
   maxval <- snd (preview_minmax data) ;;
   preview_draw minval maxval (downsample data 70)).
Proof. reflexivity. Qed.

(** C5, as amended.  The minimum and the maximum that normalise the y
    values are those of the downsampled sample with the NaN ignored, and
    only the NaN: when the sample has a value that is not NaN, they are the
    least and the greatest of these values, infinities included.  When the
    sample has no finite value (removing the non-finite values empties
    it), or the minimum equals the maximum, there is no preview. *)
Theorem preview_minmax_ignores_nan_only (data : list float) :
  let y := downsample data 70 in
  preview_body data =
    (minval <- fst (preview_minmax data) ;;
     maxval <- snd (preview_minmax data) ;;
     preview_draw minval maxval y) /\
  (not_nan_values y <> [] ->
   preview_minmax data = (nanmin (not_nan_values y), nanmax (not_nan_values y))) /\
  (forall minval maxval,
     nanmin (not_nan_values y) = Ok minval ->
     nanmax (not_nan_values y) = Ok maxval ->
     In minval y /\ In maxval y /\
     forall w, In w y -> PrimFloat.is_nan w = false ->
               PrimFloat.leb minval w = true /\ PrimFloat.leb w maxval = true) /\
  (forall ds, previewable ds -> Dataset.data ds = data ->
     (finite_values y = [] -> getPreviewPixmap ds = Ok None) /\
     (forall minval maxval,
        preview_minmax data = (Ok minval, Ok maxval) ->
        PrimFloat.eqb minval maxval = true ->
        getPreviewPixmap ds = Ok None)).
Proof.
  intros y. split; [apply preview_body_minmax|]. split; [|split].
  - intros Hne. unfold preview_minmax. fold y.
    now rewrite nanmin_ignores_nan, nanmax_ignores_nan.
  - intros minval maxval Hmin Hmax.
    assert (Hn : Forall (fun w => PrimFloat.is_nan w = false) (not_nan_values y)).
    { apply Forall_forall. intros w Hw. now apply not_nan_values_In in Hw. }
    destruct (nanmin_least _ _ Hn Hmin) as [H1 H2].
    destruct (nanmax_greatest _ _ Hn Hmax) as [H3 H4].
    split; [now apply not_nan_values_In in H1|].
    split; [now apply not_nan_values_In in H3|].
    intros w Hw Hnan. split; [apply H2 | apply H4]; now apply not_nan_values_In.
  - intros ds Hp Hdata. split.
    + intros Hnil. apply getPreviewPixmap_nonfinite_sample; [exact Hp|].
      rewrite Hdata. now apply finite_values_nil.
    + intros minval maxval Hmm Heq. unfold preview_minmax in Hmm. inversion Hmm.
      apply (getPreviewPixmap_equal_minmax ds minval maxval); auto; now rewrite Hdata.
Qed.

Lemma preview_minmax_ignores_nan_only_witness :
  preview_minmax [nan; 3; 1]%float = (Ok 1%float, Ok 3%float).
Proof.
  destruct (preview_minmax_ignores_nan_only [nan; 3; 1]%float) as [_ [H _]].
  rewrite H; [reflexivity | vm_compute; discriminate].
Defined.

(** C5 as stated fails: an infinite value of the sample is not ignored.
    For the data 1, 2, +inf the maximum used is +inf, not 2, the greatest
    finite value; the two finite points are then drawn on the bottom
    line. *)
Lemma preview_minmax_infinity_counterexample :
  let data := [1; 2; infinity]%float in
  preview_minmax data = (Ok 1%float, Ok infinity) /\
  spec_minmax (downsample data 70) = (Ok 1%float, Ok 2%float) /\
  preview_minmax data <> spec_minmax (downsample data 70) /\
  getPreviewPixmap (Dataset.mk 1 "numeric" "1D" "3" [] None data None "" "") =
    Ok (Some [DrawPolyline [(0, 70); (70, 70)]%float;
              DrawLine 0 70 70 70; DrawLine 0 0 0 70]).
Proof.
  cbv zeta. repeat split; try reflexivity.
  intros H.
  apply (f_equal (fun p => match snd p with
                           | Ok m => PrimFloat.is_finite m
                           | Raise _ => false
                           end)) in H.
  vm_compute in H. discriminate.
Qed.

(** * Further properties of the browser *)

(** ** The datasets a tree shows *)

Lemma dataset_nodes_leaves (l : list TMNode.t) :
  Forall (fun c => is_dataset_node (TMNode.cls c) = true /\ TMNode.childnodes c = []) l ->
  flat_map dataset_nodes l = l.
Proof.
  induction 1 as [|c l [Hc Hch] _ IH]; [reflexivity|].
  cbn [flat_map]. rewrite IH. destruct c as [cls d ch]. cbn in Hc, Hch. subst ch.
  cbn [dataset_nodes flat_map]. rewrite Hc. reflexivity.
Qed.

Lemma dsnodes_are_leaves (cols : list string) (items : list (string * Dataset.t)) :
  Forall (fun c => is_dataset_node (TMNode.cls c) = true /\ TMNode.childnodes c = [])
         (insert_all (map (dsnode cols) items) []).
Proof.
  eapply Permutation_Forall; [symmetry; apply insert_all_perm|]. simpl.
  apply Forall_forall. intros c Hc. apply in_map_iff in Hc as [kv [<- _]]. now split.
Qed.

Lemma makeGrpTreeNone_nodes (tr : string -> string) (self : DatasetRelationModel.t) :
  unique_names (DatasetRelationModel.doc self) ->
  exists tree,
    makeGrpTreeNone tr self = Ok tree /\
    forall c, In c (dataset_nodes tree) <->
      exists kv, In kv (Document.data (DatasetRelationModel.doc self)) /\
                 kept self ["name"; "size"; "type"; "linkfile"] kv = true /\
                 c = dsnode ["name"; "size"; "type"; "linkfile"] kv.
Proof.
  intros Hu. unfold makeGrpTreeNone.
  rewrite makeGrpTreeNone_loop_ok by (auto using incl_refl).
  rewrite fold_insertChildSorted. cbn [TMNode.cls TMNode.data TMNode.childnodes].
  eexists. split; [reflexivity|]. intros c.
  cbn [dataset_nodes is_dataset_node app]. rewrite dataset_nodes_leaves by apply dsnodes_are_leaves.
  split.
  - intros Hc. apply (Permutation_in _ (insert_all_perm _ _)) in Hc. simpl in Hc.
    apply in_map_iff in Hc as [kv [<- Hkv]]. apply filter_In in Hkv as [H1 H2].
    exists kv. auto.
  - intros [kv [H1 [H2 ->]]].
    apply (Permutation_in _ (Permutation_sym (insert_all_perm _ _))). simpl.
    apply in_map. apply filter_In. auto.
Qed.

Lemma makeGrpTree_dataset_nodes (self : DatasetRelationModel.t)
  (coltitles cols : list string) (grouper : Dataset.t -> list string) (cls : NodeClass) :
  let items := Document.data (DatasetRelationModel.doc self) in
  unique_names (DatasetRelationModel.doc self) ->
  Forall (fun kv => NoDup (grouper (snd kv))) items ->
  (forall ds, grouper ds <> []) ->
  is_dataset_node cls = false ->
  exists tree,
    makeGrpTree self coltitles ("name" :: cols) grouper cls = Ok tree /\
    forall c, In c (dataset_nodes tree) <->
      exists kv, In kv items /\ kept self ("name" :: cols) kv = true /\
                 c = dsnode ("name" :: cols) kv.
Proof.
  intros items Hu Hg Hne Hcls.
  destruct (makeGrpTree_spec self coltitles cols grouper cls Hu Hg)
    as [groups [Htree [Hnd [Hkeys Hnodes]]]].
  eexists. split; [exact Htree|]. intros c.
  cbn [dataset_nodes is_dataset_node app]. rewrite in_flat_map. split.
  - intros [g [Hg' Hc]]. apply tree_node_in_groups in Hg' as [grp Hgin].
    rewrite (Hnodes _ _ Hgin) in Hc. cbn [dataset_nodes] in Hc. rewrite Hcls in Hc.
    cbn [app] in Hc. rewrite dataset_nodes_leaves in Hc by apply dsnodes_are_leaves.
    apply (group_children self cols grouper grp Hu) in Hc as [kv [-> [H1 [H2 _]]]].
    exists kv. auto.
  - intros [kv [H1 [H2 ->]]].
    destruct (grouper (snd kv)) as [|grp rest] eqn:E; [now apply Hne in E|].
    destruct (key_has_node groups grp) as [g Hgin].
    { apply Hkeys. exists kv. rewrite E. simpl. auto. }
    exists g. split; [eapply group_node_in_tree; eauto|].
    rewrite (Hnodes _ _ Hgin). cbn [dataset_nodes]. rewrite Hcls. cbn [app].
    rewrite dataset_nodes_leaves by apply dsnodes_are_leaves.
    apply (group_children self cols grouper grp Hu). exists kv.
    rewrite E. simpl. auto.
Qed.

Lemma getgrp_nonempty (tr : string -> string) (ds : Dataset.t) : getgrp tr ds <> [].
Proof.
  unfold getgrp. destruct (Dataset.tags ds) as [|t l] eqn:E; [discriminate|].
  intros H. pose proof (sorted_perm (t :: l)) as Hp. rewrite H in Hp.
  apply Permutation_nil in Hp. discriminate.
Qed.

(** Whatever the grouping mode, the dataset nodes of the tree that
    [refresh] builds are exactly the nodes of the datasets of the document
    that pass the filter, tested on the columns of the mode. *)
Lemma refresh_tree_dataset_nodes (tr : string -> string) (self : DatasetRelationModel.t) :
  let grouping := DatasetRelationModel.grouping self in
  unique_names (DatasetRelationModel.doc self) ->
  tags_are_sets (DatasetRelationModel.doc self) ->
  In grouping grpnames ->
  exists tree,
    refresh_tree tr self = Ok tree /\
    forall c, In c (dataset_nodes tree) <->
      exists kv, In kv (Document.data (DatasetRelationModel.doc self)) /\
                 kept self (cols_of grouping) kv = true /\
                 c = dsnode (cols_of grouping) kv.
Proof.
  intros grouping Hu Hts Hin. unfold refresh_tree. fold grouping.
  assert (Hone : forall (f : Dataset.t -> string) (ds : Dataset.t), [f ds] <> [])
    by discriminate.
  simpl in Hin.
  destruct Hin as [<-|[<-|[<-|[<-|[<-|[]]]]]]; cbn [String.eqb Ascii.eqb Bool.eqb];
    unfold cols_of; cbn [String.eqb Ascii.eqb Bool.eqb].
  - now apply makeGrpTreeNone_nodes.
  - apply makeGrpTree_dataset_nodes; auto. apply (singleton_groups datasetLinkFile).
  - apply makeGrpTree_dataset_nodes; auto. apply (singleton_groups Dataset.dstype).
  - apply makeGrpTree_dataset_nodes; auto. apply (singleton_groups Dataset.userSize).
  - apply makeGrpTree_dataset_nodes; auto.
    + now apply getgrp_all_NoDup.
    + apply getgrp_nonempty.
Qed.

Lemma cols_of_name (grouping : string) : exists cols, cols_of grouping = "name" :: cols.
Proof.
  unfold cols_of.
  destruct (String.eqb grouping "filename"); [eexists; reflexivity|].
  destruct (String.eqb grouping "size"); [eexists; reflexivity|].
  destruct (String.eqb grouping "type"); eexists; reflexivity.
Qed.

Lemma item_unique (doc : Document.t) (name : string) (ds ds' : Dataset.t) :
  unique_names doc -> In (name, ds) (Document.data doc) ->
  In (name, ds') (Document.data doc) -> ds = ds'.
Proof.
  intros Hu H1 H2. pose proof (getitem_in _ _ _ Hu H1). pose proof (getitem_in _ _ _ Hu H2).
  congruence.
Qed.

(** The names the tree shows: those of the datasets that pass the filter. *)
Lemma refresh_tree_shown (tr : string -> string) (self : DatasetRelationModel.t) :
  let grouping := DatasetRelationModel.grouping self in
  unique_names (DatasetRelationModel.doc self) ->
  tags_are_sets (DatasetRelationModel.doc self) ->
  In grouping grpnames ->
  exists tree,
    refresh_tree tr self = Ok tree /\
    forall name, shown tree name <->
      exists ds, In (name, ds) (Document.data (DatasetRelationModel.doc self)) /\
                 datasetFilterOut self ds (dsnode (cols_of grouping) (name, ds)) = false.
Proof.
  intros grouping Hu Hts Hin.
  destruct (refresh_tree_dataset_nodes tr self Hu Hts Hin) as [tree [Htree Hnodes]].
  exists tree. split; [exact Htree|]. intros name. unfold shown.
  fold grouping in Hnodes. destruct (cols_of_name grouping) as [cols Hcols].
  rewrite Hcols in *. split.
  - intros [c [Hc Hn]]. apply Hnodes in Hc as [[n ds] [H1 [H2 ->]]].
    rewrite dsnode_name in Hn. inversion Hn. cbn [fst] in *. subst n.
    exists ds. split; [exact H1|]. unfold kept in H2. now apply negb_true_iff in H2.
  - intros [ds [H1 H2]]. exists (dsnode ("name" :: cols) (name, ds)).
    split; [|reflexivity]. apply Hnodes. exists (name, ds).
    repeat split; auto. unfold kept. cbn [snd]. now rewrite H2.
Qed.

Lemma refresh_tree_Ok_grouping (tr : string -> string) (self : DatasetRelationModel.t)
  (tree : TMNode.t) :
  refresh_tree tr self = Ok tree -> In (DatasetRelationModel.grouping self) grpnames.
Proof.
  unfold refresh_tree, grpnames.
  destruct (String.eqb_spec (DatasetRelationModel.grouping self) "none") as [->|_];
    [simpl; tauto|].
  destruct (String.eqb_spec (DatasetRelationModel.grouping self) "filename") as [->|_];
    [simpl; tauto|].
  destruct (String.eqb_spec (DatasetRelationModel.grouping self) "size") as [->|_];
    [simpl; tauto|].
  destruct (String.eqb_spec (DatasetRelationModel.grouping self) "type") as [->|_];
    [simpl; tauto|].
  destruct (String.eqb_spec (DatasetRelationModel.grouping self) "tags") as [->|_];
    [simpl; tauto|discriminate].
Qed.

(** X1.  For each of the five grouping names, and for no other, [refresh]
    builds a tree; the datasets that have a node in it are exactly the
    datasets of the document that [datasetFilterOut] keeps, tested on the
    node with the columns of the grouping mode.  Any other grouping is a
    [KeyError]. *)
Theorem refresh_shows_what_passes_the_filter
  (tr : string -> string) (self : DatasetRelationModel.t) :
  let grouping := DatasetRelationModel.grouping self in
  unique_names (DatasetRelationModel.doc self) ->
  tags_are_sets (DatasetRelationModel.doc self) ->
  (In grouping grpnames ->
   exists tree,
     refresh_tree tr self = Ok tree /\
     forall name, shown tree name <->
       exists ds, In (name, ds) (Document.data (DatasetRelationModel.doc self)) /\
                  datasetFilterOut self ds (dsnode (cols_of grouping) (name, ds)) = false) /\
  (~ In grouping grpnames -> refresh_tree tr self = Raise KeyError).
Proof.
  intros grouping Hu Hts. split; [now apply refresh_tree_shown|].
  intros Hn. unfold refresh_tree. unfold grouping, grpnames in Hn. simpl in Hn.
  destruct (String.eqb_spec (DatasetRelationModel.grouping self) "none") as [E|_];
    [rewrite E in Hn; tauto|].
  destruct (String.eqb_spec (DatasetRelationModel.grouping self) "filename") as [E|_];
    [rewrite E in Hn; tauto|].
  destruct (String.eqb_spec (DatasetRelationModel.grouping self) "size") as [E|_];
    [rewrite E in Hn; tauto|].
  destruct (String.eqb_spec (DatasetRelationModel.grouping self) "type") as [E|_];
    [rewrite E in Hn; tauto|].
  destruct (String.eqb_spec (DatasetRelationModel.grouping self) "tags") as [E|_];
    [rewrite E in Hn; tauto|reflexivity].
Qed.

Lemma refresh_shows_what_passes_the_filter_witness :
  exists tree,
    refresh_tree (fun s => s)
      (DatasetRelationModel.mk
         (Document.mk [("x", Dataset.mk 1 "numeric" "1D" "3" ["a"] None [] None "" "");
                       ("y", Dataset.mk 2 "numeric" "2D" "3x3" [] None [] None "" "")])
         "size" "" false (Some [1]) None) = Ok tree /\
    shown tree "x" /\ ~ shown tree "y".
Proof.
  destruct (refresh_shows_what_passes_the_filter (fun s => s)
    (DatasetRelationModel.mk
       (Document.mk [("x", Dataset.mk 1 "numeric" "1D" "3" ["a"] None [] None "" "");
                     ("y", Dataset.mk 2 "numeric" "2D" "3x3" [] None [] None "" "")])
       "size" "" false (Some [1]) None)) as [H _]; [distinct | distinct |].
  destruct H as [tree [Htree Hshown]]; [simpl; tauto|].
  exists tree. split; [exact Htree|]. split.
  - apply Hshown. eexists. split; [simpl; left; reflexivity | reflexivity].
  - intros Hy. apply Hshown in Hy as [ds [Hin Hkeep]].
    simpl in Hin. destruct Hin as [Hin|[Hin|[]]]; inversion Hin; subst.
    vm_compute in Hkeep. discriminate.
Defined.

(** ** Changing the grouping and the filter text *)

Lemma string_append_assoc (a b c : string) :
  ((a ++ b) ++ c)%string = (a ++ (b ++ c))%string.
Proof. induction a as [|x a IH]; simpl; [reflexivity | now rewrite IH]. Qed.

Lemma is_substring_trans (a b c : string) :
  is_substring a b -> is_substring b c -> is_substring a c.
Proof.
  intros [p1 [q1 H1]] [p2 [q2 H2]]. exists (p2 ++ p1)%string, (q1 ++ q2)%string.
  rewrite H2, H1. now rewrite !string_append_assoc.
Qed.

Lemma is_substring_of_empty (a : string) : is_substring a EmptyString -> a = EmptyString.
Proof.
  intros [p [q H]]. destruct p; [|discriminate]. destruct a; [reflexivity|discriminate].
Qed.

Lemma keeps_with_empty_text (self : DatasetRelationModel.t) (ds : Dataset.t)
  (node : TMNode.t) :
  DatasetRelationModel.filter self = EmptyString ->
  (datasetFilterOut self ds node = false <-> passes_dims self ds /\ passes_dtype self ds).
Proof.
  intros Hf. rewrite datasetFilterOut_false_iff. unfold text_matches. rewrite Hf. tauto.
Qed.

(** X2.  With an empty filter text, changing the grouping does not change
    which datasets the tree shows. *)
Theorem changeGrouping_shows_same_datasets
  (tr : string -> string) (self : DatasetRelationModel.t) (grouping : string)
  (tree tree' : TMNode.t) :
  unique_names (DatasetRelationModel.doc self) ->
  tags_are_sets (DatasetRelationModel.doc self) ->
  DatasetRelationModel.filter self = EmptyString ->
  refresh_tree tr self = Ok tree ->
  snd (changeGrouping tr self grouping) = Ok tree' ->
  forall name, shown tree name <-> shown tree' name.
Proof.
  intros Hu Hts Hf Htree Htree' name. unfold changeGrouping in Htree'. cbn [snd] in Htree'.
  set (self' := DatasetRelationModel.mk _ _ _ _ _ _) in Htree'.
  destruct (refresh_tree_shown tr self Hu Hts (refresh_tree_Ok_grouping _ _ _ Htree))
    as [t [Ht H1]].
  destruct (refresh_tree_shown tr self' Hu Hts (refresh_tree_Ok_grouping _ _ _ Htree'))
    as [t' [Ht' H2]].
  assert (t = tree) by congruence. assert (t' = tree') by congruence. subst t t'.
  rewrite H1, H2. cbn [DatasetRelationModel.doc self'].
  split; intros [ds [Hin Hk]]; exists ds; (split; [exact Hin|]);
    apply keeps_with_empty_text in Hk; try exact Hf;
    apply keeps_with_empty_text; try exact Hf; exact Hk.
Qed.

Lemma changeGrouping_shows_same_datasets_witness :
  shown (TMNode.mk TMNodeClass ["Dataset"; "Size"; "Type"; "File"]
           [TMNode.mk (DatasetNodeClass ["name"; "size"; "type"; "linkfile"])
              ["x"; "3"; "1D"; ""] []]) "x" <->
  shown (TMNode.mk TMNodeClass ["Dataset"; "Size"; "Filename"]
           [TMNode.mk TMNodeClass ["1D"]
              [TMNode.mk (DatasetNodeClass ["name"; "size"; "linkfile"])
                 ["x"; "3"; ""] []]]) "x".
Proof.
  apply (changeGrouping_shows_same_datasets (fun s => s)
    (DatasetRelationModel.mk
       (Document.mk [("x", Dataset.mk 1 "numeric" "1D" "3" [] None [] None "" "")])
       "none" "" false None None)
    "type"); [distinct | distinct | reflexivity | reflexivity | reflexivity].
Defined.

(** X3.  Extending the filter text only removes datasets: when the old
    text occurs in the new one, every dataset the tree shows after
    [changeFilter] was shown before. *)
Theorem changeFilter_narrows
  (tr : string -> string) (self : DatasetRelationModel.t) (filtertext : string)
  (tree tree' : TMNode.t) :
  unique_names (DatasetRelationModel.doc self) ->
  tags_are_sets (DatasetRelationModel.doc self) ->
  is_substring (DatasetRelationModel.filter self) filtertext ->
  refresh_tree tr self = Ok tree ->
  snd (changeFilter tr self filtertext) = Ok tree' ->
  forall name, shown tree' name -> shown tree name.
Proof.
  intros Hu Hts Hsub Htree Htree' name. unfold changeFilter in Htree'. cbn [snd] in Htree'.
  set (self' := DatasetRelationModel.mk _ _ _ _ _ _) in Htree'.
  destruct (refresh_tree_shown tr self Hu Hts (refresh_tree_Ok_grouping _ _ _ Htree))
    as [t [Ht H1]].
  destruct (refresh_tree_shown tr self' Hu Hts (refresh_tree_Ok_grouping _ _ _ Htree'))
    as [t' [Ht' H2]].
  assert (t = tree) by congruence. assert (t' = tree') by congruence. subst t t'.
  rewrite H1, H2. cbn [DatasetRelationModel.doc DatasetRelationModel.grouping self'].
  intros [ds [Hin Hk]]. exists ds. split; [exact Hin|].
  apply datasetFilterOut_false_iff in Hk as [Hd [Ht0 Hm]].
  apply datasetFilterOut_false_iff. repeat split; [exact Hd | exact Ht0 |].
  unfold text_matches in *. cbn [DatasetRelationModel.filter self'] in Hm.
  destruct Hm as [Hm|[t [Hin' Hm]]].
  - left. subst filtertext. now apply is_substring_of_empty.
  - right. exists t. split; [exact Hin'|]. eapply is_substring_trans; eauto.
Qed.

Lemma changeFilter_narrows_witness :
  shown (TMNode.mk TMNodeClass ["Dataset"; "Size"; "Type"; "File"]
           [TMNode.mk (DatasetNodeClass ["name"; "size"; "type"; "linkfile"])
              ["x"; "3"; "1D"; ""] [];
            TMNode.mk (DatasetNodeClass ["name"; "size"; "type"; "linkfile"])
              ["xy"; "3"; "1D"; ""] []]) "xy".
Proof.
  apply (changeFilter_narrows (fun s => s)
    (DatasetRelationModel.mk
       (Document.mk [("x", Dataset.mk 1 "numeric" "1D" "3" [] None [] None "" "");
                     ("xy", Dataset.mk 1 "numeric" "1D" "3" [] None [] None "" "")])
       "none" "x" false None None)
    "xy"
    (TMNode.mk TMNodeClass ["Dataset"; "Size"; "Type"; "File"]
       [TMNode.mk (DatasetNodeClass ["name"; "size"; "type"; "linkfile"])
          ["x"; "3"; "1D"; ""] [];
        TMNode.mk (DatasetNodeClass ["name"; "size"; "type"; "linkfile"])
          ["xy"; "3"; "1D"; ""] []])
    (TMNode.mk TMNodeClass ["Dataset"; "Size"; "Type"; "File"]
       [TMNode.mk (DatasetNodeClass ["name"; "size"; "type"; "linkfile"])
          ["xy"; "3"; "1D"; ""] []])).
  - distinct.
  - distinct.
  - apply find_spec. reflexivity.
  - reflexivity.
  - reflexivity.
  - exists (TMNode.mk (DatasetNodeClass ["name"; "size"; "type"; "linkfile"])
              ["xy"; "3"; "1D"; ""] []).
    split; [simpl; auto|reflexivity].
Defined.

(** X4.  A dataset that satisfies the dimension and datatype constraints
    and whose name, or one of whose tags, contains the filter text is shown
    in every grouping mode. *)
Theorem name_or_tag_match_is_shown
  (tr : string -> string) (self : DatasetRelationModel.t)
  (name : string) (ds : Dataset.t) :
  unique_names (DatasetRelationModel.doc self) ->
  tags_are_sets (DatasetRelationModel.doc self) ->
  In (DatasetRelationModel.grouping self) grpnames ->
  In (name, ds) (Document.data (DatasetRelationModel.doc self)) ->
  passes_dims self ds -> passes_dtype self ds ->
  (exists t, (t = name \/ In t (Dataset.tags ds)) /\
             is_substring (DatasetRelationModel.filter self) t) ->
  exists tree, refresh_tree tr self = Ok tree /\ shown tree name.
Proof.
  intros Hu Hts Hg Hin Hd Ht [t [Hsrc Hsub]].
  destruct (refresh_tree_shown tr self Hu Hts Hg) as [tree [Htree Hshown]].
  exists tree. split; [exact Htree|]. apply Hshown. exists ds. split; [exact Hin|].
  apply datasetFilterOut_false_iff. repeat split; auto. right. exists t.
  split; [|exact Hsub]. destruct Hsrc as [->|Htag]; [right|now left].
  destruct (cols_of_name (DatasetRelationModel.grouping self)) as [cols ->].
  now left.
Qed.

Lemma name_or_tag_match_is_shown_witness :
  exists tree,
    refresh_tree (fun s => s)
      (DatasetRelationModel.mk
         (Document.mk [("alpha", Dataset.mk 1 "numeric" "1D" "3" [] None [] None "" "")])
         "filename" "lph" false None None) = Ok tree /\
    shown tree "alpha".
Proof.
  apply (name_or_tag_match_is_shown (fun s => s)
    (DatasetRelationModel.mk
       (Document.mk [("alpha", Dataset.mk 1 "numeric" "1D" "3" [] None [] None "" "")])
       "filename" "lph" false None None)
    "alpha" (Dataset.mk 1 "numeric" "1D" "3" [] None [] None "" ""));
    [distinct | distinct | simpl; tauto | simpl; tauto | exact I | exact I |].
  exists "alpha". split; [now left | apply find_spec; reflexivity].
Defined.

(** ** The preview, in general *)

Lemma slice_step_from_length {A} (step skip : nat) (l : list A) :
  (List.length l <= skip -> slice_step_from step skip l = [])%nat /\
  (skip < List.length l ->
   step * List.length (slice_step_from step skip l) < List.length l - skip + step)%nat.
Proof.
  revert skip; induction l as [|x l IH]; intros skip; simpl.
  - split; [reflexivity | lia].
  - destruct skip as [|k].
    + split; [lia|]. intros _. simpl.
      destruct (IH (step - 1)%nat) as [H1 H2].
      destruct (Nat.le_gt_cases (List.length l) (step - 1)) as [Hle|Hgt].
      * rewrite (H1 Hle). simpl. lia.
      * specialize (H2 Hgt). lia.
    + destruct (IH k) as [H1 H2]. split; intros H.
      * apply H1. lia.
      * specialize (H2 ltac:(lia)). lia.
Qed.

Lemma downsample_length_hd {A} (data : list A) (height : Z) :
  0 < height ->
  len (downsample data height) <= height /\
  hd_error (downsample data height) = hd_error data.
Proof.
  intros Hh. unfold downsample.
  destruct (Z.ltb_spec (len data) height) as [Hlt|Hge]; [split; [lia|reflexivity]|].
  unfold slice_step. split.
  - set (step := len data / height + 1).
    assert (Hq : 0 <= len data / height) by (apply Z.div_pos; unfold len; lia).
    assert (Hstep : len data < step * height).
    { unfold step. pose proof (Z.mod_pos_bound (len data) height Hh).
      pose proof (Z.div_mod (len data) height ltac:(lia)). nia. }
    destruct (slice_step_from_length (Z.to_nat step) 0 data) as [H1 H2].
    destruct data as [|x data]; [unfold len in *; simpl in *; lia|].
    specialize (H2 ltac:(simpl; lia)).
    set (out := slice_step_from (Z.to_nat step) 0 (x :: data)) in *.
    assert (Hs : Z.of_nat (Z.to_nat step) = step) by (apply Z2Nat.id; unfold step; lia).
    assert (H3 : step * Z.of_nat (List.length out)
                 < Z.of_nat (List.length (x :: data)) + step).
    { rewrite <- Hs at 1 2. rewrite <- Nat2Z.inj_mul, <- Nat2Z.inj_add.
      apply Nat2Z.inj_lt. lia. }
    unfold len in *. nia.
  - destruct data; reflexivity.
Qed.



Lemma select_filter {A} (p : A -> bool) (l : list A) :
  select (map p l) l = List.filter p l.
Proof.
  induction l as [|x l IH]; simpl; [reflexivity|].
  destruct (p x); now rewrite IH.
Qed.

Lemma select_length {A B} (mask : list bool) (a : list A) (b : list B) :
  List.length a = List.length b ->
  List.length (select mask a) = List.length (select mask b).
Proof.
  revert a b; induction mask as [|m mask IH]; intros [|x a] [|y b] H;
    try discriminate; try reflexivity.
  - destruct m; reflexivity.
  - simpl in H. injection H as H. destruct m; simpl; auto.
Qed.

Lemma arange_length (n : nat) : List.length (arange n) = n.
Proof. unfold arange. now rewrite length_map, length_seq. Qed.

(** The three outcomes of the body of the [try]. *)
Lemma preview_body_outcome (data : list float) :
  (downsample data 70 = [] -> preview_body data = Raise ValueError) /\
  (downsample data 70 <> [] -> plotted data = [] ->
   preview_body data = Raise ZeroDivisionError) /\
  (plotted data <> [] ->
   exists poly axis x0,
     preview_body data = Ok [DrawPolyline poly; axis; DrawLine x0 0 x0 70] /\
     List.length poly = List.length (plotted data)).
Proof.
  unfold preview_body, plotted. cbv zeta.
  destruct (downsample data 70) as [|v0 l] eqn:E.
  - split; [reflexivity|]. split; [congruence|]. simpl. congruence.
  - cbn [nanmin nanmax bind].
    set (minval := fold_left fmin l v0). set (maxval := fold_left fmax l v0).
    set (y := normalize minval maxval (v0 :: l)).
    rewrite select_filter.
    set (xs := select (map PrimFloat.is_finite y) (arange (List.length (v0 :: l)))).
    assert (Hlen : List.length xs = List.length (List.filter PrimFloat.is_finite y)).
    { rewrite <- (select_filter PrimFloat.is_finite y). apply select_length.
      rewrite arange_length. unfold y, normalize. now rewrite length_map. }
    split; [discriminate|]. split.
    + intros _ Hnil. unfold len. rewrite Hlen, Hnil. reflexivity.
    + intros Hne. unfold len. rewrite Hlen.
      destruct (List.filter PrimFloat.is_finite y) as [|w ys] eqn:Ey; [congruence|].
      cbn [List.length]. rewrite Nat2Z.inj_succ.
      destruct (Z.eqb_spec (Z.succ (Z.of_nat (List.length ys))) 0) as [H0|_]; [lia|].
      do 3 eexists. split; [reflexivity|].
      rewrite length_combine, !length_map, Hlen. cbn [List.length]. lia.
Qed.

Lemma previewable_dec (ds : Dataset.t) :
  negb (Dataset.dimensions ds =? 1) || negb (String.eqb (Dataset.datatype ds) "numeric")
  = false <-> previewable ds.
Proof.
  unfold previewable. rewrite orb_false_iff, !negb_false_iff, Z.eqb_eq, String.eqb_eq.
  reflexivity.
Qed.

Lemma plotted_length (data : list float) : len (plotted data) <= 70.
Proof.
  unfold plotted. destruct (downsample_length_hd data 70 ltac:(lia)) as [H _].
  destruct (nanmin _); [|unfold len; simpl; lia].
  destruct (nanmax _); [|unfold len; simpl; lia].
  pose proof (filter_length_le PrimFloat.is_finite
                (normalize a a0 (downsample data 70))) as Hf.
  unfold normalize in Hf. rewrite length_map in Hf. unfold len in *. unfold normalize. lia.
Qed.

(** X6.  [getPreviewPixmap] never raises, whatever the dataset.  It
    returns [None] exactly when the dataset is not 1-D numeric or no
    normalised sample value is finite; otherwise the pixmap holds a
    polyline with one point for each finite normalised value (at most 70),
    then the horizontal axis and the vertical line at the first point. *)
Theorem getPreviewPixmap_outcome (ds : Dataset.t) :
  (exists r, getPreviewPixmap ds = Ok r) /\
  (getPreviewPixmap ds = Ok None <->
   ~ previewable ds \/ plotted (Dataset.data ds) = []) /\
  (forall pixmap, getPreviewPixmap ds = Ok (Some pixmap) ->
     exists poly axis x0,
       pixmap = [DrawPolyline poly; axis; DrawLine x0 0 x0 70] /\
       len poly = len (plotted (Dataset.data ds)) /\
       0 < len poly <= 70).
Proof.
  destruct (preview_body_outcome (Dataset.data ds)) as [Hempty [Hnone Hsome]].
  unfold getPreviewPixmap.
  destruct (negb (Dataset.dimensions ds =? 1) ||
            negb (String.eqb (Dataset.datatype ds) "numeric")) eqn:Ep.
  - assert (Hnp : ~ previewable ds)
      by (intros Hp; apply previewable_dec in Hp; congruence).
    split; [eexists; reflexivity|]. split; [tauto|]. discriminate.
  - apply previewable_dec in Ep.
    destruct (plotted (Dataset.data ds)) as [|w ys] eqn:Epl.
    + assert (Hb : preview_body (Dataset.data ds) = Raise ValueError \/
                   preview_body (Dataset.data ds) = Raise ZeroDivisionError).
      { destruct (downsample (Dataset.data ds) 70) eqn:E; [left; now apply Hempty|].
        right. apply Hnone; [discriminate | reflexivity]. }
      destruct Hb as [-> | ->]; (split; [eexists; reflexivity|]);
        (split; [tauto | discriminate]).
    + destruct (Hsome ltac:(discriminate)) as [poly [axis [x0 [Hb Hlen]]]].
      rewrite Hb. split; [eexists; reflexivity|]. split.
      * split; [discriminate|]. intros [H|H]; [contradiction | discriminate].
      * intros pixmap Hp. inversion Hp; subst. exists poly, axis, x0.
        split; [reflexivity|]. pose proof (plotted_length (Dataset.data ds)) as Hle.
        rewrite Epl in Hle. unfold len in *. rewrite Hlen. simpl in *. lia.
Qed.

Lemma getPreviewPixmap_outcome_witness :
  exists poly axis x0,
    [DrawPolyline [(0, 70); (70, 0)]%float; DrawLine 0 70 70 70; DrawLine 0 0 0 70] =
      [DrawPolyline poly; axis; DrawLine x0 0 x0 70] /\
    len poly = len (plotted [1; 2]%float) /\ 0 < len poly <= 70.
Proof.
  apply (proj2 (proj2 (getPreviewPixmap_outcome
    (Dataset.mk 1 "numeric" "1D" "2" [] None [1; 2]%float None "" "")))).
  reflexivity.
Defined.

(** ** Dataset nodes *)

Lemma contains_getitem (d : list (string * Dataset.t)) (name : string) :
  contains d name = true -> exists ds, getitem d name = Ok ds /\ In (name, ds) d.
Proof.
  unfold contains. induction d as [|[k v] d IH]; simpl; [discriminate|].
  destruct (String.eqb_spec k name) as [->|Hne]; simpl.
  - intros _. exists v. auto.
  - intros H. destruct (IH H) as [ds [H1 H2]]. exists ds. auto.
Qed.

Lemma getitem_contains (d : list (string * Dataset.t)) (name : string) (ds : Dataset.t) :
  getitem d name = Ok ds -> contains d name = true /\ In (name, ds) d.
Proof.
  unfold contains. induction d as [|[k v] d IH]; simpl; [discriminate|].
  destruct (String.eqb_spec k name) as [->|Hne]; simpl.
  - intros H. inversion H. auto.
  - intros H. destruct (IH H). auto.
Qed.

(** X7.  [DatasetNode(doc, dsname, cols, parent)] raises [KeyError] when
    [dsname] is not a key of [doc.data], whatever [cols]; for a key it
    raises [IndexError] when [cols] is empty and [AssertionError] when the
    first column is not "name"; otherwise it gives a node without
    children whose first column is the dataset name. *)
Theorem DatasetNode_outcome (doc : Document.t) (dsname : string) (cols : list string) :
  (contains (Document.data doc) dsname = false ->
   DatasetNode doc dsname cols = Raise KeyError) /\
  (contains (Document.data doc) dsname = true ->
   (cols = [] -> DatasetNode doc dsname cols = Raise IndexError) /\
   (forall c cols', cols = c :: cols' -> c <> "name" ->
      DatasetNode doc dsname cols = Raise AssertionError) /\
   (forall cols', cols = "name" :: cols' ->
      exists node, DatasetNode doc dsname cols = Ok node /\
                   TMNode.cls node = DatasetNodeClass cols /\
                   datasetName node = Ok dsname /\
                   TMNode.childnodes node = [])).
Proof.
  unfold DatasetNode. split.
  - intros H. now rewrite (getitem_not_in _ _ H).
  - intros H. destruct (contains_getitem _ _ H) as [ds [Hds _]]. rewrite Hds. cbn [bind].
    split; [now intros ->|]. split.
    + intros c cols' -> Hc. apply String.eqb_neq in Hc. now rewrite Hc.
    + intros cols' ->. eexists. split; [reflexivity|]. repeat split.
Qed.

Lemma DatasetNode_outcome_witness :
  DatasetNode (Document.mk [("x", Dataset.mk 1 "numeric" "1D" "3" [] None [] None "" "")])
              "y" ["size"] = Raise KeyError.
Proof.
  apply (proj1 (DatasetNode_outcome
    (Document.mk [("x", Dataset.mk 1 "numeric" "1D" "3" [] None [] None "" "")])
    "y" ["size"])).
  reflexivity.
Defined.

Lemma column_values_known (kv : string * Dataset.t) (cols : list string) :
  column_values (fst kv) (snd kv) cols =
  map (column_value kv) (List.filter known_column cols).
Proof.
  induction cols as [|c cols IH]; [reflexivity|].
  cbn [column_values List.filter]. rewrite IH.
  assert (Hk : known_column c =
               (String.eqb c "name" || String.eqb c "size" || String.eqb c "type"
                || String.eqb c "linkfile")) by reflexivity.
  assert (Hv : column_value kv c =
               if String.eqb c "name" then fst kv
               else if String.eqb c "size" then Dataset.userSize (snd kv)
               else if String.eqb c "type" then Dataset.dstype (snd kv)
               else basename (datasetLinkFile (snd kv))) by reflexivity.
  destruct (String.eqb c "name"); [rewrite Hk; cbn [orb map]; now rewrite Hv|].
  destruct (String.eqb c "size"); [rewrite Hk; cbn [orb map]; now rewrite Hv|].
  destruct (String.eqb c "type"); [rewrite Hk; cbn [orb map]; now rewrite Hv|].
  destruct (String.eqb c "linkfile"); rewrite Hk; cbn [orb map]; [now rewrite Hv|].
  reflexivity.
Qed.

Lemma filter_all {A} (p : A -> bool) (l : list A) :
  forallb p l = true -> List.filter p l = l.
Proof.
  induction l as [|x l IH]; simpl; [reflexivity|].
  intros H. apply andb_true_iff in H as [-> H]. now rewrite IH.
Qed.

(** X8.  The values of a dataset node follow its columns: a column name
    outside name, size, type and linkfile adds no value, and when every
    column name is one of these four (as in all five grouping modes) the
    value at a position is the value of the column at that position, which
    is what [toolTip] relies on when it reads [self.cols[column]]. *)
Theorem DatasetNode_columns_aligned (kv : string * Dataset.t) (cols : list string) :
  TMNode.data (dsnode cols kv) = map (column_value kv) (List.filter known_column cols) /\
  (forallb known_column cols = true ->
   forall i c, nth_error cols i = Some c ->
               nth_error (TMNode.data (dsnode cols kv)) i = Some (column_value kv c)) /\
  (forall grouping, forallb known_column (cols_of grouping) = true).
Proof.
  split; [apply column_values_known|]. split.
  - intros Hall i c Hc. cbn [dsnode TMNode.data]. rewrite column_values_known.
    rewrite (filter_all _ _ Hall). now apply map_nth_error.
  - intros grouping. unfold cols_of.
    destruct (String.eqb grouping "filename"); [reflexivity|].
    destruct (String.eqb grouping "size"); [reflexivity|].
    destruct (String.eqb grouping "type"); reflexivity.
Qed.

Lemma DatasetNode_columns_aligned_witness :
  nth_error (TMNode.data (dsnode ["name"; "type"; "linkfile"]
               ("x", Dataset.mk 1 "numeric" "1D" "3" [] (Some "/a/b.csv") [] None "" "")))
            2 = Some "b.csv".
Proof.
  apply (proj1 (proj2 (DatasetNode_columns_aligned
    ("x", Dataset.mk 1 "numeric" "1D" "3" [] (Some "/a/b.csv") [] None "" "")
    ["name"; "type"; "linkfile"])) eq_refl 2%nat "linkfile" eq_refl).
Defined.

(** ** The linked-file column *)

Lemma rfind_sep_free (f : string) (i last : Z) :
  slash_free f = true -> rfind_sep f i last = last.
Proof.
  revert i last; induction f as [|c f IH]; intros i last; simpl; [reflexivity|].
  intros H. apply andb_true_iff in H as [Hc Hf]. apply negb_true_iff in Hc.
  rewrite Hc. now apply IH.
Qed.

Lemma rfind_sep_join (d f : string) (i last : Z) :
  slash_free f = true ->
  rfind_sep (d ++ String "/" f) i last = i + Z.of_nat (String.length d).
Proof.
  intros Hf. revert i last; induction d as [|c d IH]; intros i last.
  - simpl. rewrite rfind_sep_free by assumption. lia.
  - cbn [String.append rfind_sep String.length]. rewrite IH. lia.
Qed.

Lemma drop_join (d f : string) : drop (S (String.length d)) (d ++ String "/" f) = f.
Proof. induction d as [|c d IH]; [reflexivity | exact IH]. Qed.

Lemma basename_join (d f : string) :
  slash_free f = true -> basename (d ++ String "/" f) = f.
Proof.
  intros Hf. unfold basename. rewrite rfind_sep_join by assumption.
  replace (Z.to_nat (0 + Z.of_nat (String.length d) + 1)) with (S (String.length d)) by lia.
  apply drop_join.
Qed.

Lemma basename_free (p : string) : slash_free p = true -> basename p = p.
Proof. intros H. unfold basename. now rewrite rfind_sep_free. Qed.

Lemma split_last_slash (p : string) :
  slash_free p = true \/
  exists d f, p = (d ++ String "/" f)%string /\ slash_free f = true.
Proof.
  induction p as [|c p IH]; [now left|].
  destruct IH as [Hfree|[d [f [-> Hf]]]].
  - simpl. destruct (Ascii.eqb_spec c "/") as [->|Hne].
    + right. exists EmptyString, p. auto.
    + left. exact Hfree.
  - right. exists (String c d), f. auto.
Qed.

(** X9.  The linked-file column of a dataset node,
    [os.path.basename(datasetLinkFile(ds))], never contains a "/": it is
    empty for a dataset that is not linked, and the part after the last
    "/" of the file name for a linked one. *)
Theorem linkfile_column_is_base_name (ds : Dataset.t) :
  slash_free (basename (datasetLinkFile ds)) = true /\
  (Dataset.linked ds = None -> basename (datasetLinkFile ds) = EmptyString) /\
  (forall d f, Dataset.linked ds = Some (d ++ String "/" f)%string ->
               slash_free f = true -> basename (datasetLinkFile ds) = f) /\
  (forall f, Dataset.linked ds = Some f -> slash_free f = true ->
             basename (datasetLinkFile ds) = f).
Proof.
  split; [|split; [|split]].
  - destruct (split_last_slash (datasetLinkFile ds)) as [H|[d [f [-> Hf]]]].
    + now rewrite basename_free.
    + now rewrite basename_join.
  - unfold datasetLinkFile. now intros ->.
  - unfold datasetLinkFile. intros d f -> Hf. now apply basename_join.
  - unfold datasetLinkFile. intros f -> Hf. now apply basename_free.
Qed.

Lemma linkfile_column_is_base_name_witness :
  basename (datasetLinkFile
              (Dataset.mk 1 "numeric" "1D" "3" [] (Some "/home/u/run.1/data.csv")
                 [] None "" "")) = "data.csv".
Proof.
  apply (proj1 (proj2 (proj2 (linkfile_column_is_base_name
    (Dataset.mk 1 "numeric" "1D" "3" [] (Some "/home/u/run.1/data.csv") [] None "" ""))))
    "/home/u/run.1" "data.csv"); reflexivity.
Defined.

(** ** Cloning a node and finding its dataset *)

(** X10.  [cloneTo] makes the node again from the document as it is now:
    the clone shows the columns of the dataset that the name maps to now
    and has no children, so the clone of a node whose dataset is unchanged
    is that node; when the dataset is gone, [cloneTo] raises [KeyError]
    (where [dataset] returns [None]). *)
Theorem cloneTo_rebuilds (doc : Document.t) (cols : list string) (self : TMNode.t)
  (name : string) :
  datasetName self = Ok name ->
  (forall ds, unique_names doc -> In (name, ds) (Document.data doc) ->
     cloneTo doc ("name" :: cols) self = Ok (dsnode ("name" :: cols) (name, ds))) /\
  (forall ds, unique_names doc -> In (name, ds) (Document.data doc) ->
     self = dsnode ("name" :: cols) (name, ds) ->
     cloneTo doc ("name" :: cols) self = Ok self) /\
  (contains (Document.data doc) name = false ->
   cloneTo doc cols self = Raise KeyError /\ dataset doc self = Ok None).
Proof.
  intros Hname. unfold cloneTo, dataset. rewrite Hname. cbn [bind].
  split; [|split].
  - intros ds Hu Hin. exact (DatasetNode_item doc (name, ds) cols Hu Hin).
  - intros ds Hu Hin ->. exact (DatasetNode_item doc (name, ds) cols Hu Hin).
  - intros Hc. unfold DatasetNode. rewrite (getitem_not_in _ _ Hc). split; reflexivity.
Qed.

Lemma cloneTo_rebuilds_witness :
  cloneTo (Document.mk [("x", Dataset.mk 1 "numeric" "1D" "5" [] None [] None "" "")])
          ["name"; "size"]
          (TMNode.mk (DatasetNodeClass ["name"; "size"]) ["x"; "3"] []) =
  Ok (TMNode.mk (DatasetNodeClass ["name"; "size"]) ["x"; "5"] []).
Proof.
  apply (proj1 (cloneTo_rebuilds
    (Document.mk [("x", Dataset.mk 1 "numeric" "1D" "5" [] None [] None "" "")])
    ["size"] (TMNode.mk (DatasetNodeClass ["name"; "size"]) ["x"; "3"] []) "x" eq_refl)
    (Dataset.mk 1 "numeric" "1D" "5" [] None [] None "" "")).
  - distinct.
  - simpl. tauto.
Defined.

(** X11.  Every dataset node of the tree that [refresh] builds finds its
    dataset: [dataset] returns the dataset of the document whose columns
    the node shows, and in a document with distinct names [dataset]
    returns a dataset exactly when the name of the node maps to it. *)
Theorem tree_nodes_find_their_dataset
  (tr : string -> string) (self : DatasetRelationModel.t) (tree : TMNode.t) :
  let doc := DatasetRelationModel.doc self in
  unique_names doc -> tags_are_sets doc ->
  refresh_tree tr self = Ok tree ->
  (forall c, In c (dataset_nodes tree) ->
     exists name ds, In (name, ds) (Document.data doc) /\
                     c = dsnode (cols_of (DatasetRelationModel.grouping self)) (name, ds) /\
                     dataset doc c = Ok (Some ds)) /\
  (forall node name ds, datasetName node = Ok name ->
     (dataset doc node = Ok (Some ds) <-> In (name, ds) (Document.data doc))).
Proof.
  intros doc Hu Hts Htree. split.
  - intros c Hc.
    destruct (refresh_tree_dataset_nodes tr self Hu Hts
                (refresh_tree_Ok_grouping _ _ _ Htree)) as [t [Ht Hnodes]].
    assert (t = tree) by congruence. subst t.
    apply Hnodes in Hc as [[name ds] [Hin [_ ->]]]. exists name, ds.
    split; [exact Hin|]. split; [reflexivity|].
    destruct (cols_of_name (DatasetRelationModel.grouping self)) as [cols ->].
    unfold dataset. rewrite dsnode_name. cbn [bind fst].
    now rewrite (getitem_in _ _ _ Hu Hin).
  - intros node name ds Hname. unfold dataset. rewrite Hname. cbn [bind]. split.
    + destruct (getitem (Document.data doc) name) as [ds'|e] eqn:E.
      * intros H. inversion H; subst. now apply getitem_contains in E.
      * destruct e; discriminate.
    + intros Hin. now rewrite (getitem_in _ _ _ Hu Hin).
Qed.

Lemma tree_nodes_find_their_dataset_witness :
  dataset (Document.mk [("x", Dataset.mk 1 "numeric" "1D" "5" [] None [] None "" "")])
          (TMNode.mk (DatasetNodeClass ["name"]) ["x"] []) =
  Ok (Some (Dataset.mk 1 "numeric" "1D" "5" [] None [] None "" "")).
Proof.
  apply (proj2 (tree_nodes_find_their_dataset (fun s => s)
    (DatasetRelationModel.mk
       (Document.mk [("x", Dataset.mk 1 "numeric" "1D" "5" [] None [] None "" "")])
       "none" "" false None None)
    (TMNode.mk TMNodeClass ["Dataset"; "Size"; "Type"; "File"]
       [TMNode.mk (DatasetNodeClass ["name"; "size"; "type"; "linkfile"])
          ["x"; "5"; "1D"; ""] []])
    ltac:(distinct) ltac:(distinct) eq_refl)
    (TMNode.mk (DatasetNodeClass ["name"]) ["x"] []) "x"
    (Dataset.mk 1 "numeric" "1D" "5" [] None [] None "" "") eq_refl).
  simpl. tauto.
Defined.

(** ** Tooltips *)

Lemma py_index_outcome {A} (l : list A) (i : Z) :
  (i < - len l \/ len l <= i -> py_index l i = Raise IndexError) /\
  (- len l <= i < len l -> exists v, py_index l i = Ok v /\ In v l).
Proof.
  unfold py_index, len. split.
  - intros H. destruct (Z.ltb_spec i 0).
    + destruct (Z.ltb_spec (i + Z.of_nat (List.length l)) 0); [reflexivity|lia].
    + destruct (Z.ltb_spec i 0); [lia|].
      destruct (Z.leb_spec (Z.of_nat (List.length l)) i); [reflexivity|lia].
  - intros H.
    set (j := if i <? 0 then i + Z.of_nat (List.length l) else i).
    assert (Hj : 0 <= j < Z.of_nat (List.length l))
      by (unfold j; destruct (Z.ltb_spec i 0); lia).
    destruct (Z.ltb_spec j 0); [lia|].
    destruct (Z.leb_spec (Z.of_nat (List.length l)) j); [lia|]. cbn [orb].
    destruct (nth_error l (Z.to_nat j)) as [v|] eqn:E.
    + exists v. split; [reflexivity|]. eapply nth_error_In; eauto.
    + apply nth_error_None in E. lia.
Qed.

Lemma getPreviewPixmap_never_raises (ds : Dataset.t) :
  exists r, getPreviewPixmap ds = Ok r.
Proof.
  destruct (preview_body_outcome (Dataset.data ds)) as [Hempty [Hnone Hsome]].
  unfold getPreviewPixmap.
  destruct (negb (Dataset.dimensions ds =? 1) ||
            negb (String.eqb (Dataset.datatype ds) "numeric")); [eexists; reflexivity|].
  destruct (plotted (Dataset.data ds)) as [|w ys] eqn:Epl.
  - destruct (downsample (Dataset.data ds) 70) eqn:E.
    + rewrite Hempty by reflexivity. eexists; reflexivity.
    + rewrite Hnone by (discriminate || reflexivity). eexists; reflexivity.
  - destruct (Hsome ltac:(discriminate)) as [poly [axis [x0 [-> _]]]].
    eexists; reflexivity.
Qed.

(** X12.  For a node whose dataset exists, [toolTip] raises [IndexError]
    when the column is outside the range of [self.cols] (Python indexing,
    negative columns count from the end) and never raises otherwise; the
    tooltip of the size column of a dataset that has no preview is its
    [userPreview] text, unchanged. *)
Theorem toolTip_outcome
  (tr : string -> string) (textwrap_fill : string -> Z -> string)
  (percent : string -> string -> string) (pixmapAsHtml : Pixmap -> string)
  (doc : Document.t) (cols : list string) (self : TMNode.t) (column : Z)
  (name : string) (ds : Dataset.t) :
  datasetName self = Ok name ->
  getitem (Document.data doc) name = Ok ds ->
  (column < - len cols \/ len cols <= column ->
   toolTip tr textwrap_fill percent pixmapAsHtml doc cols self column = Raise IndexError) /\
  (- len cols <= column < len cols ->
   exists r, toolTip tr textwrap_fill percent pixmapAsHtml doc cols self column = Ok r) /\
  (py_index cols column = Ok "size" -> getPreviewPixmap ds = Ok None ->
   toolTip tr textwrap_fill percent pixmapAsHtml doc cols self column =
     Ok (Some (Dataset.userPreview ds))).
Proof.
  intros Hname Hds. unfold toolTip. rewrite Hname. cbn [bind]. rewrite Hds.
  destruct (py_index_outcome cols column) as [Hout Hin]. split; [|split].
  - intros H. now rewrite (Hout H).
  - intros H. destruct (Hin H) as [c [-> _]]. cbn [bind].
    destruct (String.eqb c "name"); [eexists; reflexivity|].
    destruct (String.eqb c "size" || (String.eqb c "type" && negb (in_str "size" cols))).
    + destruct (getPreviewPixmap_never_raises ds) as [[pix|] ->];
        eexists; reflexivity.
    + destruct (String.eqb c "linkfile" || String.eqb c "type"); eexists; reflexivity.
  - intros -> Hpix. cbn [bind String.eqb Ascii.eqb Bool.eqb orb]. now rewrite Hpix.
Qed.

Lemma toolTip_outcome_witness :
  toolTip (fun s => s) (fun s _ => s) (fun s _ => s) (fun _ => "")
          (Document.mk [("x", Dataset.mk 2 "numeric" "2D" "3x3" [] None [] None "p" "")])
          ["name"; "size"]
          (TMNode.mk (DatasetNodeClass ["name"; "size"]) ["x"; "3x3"] []) 2 =
  Raise IndexError.
Proof.
  apply (proj1 (toolTip_outcome (fun s => s) (fun s _ => s) (fun s _ => s) (fun _ => "")
    (Document.mk [("x", Dataset.mk 2 "numeric" "2D" "3x3" [] None [] None "p" "")])
    ["name"; "size"]
    (TMNode.mk (DatasetNodeClass ["name"; "size"]) ["x"; "3x3"] []) 2 "x"
    (Dataset.mk 2 "numeric" "2D" "3x3" [] None [] None "p" "") eq_refl eq_refl)).
  right. vm_compute. discriminate.
Defined.

(** ** The shape of the grouped tree *)

Lemma NoDup_flat_map {A B} (f : A -> list B) (l : list A) :
  NoDup l ->
  (forall x, In x l -> NoDup (f x)) ->
  (forall x y b, In x l -> In y l -> In b (f x) -> In b (f y) -> x = y) ->
  NoDup (flat_map f l).
Proof.
  induction 1 as [|x l Hx Hl IH]; intros Hf Hd; cbn [flat_map]; [constructor|].
  apply NoDup_app.
  - apply Hf. now left.
  - apply IH; [intros y Hy; apply Hf; now right|].
    intros y z b Hy Hz. apply Hd; now right.
  - intros b Hb Hb'. apply in_flat_map in Hb' as [y [Hy Hby]].
    assert (x = y) by (apply (Hd x y b); auto; [now left | now right]).
    subst y. contradiction.
Qed.

Lemma map_flat_map {A B C} (h : B -> C) (f : A -> list B) (l : list A) :
  map h (flat_map f l) = flat_map (fun x => map h (f x)) l.
Proof.
  induction l as [|x l IH]; [reflexivity|].
  cbn [flat_map]. now rewrite map_app, IH.
Qed.

Lemma NoDup_of_map {A B} (f : A -> B) (l : list A) : NoDup (map f l) -> NoDup l.
Proof.
  induction l as [|x l IH]; simpl; [constructor|].
  intros H. inversion H as [|? ? Hx Hl]; subst. constructor; [|now apply IH].
  intros Hin. apply Hx. now apply in_map.
Qed.

(** The group nodes of a grouped tree. *)
Lemma makeGrpTree_groups (self : DatasetRelationModel.t) (coltitles cols : list string)
  (grouper : Dataset.t -> list string) (cls : NodeClass) :
  let items := Document.data (DatasetRelationModel.doc self) in
  unique_names (DatasetRelationModel.doc self) ->
  Forall (fun kv => NoDup (grouper (snd kv))) items ->
  exists children,
    makeGrpTree self coltitles ("name" :: cols) grouper cls =
      Ok (TMNode.mk TMNodeClass coltitles children) /\
    StronglySorted node_le children /\
    NoDup (map TMNode.data children) /\
    forall g, In g children <->
      exists grp,
        g = TMNode.mk cls [grp]
              (insert_all (map (dsnode ("name" :: cols))
                               (members self ("name" :: cols) grouper grp items)) []) /\
        exists kv, In kv items /\ kept self ("name" :: cols) kv = true /\
                   In grp (grouper (snd kv)).
Proof.
  intros items Hu Hg.
  destruct (makeGrpTree_spec self coltitles cols grouper cls Hu Hg)
    as [groups [Htree [Hnd [Hkeys Hnodes]]]].
  exists (insert_all (map snd groups) []). split; [exact Htree|].
  pose proof (insert_all_perm (map snd groups) []) as Hp. simpl in Hp.
  split; [apply insert_all_sorted; constructor|]. split.
  - eapply Permutation_NoDup; [apply Permutation_map; symmetry; exact Hp|].
    rewrite map_map. rewrite (map_ext_in _ (fun kn => [fst kn])).
    + rewrite <- (map_map fst (fun k => [k])).
      apply NoDup_map_injective; [|exact Hnd]. intros a b H. now inversion H.
    + intros [grp node] Hin. now rewrite (Hnodes _ _ Hin).
  - intros g. split.
    + intros Hin. apply tree_node_in_groups in Hin as [grp Hin]. exists grp.
      split; [now apply Hnodes|]. apply Hkeys.
      change grp with (fst (grp, g)). now apply in_map.
    + intros [grp [-> Hex]]. apply Hkeys in Hex.
      destruct (key_has_node groups grp Hex) as [node Hin].
      apply (group_node_in_tree groups grp).
      pose proof (Hnodes _ _ Hin) as Hn. rewrite Hn in Hin. exact Hin.
Qed.

Lemma insert_all_nonempty (l : list TMNode.t) : l <> [] -> insert_all l [] <> [].
Proof.
  intros Hl H. pose proof (insert_all_perm l []) as Hp. rewrite H in Hp.
  simpl in Hp. apply Permutation_nil in Hp. contradiction.
Qed.

(** The properties of the groups that do not depend on the grouper. *)
Lemma makeGrpTree_group_shape (self : DatasetRelationModel.t)
  (coltitles cols : list string) (grouper : Dataset.t -> list string) (cls : NodeClass)
  (tree : TMNode.t) :
  unique_names (DatasetRelationModel.doc self) ->
  Forall (fun kv => NoDup (grouper (snd kv)))
         (Document.data (DatasetRelationModel.doc self)) ->
  makeGrpTree self coltitles ("name" :: cols) grouper cls = Ok tree ->
  StronglySorted node_le (TMNode.childnodes tree) /\
  NoDup (map TMNode.data (TMNode.childnodes tree)) /\
  forall g, In g (TMNode.childnodes tree) ->
    TMNode.cls g = cls /\ (exists grp, TMNode.data g = [grp]) /\
    TMNode.childnodes g <> [] /\
    StronglySorted name_lt (TMNode.childnodes g) /\
    Forall (fun c => is_dataset_node (TMNode.cls c) = true /\ TMNode.childnodes c = [])
           (TMNode.childnodes g).
Proof.
  intros Hu Hg Htree.
  destruct (makeGrpTree_groups self coltitles cols grouper cls Hu Hg)
    as [children [Heq [Hs [Hnd Hin]]]].
  rewrite Heq in Htree. inversion Htree; subst tree. cbn [TMNode.childnodes].
  split; [exact Hs|]. split; [exact Hnd|].
  intros g Hgin. apply Hin in Hgin as [grp [-> [kv [H1 [H2 H3]]]]].
  cbn [TMNode.cls TMNode.data TMNode.childnodes].
  split; [reflexivity|]. split; [now exists grp|]. split; [|split].
  - apply insert_all_nonempty. intros Hnil.
    assert (Hm : In kv (members self ("name" :: cols) grouper grp
                          (Document.data (DatasetRelationModel.doc self))))
      by (apply members_In; auto).
    apply (in_map (dsnode ("name" :: cols))) in Hm. rewrite Hnil in Hm. contradiction.
  - destruct (group_children self cols grouper grp Hu) as [Hnames _].
    apply sorted_names_strict; [apply insert_all_sorted; constructor| |exact Hnames].
    eapply Permutation_Forall; [symmetry; apply insert_all_perm|]. simpl.
    apply Forall_forall. intros c Hc. apply in_map_iff in Hc as [kv' [<- _]].
    now exists (fst kv').
  - apply dsnodes_are_leaves.
Qed.

(** X13.  In the grouping modes "filename", "type", "size" and "tags" the
    children of the root are group nodes only: each has a one-column
    label, at least one child, and only dataset nodes without children
    below it, in ascending order of name; the labels of the groups are
    pairwise distinct and in ascending order. *)
Theorem grouped_tree_shape (tr : string -> string) (self : DatasetRelationModel.t)
  (tree : TMNode.t) :
  unique_names (DatasetRelationModel.doc self) ->
  tags_are_sets (DatasetRelationModel.doc self) ->
  In (DatasetRelationModel.grouping self) ["filename"; "type"; "size"; "tags"] ->
  refresh_tree tr self = Ok tree ->
  StronglySorted node_le (TMNode.childnodes tree) /\
  NoDup (map TMNode.data (TMNode.childnodes tree)) /\
  forall g, In g (TMNode.childnodes tree) ->
    is_dataset_node (TMNode.cls g) = false /\ (exists grp, TMNode.data g = [grp]) /\
    TMNode.childnodes g <> [] /\
    StronglySorted name_lt (TMNode.childnodes g) /\
    Forall (fun c => is_dataset_node (TMNode.cls c) = true /\ TMNode.childnodes c = [])
           (TMNode.childnodes g).
Proof.
  intros Hu Hts Hin. unfold refresh_tree. simpl in Hin.
  assert (Hcls : forall cls (P Q : Prop) (R S T : TMNode.t -> Prop),
            is_dataset_node cls = false ->
            (P /\ Q /\ forall g, In g (TMNode.childnodes tree) ->
                         TMNode.cls g = cls /\ R g /\ S g /\ T g) ->
            P /\ Q /\ forall g, In g (TMNode.childnodes tree) ->
                         is_dataset_node (TMNode.cls g) = false /\ R g /\ S g /\ T g).
  { intros cls P Q R S T Hc [HP [HQ H]]. split; [exact HP|]. split; [exact HQ|].
    intros g Hgin. destruct (H g Hgin) as [-> H']. now split. }
  destruct Hin as [E|[E|[E|[E|[]]]]]; rewrite <- E;
    cbn [String.eqb Ascii.eqb Bool.eqb]; intros Htree.
  - apply (Hcls FilenameNodeClass); [reflexivity|].
    exact (makeGrpTree_group_shape self _ _ _ _ tree Hu
             (singleton_groups datasetLinkFile _) Htree).
  - apply (Hcls TMNodeClass); [reflexivity|].
    exact (makeGrpTree_group_shape self _ _ _ _ tree Hu
             (singleton_groups Dataset.dstype _) Htree).
  - apply (Hcls TMNodeClass); [reflexivity|].
    exact (makeGrpTree_group_shape self _ _ _ _ tree Hu
             (singleton_groups Dataset.userSize _) Htree).
  - apply (Hcls TMNodeClass); [reflexivity|].
    exact (makeGrpTree_group_shape self _ _ _ _ tree Hu
             (getgrp_all_NoDup tr _ Hts) Htree).
Qed.

Lemma grouped_tree_shape_witness :
  StronglySorted node_le
    [TMNode.mk TMNodeClass ["a"]
       [TMNode.mk (DatasetNodeClass ["name"; "size"; "type"; "linkfile"])
          ["x"; "3"; "1D"; ""] []]].
Proof.
  apply (proj1 (grouped_tree_shape (fun s => s)
    (DatasetRelationModel.mk
       (Document.mk [("x", Dataset.mk 1 "numeric" "1D" "3" ["a"] None [] None "" "")])
       "tags" "" false None None)
    (TMNode.mk TMNodeClass ["Dataset"; "Size"; "Type"; "Filename"]
       [TMNode.mk TMNodeClass ["a"]
          [TMNode.mk (DatasetNodeClass ["name"; "size"; "type"; "linkfile"])
             ["x"; "3"; "1D"; ""] []]])
    ltac:(distinct) ltac:(distinct) ltac:(simpl; tauto) eq_refl)).
Defined.

Lemma makeGrpTree_single_key_once (self : DatasetRelationModel.t)
  (coltitles cols : list string) (f : Dataset.t -> string) (cls : NodeClass)
  (tree : TMNode.t) :
  unique_names (DatasetRelationModel.doc self) ->
  is_dataset_node cls = false ->
  makeGrpTree self coltitles ("name" :: cols) (fun ds => [f ds]) cls = Ok tree ->
  NoDup (map datasetName (dataset_nodes tree)).
Proof.
  intros Hu Hcls Htree.
  destruct (makeGrpTree_groups self coltitles cols (fun ds => [f ds]) cls Hu
              (singleton_groups f _)) as [children [Heq [_ [Hnd Hin]]]].
  rewrite Heq in Htree. inversion Htree; subst tree.
  cbn [dataset_nodes is_dataset_node app]. rewrite map_flat_map.
  assert (Hg : forall g, In g children ->
            exists grp, map datasetName (dataset_nodes g) =
                        map datasetName
                          (insert_all
                             (map (dsnode ("name" :: cols))
                                (members self ("name" :: cols) (fun ds => [f ds]) grp
                                   (Document.data (DatasetRelationModel.doc self)))) []) /\
                        g = TMNode.mk cls [grp]
                              (insert_all
                                 (map (dsnode ("name" :: cols))
                                    (members self ("name" :: cols) (fun ds => [f ds]) grp
                                       (Document.data (DatasetRelationModel.doc self))))
                                 [])).
  { intros g Hgin. apply Hin in Hgin as [grp [-> _]]. exists grp.
    split; [|reflexivity]. cbn [dataset_nodes]. rewrite Hcls. cbn [app].
    now rewrite dataset_nodes_leaves by apply dsnodes_are_leaves. }
  apply NoDup_flat_map.
  - eapply NoDup_of_map; eauto.
  - intros g Hgin. destruct (Hg g Hgin) as [grp [-> _]].
    apply (group_children self cols (fun ds => [f ds]) grp Hu).
  - intros x y b Hx Hy Hbx Hby.
    destruct (Hg x Hx) as [gx [Ex ->]]. destruct (Hg y Hy) as [gy [Ey ->]].
    rewrite Ex in Hbx. rewrite Ey in Hby.
    apply in_map_iff in Hbx as [cx [Hnx Hcx]]. apply in_map_iff in Hby as [cy [Hny Hcy]].
    apply (group_children self cols (fun ds => [f ds]) gx Hu) in Hcx
      as [kvx [-> [Hix [_ Hkx]]]].
    apply (group_children self cols (fun ds => [f ds]) gy Hu) in Hcy
      as [kvy [-> [Hiy [_ Hky]]]].
    assert (kvx = kvy) by (apply (dsnode_inj cols _ kvx kvy Hu Hix Hiy); congruence).
    subst kvy.
    destruct Hkx as [<-|[]]. destruct Hky as [<-|[]]. reflexivity.
Qed.

(** X14.  In the grouping modes "none", "filename", "type" and "size" no
    dataset has two nodes in the tree: the names of the dataset nodes are
    pairwise distinct.  (In mode "tags" a dataset has one node for each of
    its tags.) *)
Theorem dataset_nodes_once (tr : string -> string) (self : DatasetRelationModel.t)
  (tree : TMNode.t) :
  unique_names (DatasetRelationModel.doc self) ->
  In (DatasetRelationModel.grouping self) ["none"; "filename"; "type"; "size"] ->
  refresh_tree tr self = Ok tree ->
  NoDup (map datasetName (dataset_nodes tree)).
Proof.
  intros Hu Hin. unfold refresh_tree. simpl in Hin.
  destruct Hin as [E|[E|[E|[E|[]]]]]; rewrite <- E;
    cbn [String.eqb Ascii.eqb Bool.eqb]; intros Htree.
  - unfold makeGrpTreeNone in Htree.
    rewrite makeGrpTreeNone_loop_ok in Htree by (auto using incl_refl).
    rewrite fold_insertChildSorted in Htree. inversion Htree; subst tree.
    cbn [dataset_nodes is_dataset_node app TMNode.cls TMNode.childnodes].
    rewrite dataset_nodes_leaves by apply dsnodes_are_leaves.
    eapply Permutation_NoDup;
      [apply Permutation_map; symmetry; apply insert_all_perm|].
    simpl. apply NoDup_names_of_dsnodes. apply NoDup_map_filter. exact Hu.
  - exact (makeGrpTree_single_key_once self _ _ datasetLinkFile FilenameNodeClass
             tree Hu eq_refl Htree).
  - exact (makeGrpTree_single_key_once self _ _ Dataset.dstype TMNodeClass
             tree Hu eq_refl Htree).
  - exact (makeGrpTree_single_key_once self _ _ Dataset.userSize TMNodeClass
             tree Hu eq_refl Htree).
Qed.

Lemma dataset_nodes_once_witness :
  NoDup (map datasetName (dataset_nodes
    (TMNode.mk TMNodeClass ["Dataset"; "Size"; "Filename"]
       [TMNode.mk TMNodeClass ["1D"]
          [TMNode.mk (DatasetNodeClass ["name"; "size"; "linkfile"]) ["x"; "3"; ""] [];
           TMNode.mk (DatasetNodeClass ["name"; "size"; "linkfile"]) ["y"; "4"; ""] []]]))).
Proof.
  apply (dataset_nodes_once (fun s => s)
    (DatasetRelationModel.mk
       (Document.mk [("y", Dataset.mk 1 "numeric" "1D" "4" [] None [] None "" "");
                     ("x", Dataset.mk 1 "numeric" "1D" "3" [] None [] None "" "")])
       "type" "" false None None));
    [distinct | simpl; tauto | reflexivity].
Defined.

(** ** Grouping by file *)

(** X15.  In grouping mode "filename" a dataset that passes the filter is
    under the file node whose [filename] (and tooltip) is the full name of
    its linked file, "/" for a dataset without a file; every dataset under
    a file node is linked to that file.  The node displays the base name
    of the file, and "/" for the datasets without a file. *)
Theorem makeGrpTreeFilename_groups_by_file
  (tr : string -> string) (self : DatasetRelationModel.t) :
  unique_names (DatasetRelationModel.doc self) ->
  exists tree,
    makeGrpTreeFilename tr self = Ok tree /\
    (forall name ds,
       In (name, ds) (Document.data (DatasetRelationModel.doc self)) ->
       datasetFilterOut self ds (dsnode ["name"; "size"; "type"] (name, ds)) = false ->
       exists g, In g (TMNode.childnodes tree) /\
                 TMNode.cls g = FilenameNodeClass /\
                 In (dsnode ["name"; "size"; "type"] (name, ds)) (TMNode.childnodes g) /\
                 filename g = Ok (datasetLinkFile ds) /\
                 FilenameNode_toolTip g 0 = Ok (Some (datasetLinkFile ds)) /\
                 FilenameNode_nodeData g 0 =
                   Ok (Some (if String.eqb (datasetLinkFile ds) "/" then "/"
                             else basename (datasetLinkFile ds)))) /\
    (forall g c, In g (TMNode.childnodes tree) -> In c (TMNode.childnodes g) ->
       exists name ds,
         In (name, ds) (Document.data (DatasetRelationModel.doc self)) /\
         c = dsnode ["name"; "size"; "type"] (name, ds) /\
         filename g = Ok (datasetLinkFile ds)).
Proof.
  intros Hu.
  destruct (makeGrpTree_nodes self [tr "Dataset"; tr "Size"; tr "Type"]
              ["size"; "type"] (fun ds => [datasetLinkFile ds]) FilenameNodeClass Hu
              (singleton_groups datasetLinkFile _)) as [tree [Htree [Hmem Hall]]].
  exists tree. split; [exact Htree|]. split.
  - intros name ds Hin Hkeep.
    destruct (Hmem (name, ds) (datasetLinkFile ds) Hin) as [g [H1 [H2 [H3 H4]]]].
    + unfold kept. cbn [snd]. now rewrite Hkeep.
    + now left.
    + exists g. unfold filename, FilenameNode_toolTip, FilenameNode_nodeData.
      rewrite H3. cbn. destruct (String.eqb (datasetLinkFile ds) "/"); auto 10.
  - intros g c Hg Hc. destruct (Hall g c Hg Hc) as [[name ds] [grp [-> [H1 [_ [H2 H3]]]]]].
    exists name, ds. split; [exact H1|]. split; [reflexivity|].
    unfold filename. rewrite H3. destruct H2 as [<-|[]]. reflexivity.
Qed.

Lemma makeGrpTreeFilename_groups_by_file_witness :
  exists tree,
    makeGrpTreeFilename (fun s => s)
      (DatasetRelationModel.mk
         (Document.mk
            [("x", Dataset.mk 1 "numeric" "1D" "3" [] (Some "/a/d.csv") [] None "" "");
             ("y", Dataset.mk 1 "numeric" "1D" "3" [] (Some "/b/d.csv") [] None "" "")])
         "filename" "" false None None) = Ok tree /\
    forall g c, In g (TMNode.childnodes tree) -> In c (TMNode.childnodes g) ->
      exists name ds, c = dsnode ["name"; "size"; "type"] (name, ds) /\
                      filename g = Ok (datasetLinkFile ds).
Proof.
  destruct (makeGrpTreeFilename_groups_by_file (fun s => s)
    (DatasetRelationModel.mk
       (Document.mk
          [("x", Dataset.mk 1 "numeric" "1D" "3" [] (Some "/a/d.csv") [] None "" "");
           ("y", Dataset.mk 1 "numeric" "1D" "3" [] (Some "/b/d.csv") [] None "" "")])
       "filename" "" false None None) ltac:(distinct)) as [tree [Htree [_ H]]].
  exists tree. split; [exact Htree|]. intros g c Hg Hc.
  destruct (H g c Hg Hc) as [name [ds [_ [H1 H2]]]]. exists name, ds. auto.
Defined.

(** ** The iteration order of the document *)

Lemma Permutation_filter' {A} (p : A -> bool) (l l' : list A) :
  Permutation l l' -> Permutation (List.filter p l) (List.filter p l').
Proof.
  induction 1 as [|x l l' _ IH|x y l|l1 l2 l3 _ IH1 _ IH2]; simpl.
  - constructor.
  - destruct (p x); [now constructor | exact IH].
  - destruct (p x), (p y); try reflexivity. apply perm_swap.
  - now rewrite IH1.
Qed.

Lemma NoDup_data_of_names (l : list TMNode.t) :
  NoDup (map datasetName l) -> NoDup (map TMNode.data l).
Proof.
  intros H.
  assert (E : map datasetName l =
              map (fun d => match d with [] => Raise IndexError | d0 :: _ => Ok d0 end)
                  (map TMNode.data l)) by (rewrite map_map; reflexivity).
  rewrite E in H. eapply NoDup_of_map; eauto.
Qed.

(** The sorted insertion of the nodes of two permutations of items with
    distinct names gives the same list. *)
Lemma insert_all_dsnodes_order (cols : list string) (l l' : list (string * Dataset.t)) :
  NoDup (map fst l) -> Permutation l l' ->
  insert_all (map (dsnode ("name" :: cols)) l) [] =
  insert_all (map (dsnode ("name" :: cols)) l') [].
Proof.
  intros Hnd Hp.
  pose proof (insert_all_perm (map (dsnode ("name" :: cols)) l) []) as H1.
  pose proof (insert_all_perm (map (dsnode ("name" :: cols)) l') []) as H2.
  simpl in H1, H2. apply sorted_nodes_unique.
  - apply insert_all_sorted. constructor.
  - apply insert_all_sorted. constructor.
  - rewrite H1, H2. now apply Permutation_map.
  - apply NoDup_data_of_names.
    eapply Permutation_NoDup; [apply Permutation_map; symmetry; exact H1|].
    now apply NoDup_names_of_dsnodes.
Qed.

Section Reordered.

Variable self : DatasetRelationModel.t.
Variable items' : list (string * Dataset.t).

(** The model over the same datasets, iterated in the order [items']. *)
Let self' : DatasetRelationModel.t :=
  DatasetRelationModel.mk (Document.mk items')
    (DatasetRelationModel.grouping self) (DatasetRelationModel.filter self)
    (DatasetRelationModel.readonly self) (DatasetRelationModel.filterdims self)
    (DatasetRelationModel.filterdtype self).

Hypothesis Hu : unique_names (DatasetRelationModel.doc self).
Hypothesis Hp : Permutation (Document.data (DatasetRelationModel.doc self)) items'.

Lemma reordered_unique : unique_names (DatasetRelationModel.doc self').
Proof.
  unfold unique_names in *. cbn. eapply Permutation_NoDup; [|exact Hu].
  now apply Permutation_map.
Qed.

Lemma reordered_kept (cols : list string) (kv : string * Dataset.t) :
  kept self' cols kv = kept self cols kv.
Proof. reflexivity. Qed.

Lemma reordered_members (cols : list string) (grouper : Dataset.t -> list string)
  (grp : string) :
  Permutation
    (members self cols grouper grp (Document.data (DatasetRelationModel.doc self)))
    (members self' cols grouper grp (Document.data (DatasetRelationModel.doc self'))).
Proof. unfold members. cbn. now apply Permutation_filter'. Qed.

Lemma makeGrpTreeNone_reordered (tr : string -> string) :
  makeGrpTreeNone tr self' = makeGrpTreeNone tr self.
Proof.
  unfold makeGrpTreeNone.
  rewrite !makeGrpTreeNone_loop_ok by (auto using incl_refl, reordered_unique).
  rewrite !fold_insertChildSorted. cbn [TMNode.cls TMNode.data TMNode.childnodes].
  do 2 f_equal. symmetry. apply insert_all_dsnodes_order.
  - apply NoDup_map_filter. exact Hu.
  - cbn. now apply Permutation_filter'.
Qed.

Lemma makeGrpTree_reordered (coltitles cols : list string)
  (grouper : Dataset.t -> list string) (cls : NodeClass) :
  Forall (fun kv => NoDup (grouper (snd kv)))
         (Document.data (DatasetRelationModel.doc self)) ->
  makeGrpTree self' coltitles ("name" :: cols) grouper cls =
  makeGrpTree self coltitles ("name" :: cols) grouper cls.
Proof.
  intros Hg.
  assert (Hg' : Forall (fun kv => NoDup (grouper (snd kv)))
                       (Document.data (DatasetRelationModel.doc self')))
    by (cbn; eapply Permutation_Forall; eauto).
  destruct (makeGrpTree_groups self coltitles cols grouper cls Hu Hg)
    as [ch [-> [Hs [Hnd Hin]]]].
  destruct (makeGrpTree_groups self' coltitles cols grouper cls reordered_unique Hg')
    as [ch' [-> [Hs' [Hnd' Hin']]]].
  do 2 f_equal. apply sorted_nodes_unique; auto.
  apply NoDup_Permutation; [eapply NoDup_of_map; eauto | eapply NoDup_of_map; eauto |].
  intros g. rewrite Hin, Hin'. split.
  - intros [grp [-> [kv [H1 [H2 H3]]]]]. exists grp. split.
    + f_equal. apply insert_all_dsnodes_order.
      * unfold members. apply NoDup_map_filter. apply reordered_unique.
      * apply Permutation_sym, reordered_members.
    + exists kv. repeat split; auto.
      apply (Permutation_in _ (Permutation_sym Hp)). exact H1.
  - intros [grp [-> [kv [H1 [H2 H3]]]]]. exists grp. split.
    + f_equal. apply insert_all_dsnodes_order.
      * unfold members. apply NoDup_map_filter. exact Hu.
      * apply reordered_members.
    + exists kv. repeat split; auto. apply (Permutation_in _ Hp). exact H1.
Qed.

End Reordered.

(** X16.  The tree does not depend on the order in which [doc.data] is
    iterated: for the same datasets with distinct names in another order,
    [refresh] builds the same tree in every grouping mode. *)
Theorem refresh_tree_order_independent
  (tr : string -> string) (self : DatasetRelationModel.t)
  (items' : list (string * Dataset.t)) :
  unique_names (DatasetRelationModel.doc self) ->
  tags_are_sets (DatasetRelationModel.doc self) ->
  Permutation (Document.data (DatasetRelationModel.doc self)) items' ->
  refresh_tree tr
    (DatasetRelationModel.mk (Document.mk items')
       (DatasetRelationModel.grouping self) (DatasetRelationModel.filter self)
       (DatasetRelationModel.readonly self) (DatasetRelationModel.filterdims self)
       (DatasetRelationModel.filterdtype self)) =
  refresh_tree tr self.
Proof.
  intros Hu Hts Hp. unfold refresh_tree. cbn [DatasetRelationModel.grouping].
  destruct (String.eqb _ "none"); [now apply makeGrpTreeNone_reordered|].
  destruct (String.eqb _ "filename").
  { apply makeGrpTree_reordered; auto. apply (singleton_groups datasetLinkFile). }
  destruct (String.eqb _ "size").
  { apply makeGrpTree_reordered; auto. apply (singleton_groups Dataset.userSize). }
  destruct (String.eqb _ "type").
  { apply makeGrpTree_reordered; auto. apply (singleton_groups Dataset.dstype). }
  destruct (String.eqb _ "tags"); [|reflexivity].
  apply makeGrpTree_reordered; auto. now apply getgrp_all_NoDup.
Qed.

Lemma refresh_tree_order_independent_witness :
  refresh_tree (fun s => s)
    (DatasetRelationModel.mk
       (Document.mk [("b", Dataset.mk 1 "numeric" "1D" "3" ["t"] None [] None "" "");
                     ("a", Dataset.mk 1 "numeric" "1D" "3" ["t"; "s"] None [] None "" "")])
       "tags" "" false None None) =
  refresh_tree (fun s => s)
    (DatasetRelationModel.mk
       (Document.mk [("a", Dataset.mk 1 "numeric" "1D" "3" ["t"; "s"] None [] None "" "");
                     ("b", Dataset.mk 1 "numeric" "1D" "3" ["t"] None [] None "" "")])
       "tags" "" false None None).
Proof.
  apply (refresh_tree_order_independent (fun s => s)
    (DatasetRelationModel.mk
       (Document.mk [("a", Dataset.mk 1 "numeric" "1D" "3" ["t"; "s"] None [] None "" "");
                     ("b", Dataset.mk 1 "numeric" "1D" "3" ["t"] None [] None "" "")])
       "tags" "" false None None)
    [("b", Dataset.mk 1 "numeric" "1D" "3" ["t"] None [] None "" "");
     ("a", Dataset.mk 1 "numeric" "1D" "3" ["t"; "s"] None [] None "" "")]);
    [distinct | distinct | apply perm_swap].
Defined.

(** ** Editing flags *)

(** X17.  [flags] adds the bit of [Qt.ItemIsEditable], and nothing else,
    to the flags of the base model, and it does so exactly for a valid
    index in column 0 of a dataset node in a model that is not read-only:
    in a read-only browser, on group and file nodes and in the other
    columns the flags are those of the base model. *)
Theorem flags_editable_bit
  (self : DatasetRelationModel.t) (base : Z) (valid : bool) (obj : TMNode.t)
  (column n : Z) :
  Z.testbit (flags self base valid obj column) n =
  Z.testbit base n
  || ((n =? 1) && valid && is_dataset_node (TMNode.cls obj)
      && negb (DatasetRelationModel.readonly self) && (column =? 0)).
Proof.
  unfold flags, ItemIsEditable.
  assert (H2 : Z.testbit 2 n = (n =? 1)).
  { change 2 with (2 ^ 1). rewrite Z.pow2_bits_eqb by lia. apply Z.eqb_sym. }
  destruct valid, (is_dataset_node (TMNode.cls obj)),
    (DatasetRelationModel.readonly self), (column =? 0); simpl;
    rewrite ?Z.lor_spec, ?H2, ?andb_false_r, ?andb_true_r, ?orb_false_r; reflexivity.
Qed.

(** ** The selected datasets *)

Lemma mapM_Ok {A B} (f : A -> result B) (l : list A) (ys : list B) :
  mapM f l = Ok ys -> Forall2 (fun x y => f x = Ok y) l ys.
Proof.
  revert ys. induction l as [|x l IH]; simpl; intros ys H.
  - inversion H. constructor.
  - destruct (f x) as [y|e] eqn:E; simpl in H; [|discriminate].
    destruct (mapM f l) as [ys'|e] eqn:E'; simpl in H; [|discriminate].
    inversion H; subst. constructor; auto.
Qed.

Lemma mapM_Raise {A B} (f : A -> result B) (l : list A) (e : exn) :
  mapM f l = Raise e -> exists x, In x l /\ f x = Raise e.
Proof.
  induction l as [|x l IH]; simpl; intros H; [discriminate|].
  destruct (f x) as [y|e'] eqn:E; simpl in H.
  - destruct (mapM f l) as [ys'|e''] eqn:E'; simpl in H; [discriminate|].
    inversion H; subst. destruct (IH eq_refl) as [x' [Hin Hx]]. eauto.
  - inversion H; subst. eauto.
Qed.

Lemma mapM_total {A B} (f : A -> result B) (l : list A) :
  (forall x, In x l -> exists y, f x = Ok y) -> exists ys, mapM f l = Ok ys.
Proof.
  induction l as [|x l IH]; simpl; intros H; [eauto|].
  destruct (H x (or_introl eq_refl)) as [y Hy]. rewrite Hy. simpl.
  destruct IH as [ys Hys]; [auto|]. rewrite Hys. simpl. eauto.
Qed.

Lemma Forall2_In_r {A B} (R : A -> B -> Prop) (l : list A) (l' : list B) (y : B) :
  Forall2 R l l' -> In y l' -> exists x, In x l /\ R x y.
Proof.
  induction 1 as [|a b l l' Hab Hl IH]; simpl; [tauto|].
  intros [<-|H]; [eauto|]. destruct (IH H) as [x [H1 H2]]. eauto.
Qed.

Lemma Forall2_In_l {A B} (R : A -> B -> Prop) (l : list A) (l' : list B) (x : A) :
  Forall2 R l l' -> In x l -> exists y, In y l' /\ R x y.
Proof.
  induction 1 as [|a b l l' Hab Hl IH]; simpl; [tauto|].
  intros [<-|H]; [eauto|]. destruct (IH H) as [y [H1 H2]]. eauto.
Qed.

Lemma datasetName_outcome (node : TMNode.t) :
  (TMNode.data node = [] /\ datasetName node = Raise IndexError) \/
  (exists name, datasetName node = Ok name /\ TMNode.data node <> []).
Proof.
  unfold datasetName. destruct (TMNode.data node); [left|right]; eauto.
  eexists. split; [reflexivity|discriminate].
Qed.

(** X18.  When every selected dataset node has its name column,
    [getSelectedDatasets] returns, and the names it gives are exactly
    those of the selected dataset nodes whose dataset is still in the
    document: group and file nodes contribute nothing and a vanished
    dataset is left out.  There is at most one name for each selected
    row, and the names of a selection followed by another are those of
    the first followed by those of the second. *)
Theorem getSelectedDatasets_names
  (doc : Document.t) (selected : list TMNode.t) :
  (forall node, In node selected -> is_dataset_node (TMNode.cls node) = true ->
                TMNode.data node <> []) ->
  exists names,
    getSelectedDatasets doc selected = Ok names /\
    (forall name, In name names <->
       exists node, In node selected /\ is_dataset_node (TMNode.cls node) = true /\
                    datasetName node = Ok name /\
                    exists ds, In (name, ds) (Document.data doc)) /\
    (List.length names <= List.length selected)%nat /\
    (forall other, getSelectedDatasets doc (selected ++ other) =
                   (rest <- getSelectedDatasets doc other ;; Ok (names ++ rest))).
Proof.
  induction selected as [|node selected IH]; intros Hd.
  - exists []. simpl. repeat split; try tauto; try lia.
    + intros [node [[] _]].
    + intros other. destruct (getSelectedDatasets doc other); reflexivity.
  - destruct IH as [names [Hn [Hin [Hlen Happ]]]].
    { intros n Hn. apply Hd. now right. }
    simpl. destruct (is_dataset_node (TMNode.cls node)) eqn:Ec.
    + destruct (datasetName_outcome node) as [[He _]|[name [Hname _]]].
      { exfalso. now apply (Hd node (or_introl eq_refl)). }
      rewrite Hname, Hn. simpl.
      destruct (contains (Document.data doc) name) eqn:Hc.
      * exists (name :: names). repeat split.
        -- intros [<-|H].
           ++ exists node. repeat split; auto.
              destruct (contains_getitem _ _ Hc) as [ds [_ Hds]]. eauto.
           ++ apply Hin in H. destruct H as [n' [H1 H2]]. exists n'. auto.
        -- intros [n' [[<-|H1] [H2 [H3 H4]]]].
           ++ left. congruence.
           ++ right. apply Hin. exists n'. eauto.
        -- simpl. lia.
        -- intros other. rewrite Happ.
           destruct (getSelectedDatasets doc other); reflexivity.
      * exists names. repeat split.
        -- intros H. apply Hin in H. destruct H as [n' [H1 H2]]. exists n'. auto.
        -- intros [n' [[<-|H1] [H2 [H3 [ds H4]]]]].
           ++ exfalso. assert (name0 = name) by congruence. subst.
              assert (contains (Document.data doc) name = true); [|congruence].
              unfold contains. apply existsb_exists. exists (name, ds). split; auto.
              apply String.eqb_refl.
           ++ apply Hin. exists n'. eauto.
        -- simpl. lia.
        -- intros other. rewrite Happ.
           destruct (getSelectedDatasets doc other); reflexivity.
    + rewrite Hn. exists names. repeat split.
      * intros H. apply Hin in H. destruct H as [n' [H1 H2]]. exists n'. auto.
      * intros [n' [[<-|H1] [H2 H3]]]; [congruence|]. apply Hin. exists n'. auto.
      * simpl. lia.
      * intros other. apply Happ.
Qed.

Lemma getSelectedDatasets_names_witness :
  exists names,
    getSelectedDatasets
      (Document.mk [("x", Dataset.mk 1 "numeric" "1D" "5" [] None [] None "" "")])
      [TMNode.mk TMNodeClass ["1D"] [];
       TMNode.mk (DatasetNodeClass ["name"]) ["x"] [];
       TMNode.mk (DatasetNodeClass ["name"]) ["gone"] []] = Ok names /\
    (List.length names <= 3)%nat.
Proof.
  destruct (getSelectedDatasets_names
    (Document.mk [("x", Dataset.mk 1 "numeric" "1D" "5" [] None [] None "" "")])
    [TMNode.mk TMNodeClass ["1D"] [];
     TMNode.mk (DatasetNodeClass ["name"]) ["x"] [];
     TMNode.mk (DatasetNodeClass ["name"]) ["gone"] []]) as [names [H1 [_ [H2 _]]]].
  - simpl. intros node [<-|[<-|[<-|[]]]] _; discriminate.
  - exists names. split; [exact H1|exact H2].
Defined.

(** ** The context menu of file nodes *)

Lemma filename_outcome (node : TMNode.t) :
  (TMNode.data node = [] /\ filename node = Raise IndexError) \/
  (exists f rest, TMNode.data node = f :: rest /\ filename node = Ok f).
Proof.
  unfold filename, py_index, len. destruct (TMNode.data node) as [|f rest]; [left|right].
  - split; reflexivity.
  - exists f, rest. split; [reflexivity|].
    simpl (0 <? 0). cbv iota.
    replace ((0 <? 0) || (Z.of_nat (List.length (f :: rest)) <=? 0)) with false; [reflexivity|].
    symmetry. simpl List.length. destruct (Z.leb_spec (Z.of_nat (S (List.length rest))) 0); [lia|].
    reflexivity.
Qed.

Lemma by_file_targets (g : string -> MenuOperation) (files : list string)
  (descr f : string) :
  g = OperationDatasetUnlinkByFile \/ g = OperationDatasetDeleteByFile ->
  In f (action_files (ApplyOperation (OperationMultiple (map g files) descr))) ->
  In f files.
Proof.
  intros Hg. simpl. induction files as [|x l IH]; simpl; [tauto|].
  destruct Hg as [-> | ->]; simpl; intros [H0|H0]; auto.
Qed.

Lemma filenameContextMenu_empty (tr : string -> string) (nodes : list TMNode.t)
  (entries : list MenuEntry) :
  filenameContextMenu tr nodes = Ok entries ->
  entries = [] <->
  forall f, (exists node, In node nodes /\ filename node = Ok f) -> f = "/".
Proof.
  unfold filenameContextMenu. intros H.
  destruct (mapM filename nodes) as [all|e] eqn:Em; simpl in H; [|discriminate].
  pose proof (mapM_Ok _ _ _ Em) as Hall.
  assert (Hfiles : forall f, In f (List.filter (fun f => negb (String.eqb f "/")) all) <->
                             (exists node, In node nodes /\ filename node = Ok f) /\ f <> "/").
  { intros f. rewrite filter_In. split.
    - intros [Hin Hf]. destruct (Forall2_In_r _ _ _ f Hall Hin) as [n [H1 H2]].
      split; [eauto|]. intros ->. discriminate.
    - intros [[n [H1 H2]] Hf]. destruct (Forall2_In_l _ _ _ n Hall H1) as [y [H3 H4]].
      assert (y = f) by congruence. subst. split; [exact H3|].
      now destruct (String.eqb_spec f "/"). }
  destruct (List.filter (fun f => negb (String.eqb f "/")) all) as [|f0 files] eqn:Ef;
    injection H as <-.
  - split; [|reflexivity]. intros _ f Hf.
    destruct (String.eqb_spec f "/") as [E|E]; [exact E|].
    exfalso. apply (proj2 (Hfiles f)); auto.
  - split; [discriminate|]. intros Hs. exfalso.
    destruct (proj1 (Hfiles f0) (or_introl eq_refl)) as [H1 H2]. apply H2. now apply Hs.
Qed.

(** X19.  [filenameContextMenu] never acts on "/", the node of the
    datasets that are linked to no file.  When every selected file node is
    "/" (or none is selected) it adds nothing to the menu.  Otherwise it
    adds three actions, to reload, to unlink and to delete, and each of
    them names exactly the selected files other than "/". *)
Theorem filenameContextMenu_skips_unlinked
  (tr : string -> string) (nodes : list TMNode.t) (entries : list MenuEntry) :
  filenameContextMenu tr nodes = Ok entries ->
  let selected f := exists node, In node nodes /\ filename node = Ok f in
  (entries = [] <-> forall f, selected f -> f = "/") /\
  (entries <> [] ->
     exists files,
       files <> [] /\
       (forall f, In f files <-> selected f /\ f <> "/") /\
       map entry_actions entries =
         [[Reload files];
          [ApplyOperation (OperationMultiple (map OperationDatasetUnlinkByFile files)
                                             (tr "unlink by file"))];
          [ApplyOperation (OperationMultiple (map OperationDatasetDeleteByFile files)
                                             (tr "delete by file"))]]) /\
  (forall a f, In a (menu_actions entries) -> In f (action_files a) ->
               selected f /\ f <> "/").
Proof.
  intros H selected. split; [exact (filenameContextMenu_empty tr nodes entries H)|].
  unfold filenameContextMenu in H.
  destruct (mapM (filename) nodes) as [all|e] eqn:Em; simpl in H; [|discriminate].
  pose proof (mapM_Ok _ _ _ Em) as Hall.
  assert (Hfiles : forall f, In f (List.filter (fun f => negb (String.eqb f "/")) all) <->
                             selected f /\ f <> "/").
  { intros f. unfold selected. rewrite filter_In. split.
    - intros [Hin Hf]. destruct (Forall2_In_r _ _ _ f Hall Hin) as [n [H1 H2]].
      split; [eauto|]. intros ->. discriminate.
    - intros [[n [H1 H2]] Hf]. destruct (Forall2_In_l _ _ _ n Hall H1) as [y [H3 H4]].
      assert (y = f) by congruence. subst. split; [exact H3|].
      now destruct (String.eqb_spec f "/"). }
  destruct (List.filter (fun f => negb (String.eqb f "/")) all) as [|f0 files'] eqn:Ef;
    injection H as <-.
  - split; [intros Hne; now contradiction Hne|]. simpl. contradiction.
  - split.
    + intros _. exists (f0 :: files'). split; [discriminate|]. split; [exact Hfiles|reflexivity].
    + intros a f Ha Hf. apply Hfiles. simpl in Ha.
      destruct Ha as [<-|[<-|[<-|[]]]].
      * exact Hf.
      * apply (by_file_targets OperationDatasetUnlinkByFile (f0 :: files') _ _
                 (or_introl eq_refl) Hf).
      * apply (by_file_targets OperationDatasetDeleteByFile (f0 :: files') _ _
                 (or_intror eq_refl) Hf).
Qed.

Lemma filenameContextMenu_skips_unlinked_witness :
  exists files,
    files <> [] /\
    (forall f, In f files <->
       (exists node,
          In node [TMNode.mk FilenameNodeClass ["/"] [];
                   TMNode.mk FilenameNodeClass ["/d/a.dat"] []] /\
          filename node = Ok f) /\ f <> "/") /\
    map entry_actions
      [MenuAction "Reload" None (Reload ["/d/a.dat"]);
       MenuAction "Unlink all" None
         (ApplyOperation (OperationMultiple
            [OperationDatasetUnlinkByFile "/d/a.dat"] "unlink by file"));
       MenuAction "Delete all" None
         (ApplyOperation (OperationMultiple
            [OperationDatasetDeleteByFile "/d/a.dat"] "delete by file"))] =
    [[Reload files];
     [ApplyOperation (OperationMultiple (map OperationDatasetUnlinkByFile files)
                                        "unlink by file")];
     [ApplyOperation (OperationMultiple (map OperationDatasetDeleteByFile files)
                                        "delete by file")]].
Proof.
  apply (proj1 (proj2 (filenameContextMenu_skips_unlinked (fun s => s)
    [TMNode.mk FilenameNodeClass ["/"] []; TMNode.mk FilenameNodeClass ["/d/a.dat"] []]
    _ eq_refl))).
  discriminate.
Defined.

(** ** The context menu of dataset nodes *)

Lemma remove_spaces_chars (s : string) :
  chars (remove_spaces s) = List.filter (fun c => negb (Ascii.eqb c " ")) (chars s).
Proof.
  induction s as [|c s IH]; simpl; [reflexivity|].
  destruct (Ascii.eqb c " "); simpl; now rewrite IH.
Qed.

Lemma chars_nil (s : string) : chars s = [] <-> s = EmptyString.
Proof. destruct s; simpl; split; intros H; try reflexivity; discriminate. Qed.

(** X20.  The tag that "Add..." gives to the selected datasets is the
    text entered, stripped and with its spaces removed; it is never empty
    and holds no space.  Nothing is tagged when the dialog is cancelled
    or when the stripped text holds nothing but spaces. *)
Theorem addtag_tag_has_no_space
  (strip : string -> string) (dsnames : list string) (text : string) (ok : bool) :
  (forall op, addtag strip dsnames text ok = Some op ->
     exists tag,
       op = OperationDataTag tag dsnames /\ ok = true /\ tag <> EmptyString /\
       ~ In " "%char (chars tag) /\
       chars tag = List.filter (fun c => negb (Ascii.eqb c " ")) (chars (strip text))) /\
  (addtag strip dsnames text ok = None <->
     ok = false \/ forall c, In c (chars (strip text)) -> c = " "%char).
Proof.
  unfold addtag. destruct ok.
  - destruct (String.eqb_spec (remove_spaces (strip text)) EmptyString) as [E|E]; simpl.
    + split; [discriminate|]. split; [|reflexivity]. intros _. right. intros c Hc.
      apply chars_nil in E. rewrite remove_spaces_chars in E.
      destruct (Ascii.eqb_spec c " ") as [Hs|Hs]; [exact Hs|]. exfalso.
      assert (Hin : In c (List.filter (fun c => negb (Ascii.eqb c " ")) (chars (strip text)))).
      { apply filter_In. split; [exact Hc|]. now destruct (Ascii.eqb_spec c " "). }
      rewrite E in Hin. contradiction.
    + split.
      * intros op H. inversion H; subst. exists (remove_spaces (strip text)).
        repeat split; auto.
        -- rewrite remove_spaces_chars. intros Hin. apply filter_In in Hin.
           destruct Hin as [_ Hin]. discriminate.
        -- apply remove_spaces_chars.
      * split; [discriminate|]. intros [H|H]; [discriminate|]. exfalso. apply E.
        apply chars_nil. rewrite remove_spaces_chars.
        destruct (List.filter (fun c => negb (Ascii.eqb c " ")) (chars (strip text)))
          as [|c l] eqn:Ef; [reflexivity|].
        assert (Hin : In c (c :: l)) by now left. rewrite <- Ef in Hin.
        apply filter_In in Hin. destruct Hin as [Hc Hn]. rewrite (H c Hc) in Hn. discriminate.
  - split; [discriminate|]. split; auto.
Qed.

Lemma addtag_tag_has_no_space_witness :
  exists tag,
    OperationDataTag "mytag" ["x"] = OperationDataTag tag ["x"] /\ true = true /\
    tag <> EmptyString /\ ~ In " "%char (chars tag) /\
    chars tag = List.filter (fun c => negb (Ascii.eqb c " ")) (chars "my tag").
Proof.
  apply (proj1 (addtag_tag_has_no_space (fun s => s) ["x"] "my tag" true)
               (OperationDataTag "mytag" ["x"]) eq_refl).
Defined.

Lemma forallb_of_map {A B} (f : A -> B) (p : B -> bool) (l : list A) :
  forallb p (map f l) = forallb (fun x => p (f x)) l.
Proof. induction l as [|x l IH]; simpl; [reflexivity|]. now rewrite IH. Qed.

Lemma existsb_of_map {A B} (f : A -> B) (p : B -> bool) (l : list A) :
  existsb p (map f l) = existsb (fun x => p (f x)) l.
Proof. induction l as [|x l IH]; simpl; [reflexivity|]. now rewrite IH. Qed.

Lemma compress_none {A} (l : list A) (keep : list bool) :
  existsb (fun b => b) keep = false -> compress l keep = [].
Proof.
  revert keep. induction l as [|x l IH]; intros [|[|] keep]; simpl; try reflexivity;
    try discriminate. apply IH.
Qed.

Lemma compress_In {A B} (f : B -> bool) (names : list A) (present : list B) (n : A) :
  List.length names = List.length present ->
  In n (compress names (map f present)) <->
  exists ds, In (n, ds) (combine names present) /\ f ds = true.
Proof.
  revert present. induction names as [|x names IH]; intros [|d present]; simpl;
    try discriminate.
  - intros _. split; [intros []|intros [ds [[] _]]].
  - intros Hl. injection Hl as Hl. specialize (IH present Hl).
    destruct (f d) eqn:Ef; simpl; rewrite IH; split.
    + intros [<-|[ds [H1 H2]]]; eauto.
    + intros [ds [[H|H] H2]]; [inversion H; subst; auto|eauto].
    + intros [ds [H1 H2]]; eauto.
    + intros [ds [[H|H] H2]]; [inversion H; subst; congruence|eauto].
Qed.

Lemma compress_negb {A} (l : list A) (keep : list bool) (x : A) :
  List.length l = List.length keep ->
  In x l -> In x (compress l keep) \/ In x (compress l (map negb keep)).
Proof.
  revert keep. induction l as [|y l IH]; intros [|[|] keep]; simpl; try discriminate;
    try tauto; intros Hl; injection Hl as Hl; intros [<-|H]; auto;
    destruct (IH keep Hl H); auto.
Qed.

Lemma all_present_Some (datasets : list (option Dataset.t)) (present : list Dataset.t) :
  all_present datasets = Some present -> datasets = map Some present.
Proof.
  revert present. induction datasets as [|[d|] l IH]; simpl; intros present H.
  - inversion H. reflexivity.
  - destruct (all_present l) as [ds|]; [|discriminate]. inversion H; subst.
    simpl. now rewrite (IH ds eq_refl).
  - discriminate.
Qed.

Lemma all_present_None (datasets : list (option Dataset.t)) :
  all_present datasets = None <-> In None datasets.
Proof.
  induction datasets as [|[d|] l IH]; simpl.
  - split; [discriminate|tauto].
  - destruct (all_present l) as [ds|].
    + split; [discriminate|]. intros [H|H]; [discriminate|]. apply IH in H. discriminate.
    + split; [|reflexivity]. intros _. right. now apply IH.
  - split; auto.
Qed.

Lemma dataset_Some (doc : Document.t) (node : TMNode.t) (ds : Dataset.t) :
  dataset doc node = Ok (Some ds) <->
  exists name, datasetName node = Ok name /\ getitem (Document.data doc) name = Ok ds.
Proof.
  unfold dataset. destruct (datasetName node) as [name|e]; simpl.
  - destruct (getitem (Document.data doc) name) as [d|[]] eqn:Eg; split;
      try discriminate; try (intros [n [H1 H2]]; inversion H1; subst; congruence).
    intros H. inversion H; subst. eauto.
  - split; [discriminate|]. intros [n [H _]]. discriminate.
Qed.

Lemma dataset_None (doc : Document.t) (node : TMNode.t) :
  dataset doc node = Ok None <->
  exists name, datasetName node = Ok name /\ contains (Document.data doc) name = false.
Proof.
  unfold dataset. destruct (datasetName node) as [name|e]; simpl.
  - destruct (getitem (Document.data doc) name) as [d|e] eqn:Eg.
    + split; [discriminate|]. intros [n [H1 H2]]. inversion H1; subst.
      rewrite (getitem_not_in _ _ H2) in Eg. discriminate.
    + assert (Hc : contains (Document.data doc) name = false).
      { destruct (contains (Document.data doc) name) eqn:Hc; [|reflexivity].
        destruct (contains_getitem _ _ Hc) as [ds [H _]]. congruence. }
      rewrite (getitem_not_in _ _ Hc) in Eg. inversion Eg; subst. split; eauto.
  - split; [discriminate|]. intros [n [H _]]. discriminate.
Qed.

(** The names and the datasets that [datasetContextMenu] works on are
    those of the nodes, in step. *)
Lemma selected_in_step (doc : Document.t) (dsnodes : list TMNode.t)
  (dsnames : list string) (present : list Dataset.t) :
  mapM (dataset doc) dsnodes = Ok (map Some present) ->
  mapM datasetName dsnodes = Ok dsnames ->
  List.length dsnames = List.length present /\
  List.length dsnames = List.length dsnodes /\
  (forall name ds, In (name, ds) (combine dsnames present) ->
     getitem (Document.data doc) name = Ok ds /\
     exists node, In node dsnodes /\ datasetName node = Ok name) /\
  (forall node name, In node dsnodes -> datasetName node = Ok name ->
     exists ds, In (name, ds) (combine dsnames present)).
Proof.
  revert dsnames present. induction dsnodes as [|node l IH]; simpl; intros dsnames present H1 H2.
  - inversion H2; subst. destruct present; [|discriminate]. simpl.
    repeat split; tauto.
  - destruct (dataset doc node) as [d|] eqn:Ed; simpl in H1; [|discriminate].
    destruct (mapM (dataset doc) l) as [ds|] eqn:Em; simpl in H1; [|discriminate].
    destruct (datasetName node) as [name|] eqn:En; simpl in H2; [|discriminate].
    destruct (mapM datasetName l) as [names|] eqn:Emn; simpl in H2; [|discriminate].
    inversion H2; subst. destruct present as [|p present]; [discriminate|].
    simpl in H1. inversion H1; subst.
    destruct (IH names present eq_refl eq_refl) as [Hl [Hl' [Hc Hn]]].
    apply dataset_Some in Ed. destruct Ed as [name' [E1 E2]].
    assert (name' = name) by congruence. subst. simpl.
    split; [lia|]. split; [lia|]. split.
    + intros n ds [H|H].
      * inversion H; subst. split; [exact E2|]. exists node. auto.
      * destruct (Hc n ds H) as [Hg [node' [Hin Hname]]]. split; [exact Hg|]. exists node'. auto.
    + intros node' n [<-|Hin] Hname.
      * exists p. left. congruence.
      * destruct (Hn node' n Hin Hname) as [ds Hds]. exists ds. now right.
Qed.

Lemma flat_map_leaf_map (g : string -> MenuOperation) (l : list string) :
  (forall x, leaf_operations (g x) = [g x]) ->
  flat_map leaf_operations (map g l) = map g l.
Proof.
  intros Hg. induction l as [|x l IH]; simpl; [reflexivity|]. now rewrite Hg, IH.
Qed.

Lemma menu_actions_app (a b : list MenuEntry) :
  menu_actions (a ++ b) = menu_actions a ++ menu_actions b.
Proof. apply flat_map_app. Qed.

Lemma menu_operations_app (a b : list MenuEntry) :
  menu_operations (a ++ b) = menu_operations a ++ menu_operations b.
Proof. unfold menu_operations. rewrite menu_actions_app. apply flat_map_app. Qed.

Lemma menu_checkable_app (a b : list MenuEntry) :
  menu_checkable (a ++ b) = menu_checkable a ++ menu_checkable b.
Proof. apply flat_map_app. Qed.

Lemma substring_prefix (p s : string) :
  String.eqb (substring 0 (String.length p) s) p = prefix p s.
Proof.
  destruct (prefix p s) eqn:E.
  - apply prefix_correct in E. rewrite E. apply String.eqb_refl.
  - destruct (String.eqb_spec (substring 0 (String.length p) s) p) as [H|H]; [|reflexivity].
    apply prefix_correct in H. congruence.
Qed.

Lemma menu_actions_if (b : bool) (e : MenuEntry) :
  menu_actions (if b then [e] else []) = if b then entry_actions e else [].
Proof. destruct b; unfold menu_actions; simpl; rewrite ?app_nil_r; reflexivity. Qed.

Lemma menu_checkable_if (b : bool) (e : MenuEntry) :
  menu_checkable (if b then [e] else []) = if b then entry_checkable e else [].
Proof. destruct b; unfold menu_checkable; simpl; rewrite ?app_nil_r; reflexivity. Qed.

Lemma menu_actions_submenu (label : string) (entries : list MenuEntry) :
  menu_actions [SubMenu label entries] = menu_actions entries.
Proof. unfold menu_actions. simpl. now rewrite app_nil_r. Qed.

Lemma menu_checkable_submenu (label : string) (entries : list MenuEntry) :
  menu_checkable [SubMenu label entries] = menu_checkable entries.
Proof. unfold menu_checkable. simpl. now rewrite app_nil_r. Qed.

Lemma menu_actions_cons (e : MenuEntry) (entries : list MenuEntry) :
  menu_actions (e :: entries) = entry_actions e ++ menu_actions entries.
Proof. reflexivity. Qed.

Lemma menu_checkable_cons (e : MenuEntry) (entries : list MenuEntry) :
  menu_checkable (e :: entries) = entry_checkable e ++ menu_checkable entries.
Proof. reflexivity. Qed.

Section MenuContent.

Variable tr : string -> string.
Variable recreatable : Dataset.t -> bool.
Variable canUnlink : Dataset.t -> bool.
Variable datasetTags : Document.t -> list string.
Variable doc_datasetName : Document.t -> Dataset.t -> string.
Variable walkNodes : Document.t -> list (string * Setting).

Lemma getMenuUseAs_entries (doc : Document.t) (d : Dataset.t) :
  getMenuUseAs doc_datasetName walkNodes doc d =
  map (fun ps => MenuAction (fst ps) None
                   (ApplyOperation (OperationSettingSet (fst ps) (doc_datasetName doc d))))
      (List.filter (usable_for d) (walkNodes doc)).
Proof.
  unfold getMenuUseAs. induction (walkNodes doc) as [|[path setn] l IH]; simpl; [reflexivity|].
  rewrite IH. unfold usable_for at 2. simpl.
  destruct setn as [dims dt|]; [|reflexivity].
  change 12%nat with (String.length "/StyleSheet/"). rewrite substring_prefix.
  destruct ((dims =? Dataset.dimensions d) && String.eqb dt (Dataset.datatype d)
            && negb (prefix "/StyleSheet/" path)); reflexivity.
Qed.

Lemma getMenuUseAs_actions (doc : Document.t) (d : Dataset.t) :
  menu_actions (getMenuUseAs doc_datasetName walkNodes doc d) =
  map (fun ps => ApplyOperation (OperationSettingSet (fst ps) (doc_datasetName doc d)))
      (List.filter (usable_for d) (walkNodes doc)).
Proof.
  rewrite getMenuUseAs_entries. unfold menu_actions.
  induction (List.filter (usable_for d) (walkNodes doc)) as [|x l IH]; simpl; [auto|].
  now rewrite IH.
Qed.

Lemma getMenuUseAs_checkable (doc : Document.t) (d : Dataset.t) :
  menu_checkable (getMenuUseAs doc_datasetName walkNodes doc d) = [].
Proof.
  rewrite getMenuUseAs_entries. unfold menu_checkable.
  induction (List.filter (usable_for d) (walkNodes doc)) as [|x l IH]; simpl; auto.
Qed.

Lemma tag_entries_content (doc : Document.t) (present : list Dataset.t)
  (dsnames : list string) :
  menu_actions (tag_entries tr datasetTags doc present dsnames) =
    map (fun tag => ApplyOperation (toggle_operation tag present dsnames)) (datasetTags doc)
    ++ [AddTag dsnames] /\
  menu_operations (tag_entries tr datasetTags doc present dsnames) =
    map (fun tag => toggle_operation tag present dsnames) (datasetTags doc) /\
  menu_checkable (tag_entries tr datasetTags doc present dsnames) =
    map (fun tag => (tag, forallb (fun d => in_str tag (Dataset.tags d)) present,
                     ApplyOperation (toggle_operation tag present dsnames)))
        (datasetTags doc).
Proof.
  assert (E : tag_entries tr datasetTags doc present dsnames =
              map (fun tag =>
                     MenuAction tag
                       (Some (forallb (fun d => in_str tag (Dataset.tags d)) present))
                       (ApplyOperation (toggle_operation tag present dsnames)))
                  (datasetTags doc)
              ++ [MenuAction (tr "Add...") None (AddTag dsnames)]).
  { unfold tag_entries, toggle_operation. f_equal. apply map_ext. intros tag.
    now rewrite forallb_of_map. }
  assert (Hl : forall tag, leaf_operations (toggle_operation tag present dsnames) =
                            [toggle_operation tag present dsnames]).
  { intros tag. unfold toggle_operation.
    destruct (forallb (fun d => in_str tag (Dataset.tags d)) present); reflexivity. }
  rewrite E. clear E. rewrite menu_operations_app, menu_actions_app, menu_checkable_app.
  unfold menu_operations, menu_actions, menu_checkable. simpl. rewrite !app_nil_r.
  induction (datasetTags doc) as [|tag l IH]; simpl; [auto|].
  destruct IH as [IH1 [IH2 IH3]].
  apply app_inv_tail in IH1.
  split; [now rewrite IH1|]. split; [|now rewrite IH3].
  rewrite Hl. simpl. now rewrite IH2.
Qed.

(** What [datasetContextMenu] puts in the menu. *)
Lemma datasetContextMenu_content (doc : Document.t) (dsnodes : list TMNode.t)
  (entries : list MenuEntry) :
  datasetContextMenu tr recreatable canUnlink datasetTags doc_datasetName walkNodes
    doc dsnodes = Returns entries ->
  exists dsnames present,
    mapM (dataset doc) dsnodes = Ok (map Some present) /\
    mapM datasetName dsnodes = Ok dsnames /\
    menu_actions entries =
      (if existsb recreatable present
       then [Recreate (compress dsnames (map recreatable present))] else [])
      ++ (if negb (forallb recreatable present)
          then [EditData (compress dsnames (map negb (map recreatable present)))] else [])
      ++ [ApplyOperation (OperationMultiple (map OperationDatasetDelete dsnames)
                                            (tr "delete dataset(s)"))]
      ++ (if existsb (fun d => canUnlink d && is_linked d) present
          then [ApplyOperation
                  (OperationMultiple
                     (map OperationDatasetUnlinkFile
                          (compress dsnames
                             (map (fun d => canUnlink d && is_linked d) present)))
                     (tr "unlink dataset(s)"))]
          else [])
      ++ (if existsb (fun d => canUnlink d && negb (is_linked d)) present
          then [ApplyOperation
                  (OperationMultiple
                     (map OperationDatasetUnlinkRelation
                          (compress dsnames
                             (map (fun d => canUnlink d && negb (is_linked d)) present)))
                     (tr "unlink dataset(s)"))]
          else [])
      ++ (map (fun tag => ApplyOperation (toggle_operation tag present dsnames))
              (datasetTags doc) ++ [AddTag dsnames])
      ++ [CopyDatasets dsnames]
      ++ match present with
         | [d] => map (fun ps => ApplyOperation
                                   (OperationSettingSet (fst ps) (doc_datasetName doc d)))
                      (List.filter (usable_for d) (walkNodes doc))
         | _ => []
         end /\
    menu_checkable entries =
      map (fun tag => (tag, forallb (fun d => in_str tag (Dataset.tags d)) present,
                       ApplyOperation (toggle_operation tag present dsnames)))
          (datasetTags doc).
Proof.
  unfold datasetContextMenu. intros H.
  destruct (mapM (dataset doc) dsnodes) as [datasets|] eqn:Ed; [|discriminate].
  destruct (mapM datasetName dsnodes) as [dsnames|] eqn:En; [|discriminate].
  destruct (all_present datasets) as [present|] eqn:Ep; [|discriminate].
  apply all_present_Some in Ep. subst datasets.
  exists dsnames, present. split; [reflexivity|]. split; [reflexivity|].
  rewrite map_map in H. rewrite !existsb_of_map, !forallb_of_map in H.
  injection H as <-.
  destruct (tag_entries_content doc present dsnames) as [Ht [_ Htc]].
  unfold menu_actions in Ht. unfold menu_checkable in Htc.
  split.
  - repeat (rewrite menu_actions_app || rewrite menu_actions_cons).
    rewrite !menu_actions_if. simpl entry_actions. rewrite Ht.
    destruct present as [|d [|d' present']]; try reflexivity.
    rewrite menu_actions_submenu, getMenuUseAs_actions. reflexivity.
  - repeat (rewrite menu_checkable_app || rewrite menu_checkable_cons).
    rewrite !menu_checkable_if. simpl entry_checkable. rewrite Htc.
    assert (Hu : menu_checkable
                   match present with
                   | [d] => [SubMenu (tr "Use as")
                               (getMenuUseAs doc_datasetName walkNodes doc d)]
                   | _ => []
                   end = []).
    { destruct present as [|d [|d' present']]; try reflexivity.
      rewrite menu_checkable_submenu. apply getMenuUseAs_checkable. }
    rewrite Hu.
    repeat match goal with |- context [if ?b then _ else _] => destruct b end;
      simpl; rewrite ?app_nil_r; reflexivity.
Qed.

Lemma operations_of_map {A} (g : A -> MenuOperation) (l : list A) :
  (forall x, leaf_operations (g x) = [g x]) ->
  flat_map action_operations (map (fun x => ApplyOperation (g x)) l) = map g l.
Proof.
  intros Hg. induction l as [|x l IH]; simpl; [reflexivity|]. now rewrite Hg, IH.
Qed.

Lemma operations_if_multiple (g : string -> MenuOperation) (f : Dataset.t -> bool)
  (dsnames : list string) (present : list Dataset.t) (descr : string) :
  (forall x, leaf_operations (g x) = [g x]) ->
  flat_map action_operations
    (if existsb f present
     then [ApplyOperation (OperationMultiple (map g (compress dsnames (map f present))) descr)]
     else []) = map g (compress dsnames (map f present)).
Proof.
  intros Hg. destruct (existsb f present) eqn:E; simpl.
  - now rewrite app_nil_r, flat_map_leaf_map.
  - rewrite compress_none; [reflexivity|]. now rewrite existsb_of_map.
Qed.

(** The single operations that the menu of [datasetContextMenu] can
    apply. *)
Lemma datasetContextMenu_operations (doc : Document.t) (dsnodes : list TMNode.t)
  (entries : list MenuEntry) :
  datasetContextMenu tr recreatable canUnlink datasetTags doc_datasetName walkNodes
    doc dsnodes = Returns entries ->
  exists dsnames present,
    mapM (dataset doc) dsnodes = Ok (map Some present) /\
    mapM datasetName dsnodes = Ok dsnames /\
    menu_operations entries =
      map OperationDatasetDelete dsnames
      ++ map OperationDatasetUnlinkFile
           (compress dsnames (map (fun d => canUnlink d && is_linked d) present))
      ++ map OperationDatasetUnlinkRelation
           (compress dsnames (map (fun d => canUnlink d && negb (is_linked d)) present))
      ++ map (fun tag => toggle_operation tag present dsnames) (datasetTags doc)
      ++ match present with
         | [d] => map (fun ps => OperationSettingSet (fst ps) (doc_datasetName doc d))
                      (List.filter (usable_for d) (walkNodes doc))
         | _ => []
         end.
Proof.
  intros H. destruct (datasetContextMenu_content doc dsnodes entries H)
    as [dsnames [present [H1 [H2 [Ha _]]]]].
  exists dsnames, present. split; [exact H1|]. split; [exact H2|].
  unfold menu_operations. rewrite Ha. rewrite !flat_map_app.
  rewrite (operations_if_multiple OperationDatasetUnlinkFile) by reflexivity.
  rewrite (operations_if_multiple OperationDatasetUnlinkRelation) by reflexivity.
  rewrite (operations_of_map (fun tag => toggle_operation tag present dsnames)).
  2:{ intros tag. unfold toggle_operation.
      destruct (forallb (fun d => in_str tag (Dataset.tags d)) present); reflexivity. }
  replace (flat_map action_operations
             (if existsb recreatable present
              then [Recreate (compress dsnames (map recreatable present))] else []))
    with (@nil MenuOperation) by (destruct (existsb recreatable present); reflexivity).
  replace (flat_map action_operations
             (if negb (forallb recreatable present)
              then [EditData (compress dsnames (map negb (map recreatable present)))]
              else []))
    with (@nil MenuOperation) by (destruct (forallb recreatable present); reflexivity).
  simpl. rewrite !app_nil_r, flat_map_leaf_map by reflexivity.
  do 4 f_equal.
  destruct present as [|d [|d' present']]; try reflexivity.
  apply (operations_of_map (fun ps => OperationSettingSet (fst ps) (doc_datasetName doc d))).
  reflexivity.
Qed.

End MenuContent.

Lemma selected_names (dsnodes : list TMNode.t) (dsnames : list string) (name : string) :
  mapM datasetName dsnodes = Ok dsnames ->
  In name dsnames <-> exists node, In node dsnodes /\ datasetName node = Ok name.
Proof.
  intros H. apply mapM_Ok in H. induction H as [|x y l l' Hxy Hl IH]; simpl.
  - split; [intros []|intros [n [[] _]]].
  - rewrite IH. split.
    + intros [<-|[n [H1 H2]]]; eauto.
    + intros [n [[<-|H1] H2]]; [left; congruence|eauto].
Qed.

Ltac other_operation H :=
  apply in_map_iff in H; destruct H as [? [H _]];
  try (unfold toggle_operation in H;
       match type of H with context [if ?b then _ else _] => destruct b end);
  discriminate.

(** X21.  In the menu of [datasetContextMenu], "Delete" deletes exactly
    the selected datasets.  "Unlink file" unlinks exactly the selected
    datasets that can be unlinked and are linked to a file, "Unlink
    relation" exactly those that can be unlinked and are linked to no
    file: no dataset is unlinked in both ways, and one that cannot be
    unlinked is unlinked in neither. *)
Theorem datasetContextMenu_delete_and_unlink
  (tr : string -> string) (recreatable canUnlink : Dataset.t -> bool)
  (datasetTags : Document.t -> list string)
  (doc_datasetName : Document.t -> Dataset.t -> string)
  (walkNodes : Document.t -> list (string * Setting))
  (doc : Document.t) (dsnodes : list TMNode.t) (entries : list MenuEntry) (name : string) :
  datasetContextMenu tr recreatable canUnlink datasetTags doc_datasetName walkNodes
    doc dsnodes = Returns entries ->
  let selected := exists node, In node dsnodes /\ datasetName node = Ok name in
  let ops := menu_operations entries in
  (In (OperationDatasetDelete name) ops <-> selected) /\
  (In (OperationDatasetUnlinkFile name) ops <->
     selected /\ exists ds, getitem (Document.data doc) name = Ok ds /\
                            canUnlink ds = true /\ is_linked ds = true) /\
  (In (OperationDatasetUnlinkRelation name) ops <->
     selected /\ exists ds, getitem (Document.data doc) name = Ok ds /\
                            canUnlink ds = true /\ is_linked ds = false) /\
  ~ (In (OperationDatasetUnlinkFile name) ops /\
     In (OperationDatasetUnlinkRelation name) ops).
Proof.
  intros H selected ops.
  destruct (datasetContextMenu_operations _ _ _ _ _ _ _ _ _ H)
    as [dsnames [present [H1 [H2 Hops]]]].
  destruct (selected_in_step doc dsnodes dsnames present H1 H2) as [Hl [_ [Hc Hn]]].
  pose proof (selected_names dsnodes dsnames name H2) as Hsel. fold selected in Hsel.
  assert (Hin : forall (g : string -> MenuOperation) (f : Dataset.t -> bool),
            (forall x y, g x = g y -> x = y) ->
            In (g name) (map g (compress dsnames (map f present))) <->
            selected /\ exists ds, getitem (Document.data doc) name = Ok ds /\ f ds = true).
  { intros g f Hg. rewrite in_map_iff. split.
    - intros [x [Hx Hi]]. apply Hg in Hx. subst x.
      apply (compress_In f dsnames present name Hl) in Hi. destruct Hi as [ds [Hd Hf]].
      destruct (Hc name ds Hd) as [Hget Hnode]. split; [exact Hnode|eauto].
    - intros [[node [Hnode Hname]] [ds [Hget Hf]]]. exists name. split; [reflexivity|].
      apply (compress_In f dsnames present name Hl).
      destruct (Hn node name Hnode Hname) as [ds' Hd]. exists ds'. split; [exact Hd|].
      destruct (Hc name ds' Hd) as [Hget' _]. congruence. }
  assert (Huf : In (OperationDatasetUnlinkFile name) ops <->
                selected /\ exists ds, getitem (Document.data doc) name = Ok ds /\
                                       canUnlink ds = true /\ is_linked ds = true).
  { unfold ops. rewrite Hops, !in_app_iff.
    rewrite (Hin OperationDatasetUnlinkFile (fun d => canUnlink d && is_linked d));
      [|congruence].
    split.
    - intros [Hx|[[Hs [ds [Hg Hf]]]|[Hx|[Hx|Hx]]]].
      + other_operation Hx.
      + apply andb_true_iff in Hf. eauto.
      + other_operation Hx.
      + other_operation Hx.
      + destruct present as [|d [|d' present']]; try contradiction. other_operation Hx.
    - intros [Hs [ds [Hg [Hu Hk]]]]. right. left. split; [exact Hs|]. exists ds.
      rewrite Hu, Hk. auto. }
  assert (Hur : In (OperationDatasetUnlinkRelation name) ops <->
                selected /\ exists ds, getitem (Document.data doc) name = Ok ds /\
                                       canUnlink ds = true /\ is_linked ds = false).
  { unfold ops. rewrite Hops, !in_app_iff.
    rewrite (Hin OperationDatasetUnlinkRelation (fun d => canUnlink d && negb (is_linked d)));
      [|congruence].
    split.
    - intros [Hx|[Hx|[[Hs [ds [Hg Hf]]]|[Hx|Hx]]]].
      + other_operation Hx.
      + other_operation Hx.
      + apply andb_true_iff in Hf. destruct Hf as [Hu Hk]. apply negb_true_iff in Hk. eauto.
      + other_operation Hx.
      + destruct present as [|d [|d' present']]; try contradiction. other_operation Hx.
    - intros [Hs [ds [Hg [Hu Hk]]]]. right. right. left. split; [exact Hs|]. exists ds.
      rewrite Hu, Hk. auto. }
  split; [|split; [exact Huf|split; [exact Hur|]]].
  - unfold ops. rewrite Hops, !in_app_iff, <- Hsel. split.
    + intros [Hx|[Hx|[Hx|[Hx|Hx]]]].
      * apply in_map_iff in Hx. destruct Hx as [x [Hx Hi]]. congruence.
      * other_operation Hx.
      * other_operation Hx.
      * other_operation Hx.
      * destruct present as [|d [|d' present']]; try contradiction. other_operation Hx.
    + intros Hi. left. now apply in_map.
  - intros [Ha Hb]. apply Huf in Ha. apply Hur in Hb.
    destruct Ha as [_ [ds [Hg [_ Hk]]]]. destruct Hb as [_ [ds' [Hg' [_ Hk']]]].
    congruence.
Qed.

Lemma datasetContextMenu_delete_and_unlink_witness :
  In (OperationDatasetUnlinkFile "x")
     [OperationDatasetDelete "x"; OperationDatasetUnlinkFile "x";
      OperationDataTag "t" ["x"]] <->
  (exists node, In node [TMNode.mk (DatasetNodeClass ["name"]) ["x"] []] /\
                datasetName node = Ok "x") /\
  exists ds,
    getitem [("x", Dataset.mk 1 "numeric" "1D" "5" [] (Some "/d/a.dat") [] None "" "")] "x"
      = Ok ds /\
    true = true /\ is_linked ds = true.
Proof.
  apply (proj1 (proj2 (datasetContextMenu_delete_and_unlink
    (fun s => s) (fun _ => false) (fun _ => true) (fun _ => ["t"]) (fun _ _ => "x")
    (fun _ => [])
    (Document.mk [("x", Dataset.mk 1 "numeric" "1D" "5" [] (Some "/d/a.dat") [] None "" "")])
    [TMNode.mk (DatasetNodeClass ["name"]) ["x"] []] _ "x" eq_refl))).
Defined.

(** X22.  The tagging submenu of [datasetContextMenu] has one checkable
    action for each tag of the document and no other checkable action is
    in the menu.  The action of a tag is checked exactly when every
    selected dataset carries the tag; triggering a checked one removes
    the tag from all the selected datasets, triggering an unchecked one
    gives it to all of them. *)
Theorem datasetContextMenu_tag_toggles
  (tr : string -> string) (recreatable canUnlink : Dataset.t -> bool)
  (datasetTags : Document.t -> list string)
  (doc_datasetName : Document.t -> Dataset.t -> string)
  (walkNodes : Document.t -> list (string * Setting))
  (doc : Document.t) (dsnodes : list TMNode.t) (entries : list MenuEntry) :
  datasetContextMenu tr recreatable canUnlink datasetTags doc_datasetName walkNodes
    doc dsnodes = Returns entries ->
  exists dsnames,
    mapM datasetName dsnodes = Ok dsnames /\
    map (fun e => fst (fst e)) (menu_checkable entries) = datasetTags doc /\
    forall tag state a,
      In (tag, state, a) (menu_checkable entries) <->
      In tag (datasetTags doc) /\
      (state = true <->
         forall node ds, In node dsnodes -> dataset doc node = Ok (Some ds) ->
                         In tag (Dataset.tags ds)) /\
      a = ApplyOperation (if state then OperationDataUntag tag dsnames
                          else OperationDataTag tag dsnames).
Proof.
  intros H.
  destruct (datasetContextMenu_content _ _ _ _ _ _ _ _ _ H)
    as [dsnames [present [H1 [H2 [_ Hck]]]]].
  destruct (selected_in_step doc dsnodes dsnames present H1 H2) as [Hl [_ [Hc Hn]]].
  exists dsnames. split; [exact H2|]. rewrite Hck. split.
  { rewrite map_map. simpl. apply map_id. }
  assert (Hall : forall tag,
            forallb (fun d => in_str tag (Dataset.tags d)) present = true <->
            forall node ds, In node dsnodes -> dataset doc node = Ok (Some ds) ->
                            In tag (Dataset.tags ds)).
  { intros tag. rewrite forallb_forall. split.
    - intros Hp node ds Hnode Hds. apply in_str_In. apply Hp.
      apply dataset_Some in Hds. destruct Hds as [name [Hname Hget]].
      destruct (Hn node name Hnode Hname) as [ds' Hd].
      destruct (Hc name ds' Hd) as [Hget' _].
      assert (ds' = ds) by congruence. subst. eapply in_combine_r; eauto.
    - intros Hp ds Hds. apply in_str_In.
      destruct (In_nth_error _ _ Hds) as [i Hi].
      assert (Hlt : (i < List.length dsnames)%nat).
      { rewrite Hl. apply nth_error_Some. congruence. }
      apply nth_error_Some in Hlt. destruct (nth_error dsnames i) as [name|] eqn:Hname;
        [|congruence].
      assert (Hd : In (name, ds) (combine dsnames present)).
      { apply (nth_error_In _ i). clear -Hi Hname. revert dsnames present Hi Hname.
        induction i as [|i IH]; intros [|n ns] [|p ps]; simpl; try discriminate.
        - intros. congruence.
        - apply IH. }
      destruct (Hc name ds Hd) as [Hget [node [Hnode Hnm]]].
      apply (Hp node ds Hnode). apply dataset_Some. eauto. }
  intros tag state a. rewrite in_map_iff. unfold toggle_operation. split.
  - intros [t [Ht Hin]]. inversion Ht; subst. split; [exact Hin|]. split; [apply Hall|].
    reflexivity.
  - intros [Hin [Hst Ha]]. exists tag. split; [|exact Hin].
    assert (Es : forallb (fun d => in_str tag (Dataset.tags d)) present = state).
    { destruct state.
      - apply (proj2 (Hall tag)). now apply Hst.
      - destruct (forallb (fun d => in_str tag (Dataset.tags d)) present) eqn:E;
          [|reflexivity]. pose proof (proj2 Hst (proj1 (Hall tag) E)). discriminate. }
    rewrite Es, Ha. reflexivity.
Qed.

Lemma datasetContextMenu_tag_toggles_witness :
  exists dsnames,
    mapM datasetName [TMNode.mk (DatasetNodeClass ["name"]) ["x"] []] = Ok dsnames /\
    map (fun e => fst (fst e))
        [("t", true, ApplyOperation (OperationDataUntag "t" ["x"]));
         ("u", false, ApplyOperation (OperationDataTag "u" ["x"]))] = ["t"; "u"].
Proof.
  destruct (datasetContextMenu_tag_toggles
    (fun s => s) (fun _ => false) (fun _ => true) (fun _ => ["t"; "u"]) (fun _ _ => "x")
    (fun _ => [])
    (Document.mk [("x", Dataset.mk 1 "numeric" "1D" "5" ["t"] None [] None "" "")])
    [TMNode.mk (DatasetNodeClass ["name"]) ["x"] []] _ eq_refl) as [dsnames [H1 [H2 _]]].
  exists dsnames. split; [exact H1|exact H2].
Defined.

Lemma combine_covers {A B} (names : list A) (present : list B) (ds : B) :
  List.length names = List.length present -> In ds present ->
  exists n, In (n, ds) (combine names present).
Proof.
  revert present. induction names as [|n names IH]; intros [|p present]; simpl;
    try discriminate; try tauto.
  intros Hl [<-|H]; [eauto|]. injection Hl as Hl. destruct (IH present Hl H) as [n' Hn'].
  eauto.
Qed.

Lemma compress_some {A B} (f : B -> bool) (names : list A) (present : list B) :
  List.length names = List.length present -> existsb f present = true ->
  compress names (map f present) <> [].
Proof.
  intros Hl He. apply existsb_exists in He. destruct He as [ds [Hin Hf]].
  destruct (combine_covers names present ds Hl Hin) as [n Hn].
  assert (H : In n (compress names (map f present))).
  { apply (compress_In f names present n Hl). eauto. }
  intros E. rewrite E in H. contradiction.
Qed.

Ltac not_here H :=
  repeat match type of H with
    | In _ (if ?b then _ else _) => destruct b
    | In _ (_ ++ _) => apply in_app_iff in H; destruct H as [H|H]
    | In _ (map _ _) => apply in_map_iff in H; destruct H as [? [H _]]
    | In _ (match ?p with _ => _ end) => destruct p as [|? [|? ?]]
    | In _ (_ :: _) => destruct H as [H|H]
    | In _ [] => contradiction
    end; try discriminate; try contradiction.

(** X23.  [datasetContextMenu] splits the selected datasets between "Edit"
    and "Edit data": a selected dataset that can be recreated is opened by
    "Edit", any other by "Edit data".  "Edit" opens only datasets that can
    be recreated and "Edit data" only datasets that cannot, and neither
    is in the menu with nothing to open. *)
Theorem datasetContextMenu_edit_or_edit_data
  (tr : string -> string) (recreatable canUnlink : Dataset.t -> bool)
  (datasetTags : Document.t -> list string)
  (doc_datasetName : Document.t -> Dataset.t -> string)
  (walkNodes : Document.t -> list (string * Setting))
  (doc : Document.t) (dsnodes : list TMNode.t) (entries : list MenuEntry) :
  datasetContextMenu tr recreatable canUnlink datasetTags doc_datasetName walkNodes
    doc dsnodes = Returns entries ->
  (forall node name ds,
     In node dsnodes -> datasetName node = Ok name -> dataset doc node = Ok (Some ds) ->
     exists names,
       In name names /\
       In (if recreatable ds then Recreate names else EditData names)
          (menu_actions entries)) /\
  (forall names, In (Recreate names) (menu_actions entries) ->
     names <> [] /\
     forall n, In n names ->
       exists ds, getitem (Document.data doc) n = Ok ds /\ recreatable ds = true) /\
  (forall names, In (EditData names) (menu_actions entries) ->
     names <> [] /\
     forall n, In n names ->
       exists ds, getitem (Document.data doc) n = Ok ds /\ recreatable ds = false).
Proof.
  intros H.
  destruct (datasetContextMenu_content _ _ _ _ _ _ _ _ _ H)
    as [dsnames [present [H1 [H2 [Ha _]]]]].
  destruct (selected_in_step doc dsnodes dsnames present H1 H2) as [Hl [_ [Hc Hn]]].
  rewrite Ha. clear Ha. rewrite map_map.
  assert (Hnot : negb (forallb recreatable present) =
                 existsb (fun d => negb (recreatable d)) present).
  { clear. induction present as [|d l IH]; simpl; [reflexivity|].
    rewrite negb_andb, IH. reflexivity. }
  rewrite Hnot. split; [|split].
  - intros node name ds Hnode Hname Hds.
    apply dataset_Some in Hds. destruct Hds as [name' [Hname' Hget]].
    assert (name' = name) by congruence. subst name'.
    destruct (Hn node name Hnode Hname) as [ds' Hd].
    destruct (Hc name ds' Hd) as [Hget' _]. assert (ds' = ds) by congruence. subst ds'.
    pose proof (in_combine_r _ _ _ _ Hd) as Hp.
    destruct (recreatable ds) eqn:Er.
    + exists (compress dsnames (map recreatable present)). split.
      * apply (compress_In recreatable dsnames present name Hl). eauto.
      * assert (He : existsb recreatable present = true).
        { apply existsb_exists. eauto. }
        rewrite He. now left.
    + exists (compress dsnames (map (fun d => negb (recreatable d)) present)). split.
      * apply (compress_In (fun d => negb (recreatable d)) dsnames present name Hl).
        exists ds. rewrite Er. auto.
      * assert (He : existsb (fun d => negb (recreatable d)) present = true).
        { apply existsb_exists. exists ds. rewrite Er. auto. }
        rewrite He. apply in_or_app. right. now left.
  - intros names Hin. apply in_app_iff in Hin. destruct Hin as [Hin|Hin]; [|not_here Hin].
    destruct (existsb recreatable present) eqn:He; [|contradiction].
    destruct Hin as [Hin|[]]. injection Hin as <-. split.
    + now apply compress_some.
    + intros n Hi. apply (compress_In recreatable dsnames present n Hl) in Hi.
      destruct Hi as [ds [Hd Hr]]. destruct (Hc n ds Hd) as [Hget _]. eauto.
  - intros names Hin. apply in_app_iff in Hin. destruct Hin as [Hin|Hin]; [not_here Hin|].
    apply in_app_iff in Hin. destruct Hin as [Hin|Hin]; [|not_here Hin].
    destruct (existsb (fun d => negb (recreatable d)) present) eqn:He; [|contradiction].
    destruct Hin as [Hin|[]]. injection Hin as <-. split.
    + now apply (compress_some (fun d => negb (recreatable d))).
    + intros n Hi.
      apply (compress_In (fun d => negb (recreatable d)) dsnames present n Hl) in Hi.
      destruct Hi as [ds [Hd Hr]]. destruct (Hc n ds Hd) as [Hget _].
      apply negb_true_iff in Hr. eauto.
Qed.

Lemma datasetContextMenu_edit_or_edit_data_witness :
  exists names,
    In "x" names /\
    In (if (fun d => Dataset.dimensions d =? 2)
             (Dataset.mk 1 "numeric" "1D" "5" [] None [] None "" "")
        then Recreate names else EditData names)
       [EditData ["x"];
        ApplyOperation (OperationMultiple [OperationDatasetDelete "x"] "delete dataset(s)");
        AddTag ["x"]; CopyDatasets ["x"]].
Proof.
  apply (proj1 (datasetContextMenu_edit_or_edit_data
    (fun s => s) (fun d => Dataset.dimensions d =? 2) (fun _ => false) (fun _ => [])
    (fun _ _ => "x") (fun _ => [])
    (Document.mk [("x", Dataset.mk 1 "numeric" "1D" "5" [] None [] None "" "")])
    [TMNode.mk (DatasetNodeClass ["name"]) ["x"] []] _ eq_refl)
    (TMNode.mk (DatasetNodeClass ["name"]) ["x"] []) "x"
    (Dataset.mk 1 "numeric" "1D" "5" [] None [] None "" "")).
  - now left.
  - reflexivity.
  - reflexivity.
Defined.

(** X24.  "Use as" is in the menu of [datasetContextMenu] only when a
    single dataset is selected, and its actions are exactly the dataset
    settings of the document that have the dimensions and the datatype of
    the dataset and whose path does not start with "/StyleSheet/"; each
    sets its setting to the name that the document gives the dataset. *)
Theorem datasetContextMenu_use_as
  (tr : string -> string) (recreatable canUnlink : Dataset.t -> bool)
  (datasetTags : Document.t -> list string)
  (doc_datasetName : Document.t -> Dataset.t -> string)
  (walkNodes : Document.t -> list (string * Setting))
  (doc : Document.t) (dsnodes : list TMNode.t) (entries : list MenuEntry)
  (path value : string) :
  datasetContextMenu tr recreatable canUnlink datasetTags doc_datasetName walkNodes
    doc dsnodes = Returns entries ->
  In (OperationSettingSet path value) (menu_operations entries) <->
  exists node ds,
    dsnodes = [node] /\ dataset doc node = Ok (Some ds) /\
    value = doc_datasetName doc ds /\
    In (path, DatasetSetting (Dataset.dimensions ds) (Dataset.datatype ds)) (walkNodes doc) /\
    prefix "/StyleSheet/" path = false.
Proof.
  intros H.
  destruct (datasetContextMenu_operations _ _ _ _ _ _ _ _ _ H)
    as [dsnames [present [H1 [H2 Hops]]]].
  destruct (selected_in_step doc dsnodes dsnames present H1 H2) as [Hl [Hl' _]].
  rewrite Hops. clear Hops.
  assert (Hu : forall d,
            In (OperationSettingSet path value)
               (map (fun ps => OperationSettingSet (fst ps) (doc_datasetName doc d))
                    (List.filter (usable_for d) (walkNodes doc))) <->
            value = doc_datasetName doc d /\
            In (path, DatasetSetting (Dataset.dimensions d) (Dataset.datatype d))
               (walkNodes doc) /\
            prefix "/StyleSheet/" path = false).
  { intros d. rewrite in_map_iff. split.
    - intros [[p setn] [E Hin]]. simpl in E. injection E as <- <-.
      apply filter_In in Hin. destruct Hin as [Hin Hus]. unfold usable_for in Hus.
      simpl in Hus. destruct setn as [dims dt|]; [|discriminate].
      apply andb_true_iff in Hus. destruct Hus as [Hus Hp].
      apply andb_true_iff in Hus. destruct Hus as [Hd Ht].
      apply Z.eqb_eq in Hd. apply String.eqb_eq in Ht. apply negb_true_iff in Hp.
      subst. auto.
    - intros [-> [Hin Hp]].
      exists (path, DatasetSetting (Dataset.dimensions d) (Dataset.datatype d)).
      split; [reflexivity|]. apply filter_In. split; [exact Hin|].
      unfold usable_for. simpl. now rewrite Z.eqb_refl, String.eqb_refl, Hp. }
  split.
  - intros Hin. rewrite !in_app_iff in Hin.
    destruct Hin as [Hx|[Hx|[Hx|[Hx|Hx]]]]; try (other_operation Hx).
    destruct present as [|d [|d' present']]; try contradiction.
    apply Hu in Hx. destruct Hx as [Hv [Hin Hp]].
    destruct dsnodes as [|node [|node' dsnodes']]; simpl in Hl, Hl'; try lia.
    exists node, d. repeat split; auto.
    simpl in H1. destruct (dataset doc node) as [od|]; simpl in H1; [|discriminate].
    congruence.
  - intros [node [ds [-> [Hds [Hv [Hin Hp]]]]]]. simpl in H1. rewrite Hds in H1. simpl in H1.
    destruct present as [|d [|d' present']]; simpl in H1; try discriminate.
    injection H1 as <-. rewrite !in_app_iff. do 4 right. apply Hu. auto.
Qed.

Lemma datasetContextMenu_use_as_witness :
  In (OperationSettingSet "/page1/graph1/xy1/yData" "x")
     [OperationDatasetDelete "x";
      OperationSettingSet "/page1/graph1/xy1/yData" "x"] <->
  exists node ds,
    [TMNode.mk (DatasetNodeClass ["name"]) ["x"] []] = [node] /\
    dataset (Document.mk [("x", Dataset.mk 1 "numeric" "1D" "5" [] None [] None "" "")])
            node = Ok (Some ds) /\
    "x" = "x" /\
    In ("/page1/graph1/xy1/yData",
        DatasetSetting (Dataset.dimensions ds) (Dataset.datatype ds))
       [("/StyleSheet/xy/yData", DatasetSetting 1 "numeric");
        ("/page1/graph1/xy1/yData", DatasetSetting 1 "numeric");
        ("/page1/graph1/xy1/labels", DatasetSetting 1 "text");
        ("/page1/graph1/xy1/color", OtherSetting)] /\
    prefix "/StyleSheet/" "/page1/graph1/xy1/yData" = false.
Proof.
  apply (datasetContextMenu_use_as
    (fun s => s) (fun _ => false) (fun _ => false) (fun _ => []) (fun _ _ => "x")
    (fun _ => [("/StyleSheet/xy/yData", DatasetSetting 1 "numeric");
               ("/page1/graph1/xy1/yData", DatasetSetting 1 "numeric");
               ("/page1/graph1/xy1/labels", DatasetSetting 1 "text");
               ("/page1/graph1/xy1/color", OtherSetting)])
    (Document.mk [("x", Dataset.mk 1 "numeric" "1D" "5" [] None [] None "" "")])
    [TMNode.mk (DatasetNodeClass ["name"]) ["x"] []] _
    "/page1/graph1/xy1/yData" "x" eq_refl).
Defined.

Lemma dataset_outcome (doc : Document.t) (node : TMNode.t) :
  (TMNode.data node = [] /\ dataset doc node = Raise IndexError) \/
  (TMNode.data node <> [] /\ exists od, dataset doc node = Ok od).
Proof.
  unfold dataset. destruct (datasetName_outcome node) as [[E1 E2]|[name [E1 E2]]].
  - left. rewrite E2. auto.
  - right. split; [exact E2|]. rewrite E1. simpl.
    destruct (contains (Document.data doc) name) eqn:Hc.
    + destruct (contains_getitem _ _ Hc) as [ds [Hg _]]. rewrite Hg. eauto.
    + rewrite (getitem_not_in _ _ Hc). eauto.
Qed.

(** X25.  [datasetContextMenu] builds its menu exactly when every selected
    node still has its dataset.  When the dataset of a selected node has
    gone from the document, [dataset] gives [None] for it and the call
    of [canUnlink] on it raises [AttributeError]; the only other error is
    the [IndexError] of a node without columns. *)
Theorem datasetContextMenu_outcome
  (tr : string -> string) (recreatable canUnlink : Dataset.t -> bool)
  (datasetTags : Document.t -> list string)
  (doc_datasetName : Document.t -> Dataset.t -> string)
  (walkNodes : Document.t -> list (string * Setting))
  (doc : Document.t) (dsnodes : list TMNode.t) :
  let menu := datasetContextMenu tr recreatable canUnlink datasetTags doc_datasetName
                walkNodes doc dsnodes in
  (forall e, menu = Raises e <->
     e = IndexError /\ exists node, In node dsnodes /\ TMNode.data node = []) /\
  (menu = RaisesAttributeError <->
     (forall node, In node dsnodes -> TMNode.data node <> []) /\
     exists node, In node dsnodes /\ dataset doc node = Ok None) /\
  ((exists entries, menu = Returns entries) <->
     forall node, In node dsnodes -> exists ds, dataset doc node = Ok (Some ds)).
Proof.
  intros menu.
  assert (Hcases :
    (exists node, In node dsnodes /\ TMNode.data node = [] /\ menu = Raises IndexError) \/
    ((forall node, In node dsnodes -> TMNode.data node <> []) /\
     ((exists node, In node dsnodes /\ dataset doc node = Ok None) /\
      menu = RaisesAttributeError \/
      (forall node, In node dsnodes -> exists ds, dataset doc node = Ok (Some ds)) /\
      exists entries, menu = Returns entries))).
  { unfold menu, datasetContextMenu.
    destruct (mapM (dataset doc) dsnodes) as [datasets|e] eqn:Ed.
    - pose proof (mapM_Ok _ _ _ Ed) as Hd. right.
      assert (Hne : forall node, In node dsnodes -> TMNode.data node <> []).
      { intros node Hin. destruct (Forall2_In_l _ _ _ node Hd Hin) as [od [_ Hod]].
        destruct (dataset_outcome doc node) as [[_ E]|[E _]]; [congruence|exact E]. }
      split; [exact Hne|].
      destruct (mapM_total datasetName dsnodes) as [dsnames En].
      { intros node Hin. destruct (datasetName_outcome node) as [[E _]|[name [E _]]];
          [now apply Hne in E|eauto]. }
      rewrite En. destruct (all_present datasets) as [present|] eqn:Ep.
      + right. split; [|eauto]. intros node Hin.
        destruct (Forall2_In_l _ _ _ node Hd Hin) as [od [Hod Hds]].
        apply all_present_Some in Ep. subst datasets. apply in_map_iff in Hod.
        destruct Hod as [ds [<- _]]. eauto.
      + left. split; [|reflexivity]. apply all_present_None in Ep.
        destruct (Forall2_In_r _ _ _ None Hd Ep) as [node [Hin Hds]]. eauto.
    - left. destruct (mapM_Raise _ _ _ Ed) as [node [Hin Hds]]. exists node.
      destruct (dataset_outcome doc node) as [[E1 E2]|[_ [od E]]]; [|congruence].
      assert (e = IndexError) by congruence. subst. auto. }
  split; [|split].
  - intros e. split.
    + intros He. destruct Hcases as [[node [H1 [H2 H3]]]|[_ [[_ H]|[_ [entries H]]]]];
        try congruence. split; [congruence|eauto].
    + intros [-> [node [Hin Hd]]].
      destruct Hcases as [[_ [_ [_ H]]]|[Hne _]]; [exact H|]. now apply Hne in Hd.
  - split.
    + intros He. destruct Hcases as [[node [H1 [H2 H3]]]|[Hne [[Hn _]|[_ [entries H]]]]];
        try congruence. auto.
    + intros [Hne [node [Hin Hd]]].
      destruct Hcases as [[n [H1 [H2 _]]]|[_ [[_ H]|[Hall _]]]].
      * now apply Hne in H2.
      * exact H.
      * destruct (Hall node Hin) as [ds Hds]. congruence.
  - split.
    + intros [entries He].
      destruct Hcases as [[node [H1 [H2 H3]]]|[Hne [[_ H]|[Hall _]]]];
        try congruence. exact Hall.
    + intros Hall. destruct Hcases as [[node [H1 [H2 _]]]|[_ [[[node [Hin Hd]] _]|[_ H]]]].
      * destruct (Hall node H1) as [ds Hds].
        destruct (dataset_outcome doc node) as [[_ E]|[E _]]; congruence.
      * destruct (Hall node Hin) as [ds Hds]. congruence.
      * exact H.
Qed.

Lemma datasetContextMenu_outcome_witness :
  datasetContextMenu (fun s => s) (fun _ => false) (fun _ => false) (fun _ => [])
    (fun _ _ => "x") (fun _ => [])
    (Document.mk [("x", Dataset.mk 1 "numeric" "1D" "5" [] None [] None "" "")])
    [TMNode.mk (DatasetNodeClass ["name"]) ["x"] [];
     TMNode.mk (DatasetNodeClass ["name"]) ["gone"] []] = RaisesAttributeError.
Proof.
  apply (proj2 (proj1 (proj2 (datasetContextMenu_outcome
    (fun s => s) (fun _ => false) (fun _ => false) (fun _ => [])
    (fun _ _ => "x") (fun _ => [])
    (Document.mk [("x", Dataset.mk 1 "numeric" "1D" "5" [] None [] None "" "")])
    [TMNode.mk (DatasetNodeClass ["name"]) ["x"] [];
     TMNode.mk (DatasetNodeClass ["name"]) ["gone"] []])))).
  split.
  - simpl. intros node [<-|[<-|[]]]; discriminate.
  - exists (TMNode.mk (DatasetNodeClass ["name"]) ["gone"] []). split; [simpl; auto|reflexivity].
Defined.

(** ** The context menu of the tree *)

Lemma in_type_In (x : NodeType) (types : list NodeType) :
  in_type x types = true <-> In x types.
Proof.
  unfold in_type. rewrite existsb_exists. split.
  - intros [y [Hy E]]. destruct x, y; try discriminate; exact Hy.
  - intros H. exists x. split; [exact H|]. destruct x; reflexivity.
Qed.

Lemma selected_type (unique : list NodeType -> list NodeType) (nodes : list TMNode.t)
  (x : NodeType) :
  keeps_members unique ->
  in_type x (unique (map type nodes)) = true <-> exists n, In n nodes /\ type n = x.
Proof.
  intros Hu. rewrite in_type_In, (proj2 (Hu _)), in_map_iff. split.
  - intros [n [H1 H2]]. eauto.
  - intros [n [H1 H2]]. eauto.
Qed.

Lemma type_dataset (n : TMNode.t) :
  type n = DatasetNodeType <-> is_dataset_node (TMNode.cls n) = true.
Proof. unfold type. destruct (TMNode.cls n); simpl; split; congruence. Qed.

Lemma type_filename (n : TMNode.t) :
  type n = FilenameNodeType <-> is_filename_node (TMNode.cls n) = true.
Proof. unfold type. destruct (TMNode.cls n); simpl; split; congruence. Qed.

Lemma no_file_operation {A} (g : A -> MenuOperation) (l : list A) (descr : string) :
  (forall x, leaf_operations (g x) = [g x]) -> (forall x, file_operation (g x) = false) ->
  existsb file_operation (leaf_operations (OperationMultiple (map g l) descr)) = false.
Proof.
  intros Hl Hf. simpl. induction l as [|x l IH]; simpl; [reflexivity|].
  rewrite Hl. simpl. now rewrite Hf, IH.
Qed.

Lemma only_file_operations (g : string -> MenuOperation) (l : list string) (descr : string) :
  (forall x, leaf_operations (g x) = [g x]) -> (forall x, file_operation (g x) = true) ->
  l <> [] ->
  existsb file_operation (leaf_operations (OperationMultiple (map g l) descr)) = true.
Proof.
  intros Hl Hf Hne. destruct l as [|x l]; [congruence|]. simpl. rewrite Hl. simpl.
  now rewrite Hf.
Qed.

(** The actions of the menu of [datasetContextMenu] are on datasets. *)
Lemma datasetContextMenu_actions
  (tr : string -> string) (recreatable canUnlink : Dataset.t -> bool)
  (datasetTags : Document.t -> list string)
  (doc_datasetName : Document.t -> Dataset.t -> string)
  (walkNodes : Document.t -> list (string * Setting))
  (doc : Document.t) (dsnodes : list TMNode.t) (entries : list MenuEntry) (a : Action) :
  datasetContextMenu tr recreatable canUnlink datasetTags doc_datasetName walkNodes
    doc dsnodes = Returns entries ->
  In a (menu_actions entries) -> file_action a = false /\ dataset_action a = true.
Proof.
  intros H Hin.
  destruct (datasetContextMenu_content _ _ _ _ _ _ _ _ _ H)
    as [dsnames [present [_ [_ [Ha _]]]]].
  rewrite Ha in Hin. clear Ha H.
  assert (Hop : forall op, existsb file_operation (leaf_operations op) = false ->
                   file_action (ApplyOperation op) = false /\
                   dataset_action (ApplyOperation op) = true).
  { intros op E. simpl. rewrite E. auto. }
  repeat match type of Hin with
    | In _ (if ?b then _ else _) => destruct b
    | In _ (_ ++ _) => apply in_app_iff in Hin; destruct Hin as [Hin|Hin]
    | In _ (map _ _) => apply in_map_iff in Hin; destruct Hin as [? [Hin _]]
    | In _ (match ?p with _ => _ end) => destruct p as [|? [|? ?]]
    | In _ (_ :: _) => destruct Hin as [Hin|Hin]
    | In _ [] => contradiction
    end; subst a; try (split; reflexivity); apply Hop;
    try (apply no_file_operation; reflexivity); try reflexivity.
  unfold toggle_operation.
  match goal with |- context [if ?b then _ else _] => destruct b end; reflexivity.
Qed.

(** The actions of the menu of [filenameContextMenu] are on files. *)
Lemma filenameContextMenu_actions (tr : string -> string) (nodes : list TMNode.t)
  (entries : list MenuEntry) (a : Action) :
  filenameContextMenu tr nodes = Ok entries ->
  In a (menu_actions entries) -> file_action a = true /\ dataset_action a = false.
Proof.
  unfold filenameContextMenu. intros H Hin.
  destruct (mapM filename nodes) as [all|] eqn:Em; simpl in H; [|discriminate].
  destruct (List.filter (fun f => negb (String.eqb f "/")) all) as [|f files] eqn:Ef;
    injection H as <-; simpl in Hin; [contradiction|].
  assert (Hop : forall op, existsb file_operation (leaf_operations op) = true ->
                   file_action (ApplyOperation op) = true /\
                   dataset_action (ApplyOperation op) = false).
  { intros op E. simpl. rewrite E. auto. }
  destruct Hin as [<-|[<-|[<-|[]]]].
  - split; reflexivity.
  - apply Hop. apply (only_file_operations OperationDatasetUnlinkByFile (f :: files));
      try reflexivity; discriminate.
  - apply Hop. apply (only_file_operations OperationDatasetDeleteByFile (f :: files));
      try reflexivity; discriminate.
Qed.

(** X26.  [showContextMenu] serves one kind of node.  When a dataset node
    is among the selected nodes, every action of the menu, "Paste" apart,
    is one on the selected datasets and file nodes selected with them get
    no action; when no dataset node is selected no action is on datasets.
    "Paste" is in the menu exactly when the clipboard holds datasets, and
    a menu that is shown has at least one entry. *)
Theorem showContextMenu_one_kind
  (tr : string -> string) (recreatable canUnlink : Dataset.t -> bool)
  (datasetTags : Document.t -> list string)
  (doc_datasetName : Document.t -> Dataset.t -> string)
  (walkNodes : Document.t -> list (string * Setting))
  (unique : list NodeType -> list NodeType)
  (doc : Document.t) (isClipboardDataMime : bool) (nodes : list TMNode.t)
  (menu : list MenuEntry) :
  keeps_members unique ->
  showContextMenu tr recreatable canUnlink datasetTags doc_datasetName walkNodes unique
    doc isClipboardDataMime nodes = Returns (Some menu) ->
  let has_dataset := exists n, In n nodes /\ is_dataset_node (TMNode.cls n) = true in
  menu <> [] /\
  (In Paste (menu_actions menu) <-> isClipboardDataMime = true) /\
  (has_dataset ->
     forall a, In a (menu_actions menu) -> a <> Paste ->
               file_action a = false /\ dataset_action a = true) /\
  (~ has_dataset -> forall a, In a (menu_actions menu) -> dataset_action a = false).
Proof.
  intros Hu H has_dataset. unfold showContextMenu in H.
  assert (Hds : in_type DatasetNodeType (unique (map type nodes)) = true <-> has_dataset).
  { rewrite (selected_type unique nodes _ Hu). unfold has_dataset. split.
    - intros [n [H1 H2]]. apply type_dataset in H2. eauto.
    - intros [n [H1 H2]]. apply type_dataset in H2. eauto. }
  set (paste := if isClipboardDataMime then [MenuAction (tr "Paste") None Paste] else [])
    in *.
  assert (Hpaste : forall a, In a (menu_actions paste) ->
                     a = Paste /\ isClipboardDataMime = true).
  { unfold paste. destruct isClipboardDataMime; simpl; [|contradiction].
    intros a [<-|[]]. auto. }
  assert (Hclip : isClipboardDataMime = true -> In Paste (menu_actions paste)).
  { intros ->. simpl. auto. }
  assert (Hwrap : forall (b : bool) label entries,
            menu_actions (if b then [SubMenu label entries] else entries) =
            menu_actions entries).
  { intros [|] label entries; [apply menu_actions_submenu|reflexivity]. }
  destruct (in_type DatasetNodeType (unique (map type nodes))) eqn:Ed.
  - assert (Hd : has_dataset) by now apply Hds.
    destruct (datasetContextMenu tr recreatable canUnlink datasetTags doc_datasetName
                walkNodes doc _) as [entries| |] eqn:Em; try discriminate.
    assert (Hm : menu_actions menu = menu_actions entries ++ menu_actions paste /\
                 menu <> []).
    { destruct ((if 1 <? len (unique (map type nodes))
                 then [SubMenu (tr "Datasets") entries] else entries) ++ paste)
        as [|e l] eqn:E; [discriminate|]. injection H as <-. rewrite <- E.
      rewrite menu_actions_app, Hwrap. split; [reflexivity|]. rewrite E. discriminate. }
    destruct Hm as [Hm Hne]. rewrite Hm. split; [exact Hne|]. split; [|split].
    + rewrite in_app_iff. split; [|auto]. intros [Hin|Hin]; [|now apply Hpaste in Hin].
      destruct (datasetContextMenu_actions _ _ _ _ _ _ _ _ _ _ Em Hin) as [_ Hx].
      discriminate.
    + intros _ a Hin Hnp. apply in_app_iff in Hin. destruct Hin as [Hin|Hin].
      * exact (datasetContextMenu_actions _ _ _ _ _ _ _ _ _ _ Em Hin).
      * apply Hpaste in Hin. destruct Hin. contradiction.
    + intros Hn. contradiction.
  - assert (Hd : ~ has_dataset).
    { intros Hd. apply Hds in Hd. discriminate. }
    assert (Hfile : exists entries,
              menu = entries ++ paste /\ menu <> [] /\
              forall a, In a (menu_actions entries) ->
                        dataset_action a = false /\ a <> Paste).
    { destruct (in_type FilenameNodeType (unique (map type nodes))).
      - destruct (filenameContextMenu tr _) as [entries|] eqn:Em; [|discriminate].
        destruct ((if 1 <? len (unique (map type nodes))
                   then [SubMenu (tr "Files") entries] else entries) ++ paste)
          as [|e l] eqn:E; [discriminate|]. injection H as <-.
        eexists. split; [symmetry; exact E|]. split; [discriminate|].
        intros a Hin. rewrite Hwrap in Hin.
        destruct (filenameContextMenu_actions _ _ _ _ Em Hin) as [Hfa Hda].
        split; [exact Hda|]. intros ->. discriminate.
      - destruct ([] ++ paste) as [|e l] eqn:E; [discriminate|]. injection H as <-.
        exists []. split; [symmetry; exact E|]. split; [discriminate|].
        simpl. contradiction. }
    destruct Hfile as [entries [-> [Hne Hf]]]. rewrite menu_actions_app.
    split; [exact Hne|]. split; [|split].
    + rewrite in_app_iff. split; [|auto]. intros [Hin|Hin]; [|now apply Hpaste in Hin].
      apply Hf in Hin. destruct Hin as [_ Hin]. now contradiction Hin.
    + intros Hh. contradiction.
    + intros _ a Hin. apply in_app_iff in Hin.
      destruct Hin as [Hin|Hin]; [now apply Hf|].
      apply Hpaste in Hin. destruct Hin as [-> _]. reflexivity.
Qed.

Lemma NodeType_eqb_eq (a b : NodeType) : NodeType_eqb a b = true <-> a = b.
Proof. destruct a, b; simpl; split; congruence. Qed.

Lemma first_occurrences_keeps_members : keeps_members first_occurrences.
Proof.
  intros l. induction l as [|x l [IHn IHi]]; simpl.
  - split; [constructor|tauto].
  - split.
    + constructor.
      * intros H. apply filter_In in H. destruct H as [_ H].
        rewrite (proj2 (NodeType_eqb_eq x x) eq_refl) in H. discriminate.
      * now apply NoDup_filter.
    + intros y. rewrite filter_In, IHi. split.
      * intros [H|[H _]]; auto.
      * intros [H|H]; [auto|].
        destruct (NodeType_eqb x y) eqn:E; [left; now apply NodeType_eqb_eq|].
        right. auto.
Qed.

Lemma showContextMenu_one_kind_witness :
  exists menu,
    showContextMenu (fun s => s) (fun _ => false) (fun _ => false) (fun _ => [])
      (fun _ _ => "x") (fun _ => []) first_occurrences
      (Document.mk [("x", Dataset.mk 1 "numeric" "1D" "5" [] (Some "/d/a.dat") [] None "" "")])
      false
      [TMNode.mk FilenameNodeClass ["/d/a.dat"] [];
       TMNode.mk (DatasetNodeClass ["name"]) ["x"] []] = Returns (Some menu) /\
    menu <> [].
Proof.
  eexists. split; [reflexivity|].
  apply (proj1 (showContextMenu_one_kind
    (fun s => s) (fun _ => false) (fun _ => false) (fun _ => [])
    (fun _ _ => "x") (fun _ => []) first_occurrences
    (Document.mk [("x", Dataset.mk 1 "numeric" "1D" "5" [] (Some "/d/a.dat") [] None "" "")])
    false
    [TMNode.mk FilenameNodeClass ["/d/a.dat"] [];
     TMNode.mk (DatasetNodeClass ["name"]) ["x"] []] _
    first_occurrences_keeps_members eq_refl)).
Defined.

Lemma NoDup_two {A} (l : list A) (a b : A) :
  NoDup l -> In a l -> In b l -> a <> b -> (2 <= List.length l)%nat.
Proof.
  intros Hn Ha Hb Hab. destruct l as [|x [|y l]]; simpl in *; try tauto; try lia.
  destruct Ha as [<-|[]], Hb as [<-|[]]. congruence.
Qed.

Lemma NoDup_same {A} (l : list A) (a : A) :
  NoDup l -> (forall x, In x l -> x = a) -> (List.length l <= 1)%nat.
Proof.
  intros Hn Ha. destruct l as [|x [|y l]]; simpl; try lia.
  exfalso. inversion Hn as [|? ? Hx _]; subst. apply Hx.
  rewrite (Ha x), (Ha y); simpl; auto.
Qed.

(** X27.  [showContextMenu] shows no menu exactly when there is nothing
    to act on: the clipboard holds no datasets, no dataset node is
    selected, and the selection holds no file node or holds nothing but
    the node "/" of the datasets that are linked to no file. *)
Theorem showContextMenu_not_shown
  (tr : string -> string) (recreatable canUnlink : Dataset.t -> bool)
  (datasetTags : Document.t -> list string)
  (doc_datasetName : Document.t -> Dataset.t -> string)
  (walkNodes : Document.t -> list (string * Setting))
  (unique : list NodeType -> list NodeType)
  (doc : Document.t) (isClipboardDataMime : bool) (nodes : list TMNode.t) :
  keeps_members unique ->
  showContextMenu tr recreatable canUnlink datasetTags doc_datasetName walkNodes unique
    doc isClipboardDataMime nodes = Returns None <->
  isClipboardDataMime = false /\
  (forall n, In n nodes -> is_dataset_node (TMNode.cls n) = false) /\
  ((exists n, In n nodes /\ is_filename_node (TMNode.cls n) = true) ->
   forall n, In n nodes ->
             is_filename_node (TMNode.cls n) = true /\ filename n = Ok "/").
Proof.
  intros Hu. unfold showContextMenu.
  pose proof (selected_type unique nodes DatasetNodeType Hu) as Hds.
  pose proof (selected_type unique nodes FilenameNodeType Hu) as Hfs.
  destruct (Hu (map type nodes)) as [Hnd Hmem].
  set (types := unique (map type nodes)) in *.
  destruct (in_type DatasetNodeType types) eqn:Ed.
  - split.
    + intros H. exfalso.
      destruct (datasetContextMenu tr recreatable canUnlink datasetTags doc_datasetName
                  walkNodes doc _) as [entries| |] eqn:Em; try discriminate.
      destruct (datasetContextMenu_content _ _ _ _ _ _ _ _ _ Em)
        as [dsnames [present [_ [_ [Ha _]]]]].
      assert (Hne : menu_actions entries <> []).
      { rewrite Ha. destruct (existsb recreatable present); [discriminate|].
        destruct (negb (forallb recreatable present)); discriminate. }
      destruct (1 <? len types); [discriminate|].
      destruct entries as [|e l]; [now apply Hne|discriminate].
    + intros [_ [Hno _]]. exfalso. destruct (proj1 Hds eq_refl) as [n [Hin Hn]].
      apply type_dataset in Hn. rewrite (Hno n Hin) in Hn. discriminate.
  - assert (Hno : forall n, In n nodes -> is_dataset_node (TMNode.cls n) = false).
    { intros n Hin. destruct (is_dataset_node (TMNode.cls n)) eqn:E; [|reflexivity].
      assert (Hx : false = true); [|discriminate].
      apply Hds. exists n. split; [exact Hin|]. now apply type_dataset. }
    destruct (in_type FilenameNodeType types) eqn:Ef.
    + assert (Hhas : exists n, In n nodes /\ is_filename_node (TMNode.cls n) = true).
      { destruct (proj1 Hfs eq_refl) as [n [Hin Hn]]. apply type_filename in Hn. eauto. }
      assert (Hlen : (1 <? len types) = false <->
                     forall n, In n nodes -> is_filename_node (TMNode.cls n) = true).
      { rewrite Z.ltb_ge. unfold len. split.
        - intros Hl n Hin. apply type_filename.
          destruct (type n) eqn:Et; [|reflexivity|].
          + exfalso. assert (2 <= List.length types)%nat; [|lia].
            apply (NoDup_two types TMNodeType FilenameNodeType Hnd); try discriminate.
            * apply Hmem. rewrite <- Et. now apply in_map.
            * now apply in_type_In.
          + apply type_dataset in Et. rewrite (Hno n Hin) in Et. discriminate.
        - intros Hall. assert (List.length types <= 1)%nat; [|lia].
          apply (NoDup_same types FilenameNodeType Hnd). intros x Hx.
          apply Hmem in Hx. apply in_map_iff in Hx. destruct Hx as [n [<- Hin]].
          apply type_filename. now apply Hall. }
      assert (Hfilter : (forall n, In n nodes -> is_filename_node (TMNode.cls n) = true) ->
                List.filter (fun n => is_filename_node (TMNode.cls n)) nodes = nodes).
      { clear. induction nodes as [|n l IH]; simpl; [reflexivity|]. intros H.
        rewrite (H n (or_introl eq_refl)). f_equal. apply IH. auto. }
      split.
      * intros H.
        destruct (filenameContextMenu tr _) as [entries|] eqn:Em; [|discriminate].
        destruct (1 <? len types) eqn:El; [discriminate|].
        pose proof (proj1 Hlen eq_refl) as Hall. rewrite (Hfilter Hall) in Em.
        destruct entries as [|e l]; [|discriminate].
        destruct isClipboardDataMime; [discriminate|].
        split; [reflexivity|]. split; [exact Hno|]. intros _ n Hin.
        split; [now apply Hall|].
        pose proof (filenameContextMenu_empty tr nodes [] Em) as Hempty.
        destruct (filename_outcome n) as [[_ E]|[f [rest [_ E]]]].
        -- exfalso. unfold filenameContextMenu in Em.
           destruct (mapM filename nodes) as [all|] eqn:Ea; simpl in Em; [|discriminate].
           destruct (Forall2_In_l _ _ _ n (mapM_Ok _ _ _ Ea) Hin) as [y [_ Hy]]. congruence.
        -- rewrite E. f_equal. apply (proj1 Hempty eq_refl). eauto.
      * intros [-> [_ Hall]]. specialize (Hall Hhas).
        assert (Hall1 : forall n, In n nodes -> is_filename_node (TMNode.cls n) = true).
        { intros n Hin. now apply Hall. }
        rewrite (Hfilter Hall1), (proj2 Hlen Hall1).
        destruct (mapM_total filename nodes) as [all Ea].
        { intros n Hin. exists "/". now apply Hall. }
        destruct (filenameContextMenu tr nodes) as [entries|e] eqn:Em.
        -- pose proof (filenameContextMenu_empty tr nodes entries Em) as Hempty.
           rewrite (proj2 Hempty); [reflexivity|].
           intros f [n [Hin Hn]]. destruct (Hall n Hin) as [_ Hn']. congruence.
        -- exfalso. unfold filenameContextMenu in Em. rewrite Ea in Em. simpl in Em.
           destruct (List.filter _ all); discriminate.
    + split.
      * intros H. destruct isClipboardDataMime; [discriminate|].
        split; [reflexivity|]. split; [exact Hno|].
        intros [n [Hin Hn]]. exfalso.
        assert (Hx : false = true); [|discriminate].
        apply Hfs. exists n. split; [exact Hin|]. now apply type_filename.
      * intros [-> _]. reflexivity.
Qed.

Lemma showContextMenu_not_shown_witness :
  showContextMenu (fun s => s) (fun _ => false) (fun _ => false) (fun _ => [])
    (fun _ _ => "x") (fun _ => []) first_occurrences
    (Document.mk [("x", Dataset.mk 1 "numeric" "1D" "5" [] None [] None "" "")])
    false [TMNode.mk FilenameNodeClass ["/"] []] = Returns None.
Proof.
  apply (proj2 (showContextMenu_not_shown
    (fun s => s) (fun _ => false) (fun _ => false) (fun _ => [])
    (fun _ _ => "x") (fun _ => []) first_occurrences
    (Document.mk [("x", Dataset.mk 1 "numeric" "1D" "5" [] None [] None "" "")])
    false [TMNode.mk FilenameNodeClass ["/"] []] first_occurrences_keeps_members)).
  split; [reflexivity|]. split.
  - intros n [<-|[]]. reflexivity.
  - intros _ n [<-|[]]. split; reflexivity.
Defined.
